(** * Patient monitoring server: vitals ingestion, alerts and analytics

    A shallow embedding of the Hono server of the repository
    (superbase/functions/server/index.tsx) together with the dashboard's
    [getVitalStatus] (src/components/PatientDashboard.tsx), and the
    properties of the alert derivation, the analytics statistics and the
    alert acknowledgement that follow from the code.

    Conventions of the embedding.
    - A JavaScript number is a binary64 value; a finite one is modelled as
      the rational ([Q]) it denotes, so comparisons are exact.  The
      arithmetic of the averages rounds each result to binary64
      ([Js.roundToDouble]); a result that is not finite is [None].
    - An optional property ([heartRate?: number]) is an [option]: [None]
      stands for undefined and for null, which the server never tells apart
      (it only tests truthiness).
    - An instant ([Date], [Date.now()], an ISO timestamp string) is the
      number of milliseconds since the epoch, an integer ([Z]).  The [Date]
      methods of the analytics work in the local time zone of the server,
      which is a parameter ([JsDate.TimeZone]).
    - The key-value store is a finite map from keys to stored objects. *)

From Stdlib Require Import ZArith QArith Qabs Qpower Qround Lqa Lia Ascii.
From stdpp Require Import base option list strings pretty gmap sorting.

Set Default Proof Using "Type".

(** ** JavaScript values *)

Module Js.

(** [x < y] and friends on numbers. *)
Definition ltb (x y : Q) : bool := negb (Qle_bool y x).
Definition gtb (x y : Q) : bool := negb (Qle_bool x y).
Definition leb (x y : Q) : bool := Qle_bool x y.
Definition geb (x y : Q) : bool := Qle_bool y x.

(** Truthiness of a number: every number but zero. *)
Definition truthyNumber (x : Q) : bool := negb (Qeq_bool x 0).

(** Truthiness of an optional number: undefined, null and 0 are falsy. *)
Definition truthy (v : option Q) : bool :=
  match v with
  | Some x => truthyNumber x
  | None => false
  end.

(** Truthiness of an optional string: undefined, null and '' are falsy. *)
Definition truthyString (v : option string) : bool :=
  match v with
  | Some s => negb (String.eqb s "")
  | None => false
  end.

(** [v || null] on an optional number, [v || null] and [v || dflt] on an
    optional string. *)
Definition orNull (v : option Q) : option Q :=
  if truthy v then v else None.

Definition orNullString (v : option string) : option string :=
  if truthyString v then v else None.

Definition orString (v : option string) (dflt : string) : string :=
  match v with
  | Some s => if truthyString v then s else dflt
  | None => dflt
  end.

(** ToNumber of an optional number in an arithmetic context: null is 0. *)
Definition toNumber (v : option Q) : Q :=
  match v with
  | Some x => x
  | None => 0%Q
  end.

(** [Math.round]: the integer nearest to [x], ties towards +infinity. *)
Definition Math_round (x : Q) : Q := inject_Z (Qfloor (x + (1 # 2))%Q).

(** *** Arithmetic in binary64

    The result of an operation on numbers is the exact result rounded to
    the nearest binary64 value, to the one with the even significand on a
    tie: 53 bits of precision, subnormal values in steps of 2^-1074, and
    overflow from 2^1024 on.  [None] stands for a result that is not finite
    (an infinity or NaN), which [c.json] writes as null. *)

(** The exponent [e] with [2^e <= x < 2^(e+1)], for a positive [x]. *)
Definition ilog2 (x : Q) : Z :=
  let e := (Z.log2 (Qnum x) - Z.log2 (Zpos (Qden x)))%Z in
  if Qle_bool (2 ^ e) x then e else (e - 1)%Z.

(** The nearest integer, the even one on a tie. *)
Definition roundHalfEven (x : Q) : Z :=
  let n := Qfloor x in
  match (x - inject_Z n ?= 1 # 2)%Q with
  | Lt => n
  | Gt => (n + 1)%Z
  | Eq => if Z.even n then n else (n + 1)%Z
  end.

Definition roundToDouble (x : Q) : option Q :=
  if Qeq_bool x 0 then Some 0%Q
  else
    let quantum := (2 ^ Z.max (ilog2 (Qabs x) - 52) (-1074))%Q in
    let y := (inject_Z (roundHalfEven (Qabs x / quantum)) * quantum)%Q in
    if Qle_bool (2 ^ 1024) y then None
    else Some (Qred (if Qle_bool 0 x then y else - y)).

(** [x + y] and [x / y]. *)
Definition add (x y : option Q) : option Q :=
  match x, y with
  | Some a, Some b => roundToDouble (a + b)
  | _, _ => None
  end.

Definition divide (x y : option Q) : option Q :=
  match x, y with
  | Some a, Some b => if Qeq_bool b 0 then None else roundToDouble (a / b)
  | _, _ => None
  end.

(** [Array.prototype.sort] with the comparator [(a, b) => key(a) - key(b)]:
    a stable sort, ascending in [key]. *)
Section sort.
Context {A : Type} (key : A → Z).

Fixpoint sortInsert (x : A) (l : list A) : list A :=
  match l with
  | [] => [x]
  | y :: l' =>
      if (key x <=? key y)%Z then x :: y :: l' else y :: sortInsert x l'
  end.

Definition sortBy (l : list A) : list A := foldr sortInsert [] l.
End sort.

(** [String.prototype.split] with a one-character separator. *)
Fixpoint splitAux (sep : Ascii.ascii) (cur : string) (s : string) : list string :=
  match s with
  | EmptyString => [String.rev cur]
  | String c s' =>
      if Ascii.eqb c sep then String.rev cur :: splitAux sep EmptyString s'
      else splitAux sep (String c cur) s'
  end.

Definition split (sep : Ascii.ascii) (s : string) : list string :=
  splitAux sep EmptyString s.

(** [parseInt(s)] without a radix: leading white space is skipped, a sign
    is read, a 0x or 0X prefix selects radix 16, and the longest prefix of
    digits is the result; [None] stands for NaN. *)
Definition isWhiteSpace (c : Ascii.ascii) : bool :=
  let n := Ascii.nat_of_ascii c in
  (Nat.eqb n 32 || (Nat.leb 9 n && Nat.leb n 13))%bool.

Fixpoint trimStart (s : string) : string :=
  match s with
  | String c s' => if isWhiteSpace c then trimStart s' else s
  | EmptyString => s
  end.

Definition digitValue (radix : Z) (c : Ascii.ascii) : option Z :=
  let n := Z.of_nat (Ascii.nat_of_ascii c) in
  let d :=
    if ((48 <=? n) && (n <=? 57))%Z then Some (n - 48)%Z
    else if ((97 <=? n) && (n <=? 122))%Z then Some (n - 87)%Z
    else if ((65 <=? n) && (n <=? 90))%Z then Some (n - 55)%Z
    else None in
  match d with
  | Some v => if (v <? radix)%Z then Some v else None
  | None => None
  end.

Fixpoint digits (radix : Z) (acc : option Z) (s : string) : option Z :=
  match s with
  | String c s' =>
      match digitValue radix c with
      | Some d => digits radix (Some (default 0%Z acc * radix + d)%Z) s'
      | None => acc
      end
  | EmptyString => acc
  end.

Definition parseInt (s : string) : option Z :=
  let s1 := trimStart s in
  let '(sign, s2) :=
    match s1 with
    | String "-"%char r => ((-1)%Z, r)
    | String "+"%char r => (1%Z, r)
    | _ => (1%Z, s1)
    end in
  let '(radix, s3) :=
    match s2 with
    | String "0"%char (String "x"%char r) => (16%Z, r)
    | String "0"%char (String "X"%char r) => (16%Z, r)
    | _ => (10%Z, s2)
    end in
  (λ n, sign * n)%Z <$> digits radix None s3.

End Js.

Declare Scope js_scope.
Delimit Scope js_scope with js.
Notation "x <? y" := (Js.ltb x%Q y%Q) : js_scope.
Notation "x >? y" := (Js.gtb x%Q y%Q) : js_scope.
Notation "x <=? y" := (Js.leb x%Q y%Q) : js_scope.
Notation "x >=? y" := (Js.geb x%Q y%Q) : js_scope.

(** ** Dates

    The [Date] methods the analytics handlers call, on milliseconds since
    the epoch, following the abstract operations of ECMAScript (Day,
    TimeWithinDay, YearFromTime, MonthFromTime, DateFromTime, MakeDay,
    MakeDate) in the proleptic Gregorian calendar. *)

Module JsDate.
Local Open Scope Z_scope.

Definition msPerDay : Z := 86400000.

Definition Day (t : Z) : Z := t / msPerDay.
Definition TimeWithinDay (t : Z) : Z := t mod msPerDay.

(** Day number of the civil date [y]-[m]-[d] (months 1..12, any [d]). *)
Definition daysFromCivil (y m d : Z) : Z :=
  let y' := if m <=? 2 then y - 1 else y in
  let era := y' / 400 in
  let yoe := y' - era * 400 in
  let mp := if m >? 2 then m - 3 else m + 9 in
  let doy := (153 * mp + 2) / 5 + d - 1 in
  let doe := yoe * 365 + yoe / 4 - yoe / 100 + doy in
  era * 146097 + doe - 719468.

(** Civil date (year, month 1..12, day of month) of a day number. *)
Definition civilFromDays (z : Z) : Z * Z * Z :=
  let z' := z + 719468 in
  let era := z' / 146097 in
  let doe := z' - era * 146097 in
  let yoe := (doe - doe / 1460 + doe / 36524 - doe / 146096) / 365 in
  let doy := doe - (365 * yoe + yoe / 4 - yoe / 100) in
  let mp := (5 * doy + 2) / 153 in
  let d := doy - (153 * mp + 2) / 5 + 1 in
  let m := if mp <? 10 then mp + 3 else mp - 9 in
  ((if m <=? 2 then yoe + era * 400 + 1 else yoe + era * 400), m, d).

(** YearFromTime, MonthFromTime (months are numbered from 0, as in
    JavaScript) and DateFromTime. *)
Definition YearFromTime (t : Z) : Z := (civilFromDays (Day t)).1.1.
Definition MonthFromTime (t : Z) : Z := (civilFromDays (Day t)).1.2 - 1.
Definition DateFromTime (t : Z) : Z := (civilFromDays (Day t)).2.

Definition MakeDay (year month date : Z) : Z :=
  let ym := year + month / 12 in
  let mn := month mod 12 in
  daysFromCivil ym (mn + 1) 1 + date - 1.

Definition MakeDate (day time : Z) : Z := day * msPerDay + time.

(** The local time zone of the process that runs the server.
    [offsetAtUTC t] is LocalTZA(t, true), the offset of local time from UTC
    in milliseconds at the instant [t]; [offsetAtLocal t] is
    LocalTZA(t, false), the offset at the local time value [t]. *)
Record TimeZone := mkTimeZone {
  offsetAtUTC : Z → Z;
  offsetAtLocal : Z → Z
}.

Definition LocalTime (tz : TimeZone) (t : Z) : Z := t + offsetAtUTC tz t.
Definition UTC (tz : TimeZone) (t : Z) : Z := t - offsetAtLocal tz t.

(** The getters and setters of [Date.prototype] that the handlers call;
    all of them work on local time. *)
Definition getFullYear (tz : TimeZone) (t : Z) : Z :=
  YearFromTime (LocalTime tz t).
Definition getMonth (tz : TimeZone) (t : Z) : Z :=
  MonthFromTime (LocalTime tz t).
Definition getDate (tz : TimeZone) (t : Z) : Z :=
  DateFromTime (LocalTime tz t).

Definition setDate (tz : TimeZone) (t date : Z) : Z :=
  let t' := LocalTime tz t in
  UTC tz
    (MakeDate (MakeDay (YearFromTime t') (MonthFromTime t') date)
       (TimeWithinDay t')).

Definition setMonth (tz : TimeZone) (t month : Z) : Z :=
  let t' := LocalTime tz t in
  UTC tz
    (MakeDate (MakeDay (YearFromTime t') month (DateFromTime t'))
       (TimeWithinDay t')).

Definition setFullYear (tz : TimeZone) (t year : Z) : Z :=
  let t' := LocalTime tz t in
  UTC tz
    (MakeDate (MakeDay year (MonthFromTime t') (DateFromTime t'))
       (TimeWithinDay t')).

End JsDate.

(** ** Data model *)

(** The JSON body of POST /vitals, as the client declares it
    ([vitalsAPI.add] in src/utils/api.tsx). *)
Module Body.
Record t := mk {
  patientId : option string;
  heartRate : option Q;
  bloodPressure : option string;
  oxygenLevel : option Q;
  temperature : option Q;
  notes : option string
}.
End Body.

(** The object [vitalReading] that POST /vitals stores. *)
Module Vital.
Record t := mk {
  id : string;
  patientId : string;
  heartRate : option Q;
  bloodPressure : option string;
  oxygenLevel : option Q;
  temperature : option Q;
  notes : string;
  timestamp : Z;
  recordedBy : string
}.
End Vital.

(** An element of the array [alerts] of POST /vitals. *)
Module Draft.
Record t := mk {
  type : string;
  severity : string;
  value : Q;
  message : string
}.
End Draft.

(** The object stored for an alert, without its acknowledgement
    properties (see [Stored]). *)
Module Alert.
Record t := mk {
  id : string;
  patientId : string;
  vitalId : string;
  type : string;
  severity : string;
  value : Q;
  message : string;
  timestamp : Z
}.
End Alert.

(** A profile, with the properties the handlers below read. *)
Module Profile.
Record t := mk {
  id : string;
  email : string;
  name : string;
  role : string;
  createdAt : Z;
  updatedAt : Z;
  age : option Q;
  assignedDoctorId : option string
}.
End Profile.

Inductive Payload :=
| VitalReading (v : Vital.t)
| AlertRecord (a : Alert.t)
| ProfileRecord (p : Profile.t).

(** A stored object.  The three acknowledgement properties are kept beside
    the payload, each absent ([None]) until some handler writes it: the
    acknowledge handler spreads whatever object it finds under the key and
    adds them. *)
Record Stored := mkStored {
  payload : Payload;
  acknowledged : option bool;
  acknowledgedBy : option string;
  acknowledgedAt : option Z
}.

(** Property reads [o.timestamp], [o.heartRate], ... on a stored object;
    [None] when the object has no such property (or holds null there). *)
Definition field_timestamp (o : Stored) : option Z :=
  match payload o with
  | VitalReading v => Some (Vital.timestamp v)
  | AlertRecord a => Some (Alert.timestamp a)
  | ProfileRecord _ => None
  end.

Definition field_heartRate (o : Stored) : option Q :=
  match payload o with
  | VitalReading v => Vital.heartRate v
  | _ => None
  end.

Definition field_oxygenLevel (o : Stored) : option Q :=
  match payload o with
  | VitalReading v => Vital.oxygenLevel v
  | _ => None
  end.

Definition field_temperature (o : Stored) : option Q :=
  match payload o with
  | VitalReading v => Vital.temperature v
  | _ => None
  end.


Definition field_severity (o : Stored) : option string :=
  match payload o with
  | AlertRecord a => Some (Alert.severity a)
  | _ => None
  end.

Definition field_role (o : Stored) : option string :=
  match payload o with
  | ProfileRecord p => Some (Profile.role p)
  | _ => None
  end.

(** ** The key-value store *)

(** Modelled from the spec: the module kv_store.tsx that the server imports
    is not among the sources.  [get] fetches the exact key and signals a
    missing key by a value that is not a stored object, [set] upserts and
    fully overwrites, [getByPrefix] retrieves all values whose key starts
    with the prefix, in no particular order. *)
Definition kv_get (key : string) (kv : gmap string Stored) : option Stored :=
  kv !! key.

Definition kv_set (key : string) (value : Stored) (kv : gmap string Stored)
  : gmap string Stored :=
  <[key:=value]> kv.

Definition kv_getByPrefix (prefix : string) (kv : gmap string Stored)
  : list Stored :=
  snd <$> List.filter (λ entry, String.prefix prefix entry.1) (map_to_list kv).

(** ** Requests and responses *)

(** The result of [verifyUser]. *)
Inductive AuthResult :=
| AuthError (error : string) (status : Z)
| AuthUser (userId : string).

(** [verifyUser(authHeader)]; [getUser] stands for the call to the
    authentication service, which answers with a user id or fails. *)
Definition verifyUser (getUser : option string → option string)
    (authHeader : option string) : AuthResult :=
  match authHeader with
  | Some header =>
      if Js.truthyString authHeader then
        let accessToken := Js.split " "%char header !! 1%nat in
        match getUser accessToken with
        | Some userId => AuthUser userId
        | None => AuthError "Unauthorized" 401
        end
      else AuthError "No authorization header" 401
  | None => AuthError "No authorization header" 401
  end.

(** [c.json(body)] answers with status 200, [c.json({ error }, status)] with
    an error body. *)
Inductive Response (T : Type) :=
| Ok (body : T)
| Error (error : string) (status : Z).
Arguments Ok {T} body.
Arguments Error {T} error status.

Module VitalsResponse.
Record t := mk {
  vitalReading : Vital.t;
  alerts : option (list Draft.t)
}.
End VitalsResponse.

Module PatientStats.
Record t := mk {
  totalReadings : nat;
  normalReadings : nat;
  totalAlerts : nat;
  criticalAlerts : nat;
  warningAlerts : nat
}.
End PatientStats.

Module AggregateStats.
Record t := mk {
  totalPatients : nat;
  totalReadings : nat;
  totalAlerts : nat;
  criticalAlerts : nat;
  warningAlerts : nat;
  avgHeartRate : option Q;
  avgOxygenLevel : option Q
}.
End AggregateStats.

Module AnalyticsResponse.
Record t := mk {
  vitals : list Stored;
  alerts : list Stored;
  stats : PatientStats.t
}.
End AnalyticsResponse.

Module AggregateResponse.
Record t := mk {
  vitals : list Stored;
  alerts : list Stored;
  stats : AggregateStats.t;
  patients : list Stored
}.
End AggregateResponse.

(** ** The server (superbase/functions/server/index.tsx) *)

Section server.

(** Number::toString, used by the template literal of one alert message. *)
Variable numberToString : Q → string.

(** *** POST /vitals *)

(** The three checks of the block "Check for abnormal readings and create
    alerts"; each one either pushes one alert on [alerts] or leaves it. *)
Definition checkHeartRate (heartRate : option Q) (alerts : list Draft.t)
  : list Draft.t :=
  match heartRate with
  | Some hr =>
      if Js.truthyNumber hr && (Js.ltb hr 60 || Js.gtb hr 100) then
        alerts ++ [ {|
          Draft.type := "Heart Rate";
          Draft.severity :=
            if Js.ltb hr 40 || Js.gtb hr 120 then "critical" else "warning";
          Draft.value := hr;
          Draft.message :=
            "Heart rate " +:+ (if Js.ltb hr 60 then "below" else "above")
              +:+ " normal range" |} ]
      else alerts
  | None => alerts
  end.

Definition checkOxygenLevel (oxygenLevel : option Q) (alerts : list Draft.t)
  : list Draft.t :=
  match oxygenLevel with
  | Some o2 =>
      if Js.truthyNumber o2 && Js.ltb o2 95 then
        alerts ++ [ {|
          Draft.type := "Oxygen Level";
          Draft.severity := if Js.ltb o2 90 then "critical" else "warning";
          Draft.value := o2;
          Draft.message :=
            "Oxygen saturation below normal (" +:+ numberToString o2
              +:+ "%)" |} ]
      else alerts
  | None => alerts
  end.

Definition checkTemperature (temperature : option Q) (alerts : list Draft.t)
  : list Draft.t :=
  match temperature with
  | Some temp =>
      if Js.truthyNumber temp && (Js.ltb temp 36.1 || Js.gtb temp 37.2) then
        alerts ++ [ {|
          Draft.type := "Temperature";
          Draft.severity :=
            if Js.ltb temp 35 || Js.gtb temp 38.5 then "critical"
            else "warning";
          Draft.value := temp;
          Draft.message :=
            "Body temperature "
              +:+ (if Js.ltb temp 36.1 then "below" else "above")
              +:+ " normal range" |} ]
      else alerts
  | None => alerts
  end.

(** The array [alerts] once the three checks have run. *)
Definition deriveAlerts (body : Body.t) : list Draft.t :=
  let alerts := [] in
  let alerts := checkHeartRate (Body.heartRate body) alerts in
  let alerts := checkOxygenLevel (Body.oxygenLevel body) alerts in
  let alerts := checkTemperature (Body.temperature body) alerts in
  alerts.

(** The object literal [vitalReading]. *)
Definition makeVitalReading (vitalId patientId : string) (body : Body.t)
    (timestamp : Z) (userId : string) : Vital.t :=
  {| Vital.id := vitalId;
     Vital.patientId := patientId;
     Vital.heartRate := Js.orNull (Body.heartRate body);
     Vital.bloodPressure := Js.orNullString (Body.bloodPressure body);
     Vital.oxygenLevel := Js.orNull (Body.oxygenLevel body);
     Vital.temperature := Js.orNull (Body.temperature body);
     Vital.notes := Js.orString (Body.notes body) "";
     Vital.timestamp := timestamp;
     Vital.recordedBy := userId |}.

(** The object stored for one element of [alerts]. *)
Definition makeAlert (alertId patientId vitalId : string) (alert : Draft.t)
    (timestamp : Z) : Stored :=
  {| payload := AlertRecord {|
       Alert.id := alertId;
       Alert.patientId := patientId;
       Alert.vitalId := vitalId;
       Alert.type := Draft.type alert;
       Alert.severity := Draft.severity alert;
       Alert.value := Draft.value alert;
       Alert.message := Draft.message alert;
       Alert.timestamp := timestamp |};
     acknowledged := Some false;
     acknowledgedBy := None;
     acknowledgedAt := None |}.

Definition alertKey (patientId : string) (now : Z) (alert : Draft.t)
  : string :=
  "alert:" +:+ patientId +:+ ":" +:+ pretty now +:+ "-" +:+ Draft.type alert.

(** The loop "Store alerts"; [clock n] is what the [n]-th reading of the
    clock during the request returns. *)
Fixpoint storeAlerts (patientId vitalId : string) (timestamp : Z)
    (clock : nat → Z) (n : nat) (alerts : list Draft.t)
    (kv : gmap string Stored) : gmap string Stored :=
  match alerts with
  | [] => kv
  | alert :: rest =>
      let alertId := alertKey patientId (clock n) alert in
      storeAlerts patientId vitalId timestamp clock (S n) rest
        (kv_set alertId (makeAlert alertId patientId vitalId alert timestamp)
           kv)
  end.

Definition postVitals (auth : AuthResult) (clock : nat → Z) (body : Body.t)
    (kv : gmap string Stored)
  : Response VitalsResponse.t * gmap string Stored :=
  match auth with
  | AuthError error status => (Error error status, kv)
  | AuthUser userId =>
      if negb (Js.truthyString (Body.patientId body)) then
        (Error "Patient ID is required" 400, kv)
      else
        let patientId := default "" (Body.patientId body) in
        let timestamp := clock 0%nat in
        let vitalId :=
          "vitals:" +:+ patientId +:+ ":" +:+ pretty (clock 1%nat) in
        let vitalReading :=
          makeVitalReading vitalId patientId body timestamp userId in
        let kv :=
          kv_set vitalId (mkStored (VitalReading vitalReading) None None None)
            kv in
        let alerts := deriveAlerts body in
        let kv :=
          storeAlerts patientId vitalId timestamp clock 2 alerts kv in
        (Ok {| VitalsResponse.vitalReading := vitalReading;
               VitalsResponse.alerts :=
                 if (0 <? length alerts)%nat then Some alerts else None |},
         kv)
  end.

End server.

(** *** PUT /alerts/:alertId/acknowledge *)

(** The object literal [{ ...alert, acknowledged: true, acknowledgedBy,
    acknowledgedAt }]. *)
Definition acknowledgedCopy (alert : Stored) (userId : string) (now : Z)
  : Stored :=
  {| payload := payload alert;
     acknowledged := Some true;
     acknowledgedBy := Some userId;
     acknowledgedAt := Some now |}.

Definition acknowledgeAlert (auth : AuthResult) (clock : nat → Z)
    (alertId : string) (kv : gmap string Stored)
  : Response Stored * gmap string Stored :=
  match auth with
  | AuthError error status => (Error error status, kv)
  | AuthUser userId =>
      match kv_get alertId kv with
      | None => (Error "Alert not found" 404, kv)
      | Some alert =>
          let updatedAlert := acknowledgedCopy alert userId (clock 0%nat) in
          (Ok updatedAlert, kv_set alertId updatedAlert kv)
      end
  end.

(** *** GET /analytics/:patientId and GET /analytics/aggregate/all *)

(** The switch on [period]: [now] and [cutoffDate] are two [new Date()],
    [tz] is the local time zone of the server. *)
Definition cutoffFor (tz : JsDate.TimeZone) (period : string)
    (now cutoffDate : Z) : Z :=
  if String.eqb period "7days" then
    JsDate.setDate tz cutoffDate (JsDate.getDate tz now - 7)
  else if String.eqb period "30days" then
    JsDate.setDate tz cutoffDate (JsDate.getDate tz now - 30)
  else if String.eqb period "3months" then
    JsDate.setMonth tz cutoffDate (JsDate.getMonth tz now - 3)
  else if String.eqb period "1year" then
    JsDate.setFullYear tz cutoffDate (JsDate.getFullYear tz now - 1)
  else cutoffDate.

(** [new Date(o.timestamp) >= cutoffDate]; false without a timestamp. *)
Definition onOrAfter (cutoffDate : Z) (o : Stored) : bool :=
  match field_timestamp o with
  | Some t => (cutoffDate <=? t)%Z
  | None => false
  end.

Definition timeOf (o : Stored) : Z := default 0%Z (field_timestamp o).

Definition hrNormal (v : Stored) : bool :=
  match field_heartRate v with
  | Some hr => negb (Js.truthyNumber hr) || (Js.geb hr 60 && Js.leb hr 100)
  | None => true
  end.

Definition o2Normal (v : Stored) : bool :=
  match field_oxygenLevel v with
  | Some o2 => negb (Js.truthyNumber o2) || Js.geb o2 95
  | None => true
  end.

Definition tempNormal (v : Stored) : bool :=
  match field_temperature v with
  | Some temp =>
      negb (Js.truthyNumber temp) || (Js.geb temp 36.1 && Js.leb temp 37.2)
  | None => true
  end.

(** The callback of [normalReadings]. *)
Definition isNormalReading (v : Stored) : bool :=
  hrNormal v && o2Normal v && tempNormal v.

Definition hasSeverity (severity : string) (a : Stored) : bool :=
  match field_severity a with
  | Some s => String.eqb s severity
  | None => false
  end.

Definition patientStats (vitals alerts : list Stored) : PatientStats.t :=
  {| PatientStats.totalReadings := length vitals;
     PatientStats.normalReadings := length (List.filter isNormalReading vitals);
     PatientStats.totalAlerts := length alerts;
     PatientStats.criticalAlerts :=
       length (List.filter (hasSeverity "critical") alerts);
     PatientStats.warningAlerts :=
       length (List.filter (hasSeverity "warning") alerts) |}.

Definition getAnalytics (tz : JsDate.TimeZone) (auth : AuthResult)
    (clock : nat → Z) (patientId : string) (periodQuery : option string)
    (kv : gmap string Stored) : Response AnalyticsResponse.t :=
  match auth with
  | AuthError error status => Error error status
  | AuthUser _ =>
      let period := Js.orString periodQuery "7days" in
      let allVitals := kv_getByPrefix ("vitals:" +:+ patientId +:+ ":") kv in
      let allAlerts := kv_getByPrefix ("alert:" +:+ patientId +:+ ":") kv in
      let now := clock 0%nat in
      let cutoffDate := cutoffFor tz period now (clock 1%nat) in
      let vitals :=
        Js.sortBy timeOf (List.filter (onOrAfter cutoffDate) allVitals) in
      let alerts :=
        Js.sortBy timeOf (List.filter (onOrAfter cutoffDate) allAlerts) in
      Ok {| AnalyticsResponse.vitals := vitals;
            AnalyticsResponse.alerts := alerts;
            AnalyticsResponse.stats := patientStats vitals alerts |}
  end.

(** The average of one vital in the aggregate statistics; [field] reads the
    property off a reading.  The sum runs from left to right, and it and
    the quotient are binary64 numbers. *)
Definition average (field : Stored → option Q) (vitals : list Stored)
  : option Q :=
  let present := List.filter (λ v, Js.truthy (field v)) vitals in
  if (0 <? length present)%nat then
    Js.Math_round
      <$> Js.divide
            (fold_left (λ sum v, Js.add sum (Some (Js.toNumber (field v))))
               present (Some 0%Q))
            (Some (inject_Z (Z.of_nat (length present))))
  else Some 0%Q.

Definition isPatient (p : Stored) : bool :=
  match field_role p with
  | Some role => String.eqb role "patient"
  | None => false
  end.

Definition aggregateStats (patients vitals alerts : list Stored)
  : AggregateStats.t :=
  {| AggregateStats.totalPatients := length patients;
     AggregateStats.totalReadings := length vitals;
     AggregateStats.totalAlerts := length alerts;
     AggregateStats.criticalAlerts :=
       length (List.filter (hasSeverity "critical") alerts);
     AggregateStats.warningAlerts :=
       length (List.filter (hasSeverity "warning") alerts);
     AggregateStats.avgHeartRate := average field_heartRate vitals;
     AggregateStats.avgOxygenLevel := average field_oxygenLevel vitals |}.

Definition getAggregateAnalytics (tz : JsDate.TimeZone) (auth : AuthResult)
    (clock : nat → Z) (periodQuery : option string)
    (kv : gmap string Stored) : Response AggregateResponse.t :=
  match auth with
  | AuthError error status => Error error status
  | AuthUser _ =>
      let period := Js.orString periodQuery "7days" in
      let allVitals := kv_getByPrefix "vitals:" kv in
      let allAlerts := kv_getByPrefix "alert:" kv in
      let allPatients := kv_getByPrefix "profile:" kv in
      let patients := List.filter isPatient allPatients in
      let now := clock 0%nat in
      let cutoffDate := cutoffFor tz period now (clock 1%nat) in
      let vitals := List.filter (onOrAfter cutoffDate) allVitals in
      let alerts := List.filter (onOrAfter cutoffDate) allAlerts in
      Ok {| AggregateResponse.vitals := vitals;
            AggregateResponse.alerts := alerts;
            AggregateResponse.stats := aggregateStats patients vitals alerts;
            AggregateResponse.patients := patients |}
  end.

(** ** The dashboard (src/components/PatientDashboard.tsx) *)

(** The four calls of [getVitalStatus]: the type tag with the property of
    the latest reading that goes with it. *)
Inductive VitalArg :=
| heartRateArg (value : option Q)
| oxygenArg (value : option Q)
| temperatureArg (value : option Q)
| bloodPressureArg (value : option string).

(** [sys >= lo && sys <= hi] on a result of [parseInt]; NaN compares false. *)
Definition within (lo hi : Z) (n : option Z) : bool :=
  match n with
  | Some x => ((lo <=? x) && (x <=? hi))%Z
  | None => false
  end.

Definition getVitalStatus (arg : VitalArg) : string :=
  match arg with
  | heartRateArg value =>
      match value with
      | Some x =>
          if negb (Js.truthyNumber x) then "normal"
          else if Js.geb x 60 && Js.leb x 100 then "normal" else "abnormal"
      | None => "normal"
      end
  | oxygenArg value =>
      match value with
      | Some x =>
          if negb (Js.truthyNumber x) then "normal"
          else if Js.geb x 95 then "normal" else "abnormal"
      | None => "normal"
      end
  | temperatureArg value =>
      match value with
      | Some x =>
          if negb (Js.truthyNumber x) then "normal"
          else if Js.geb x 36.1 && Js.leb x 37.2 then "normal" else "abnormal"
      | None => "normal"
      end
  | bloodPressureArg value =>
      match value with
      | Some s =>
          if negb (Js.truthyString value) then "normal"
          else
            let parts := Js.parseInt <$> Js.split "/"%char s in
            let sys := mjoin (parts !! 0%nat) in
            let dia := mjoin (parts !! 1%nat) in
            if within 90 120 sys && within 60 80 dia then "normal"
            else "abnormal"
      | None => "normal"
      end
  end.

(** ** Vocabulary of the statements *)

(** The alerts of one type in an array of alerts. *)
Definition alertsOfType (type : string) (alerts : list Draft.t)
  : list Draft.t :=
  List.filter (λ a, String.eqb (Draft.type a) type) alerts.

(** Number::toString on the integers the examples use. *)
Definition showInteger (x : Q) : string := pretty (Qfloor x).

(** The vitals that POST /vitals checks.  Blood pressure is stored with the
    reading but no check of the server reads it. *)
Inductive CheckedVital := HeartRate | OxygenLevel | Temperature.

Definition alertType (vital : CheckedVital) : string :=
  match vital with
  | HeartRate => "Heart Rate"
  | OxygenLevel => "Oxygen Level"
  | Temperature => "Temperature"
  end.

(** The value a request body submits for a vital, the value the stored
    reading records for it, and the property read off a stored object. *)
Definition submitted (vital : CheckedVital) (body : Body.t) : option Q :=
  match vital with
  | HeartRate => Body.heartRate body
  | OxygenLevel => Body.oxygenLevel body
  | Temperature => Body.temperature body
  end.

Definition recorded (vital : CheckedVital) (reading : Vital.t) : option Q :=
  match vital with
  | HeartRate => Vital.heartRate reading
  | OxygenLevel => Vital.oxygenLevel reading
  | Temperature => Vital.temperature reading
  end.

Definition field (vital : CheckedVital) : Stored → option Q :=
  match vital with
  | HeartRate => field_heartRate
  | OxygenLevel => field_oxygenLevel
  | Temperature => field_temperature
  end.

(** The critical bound of each vital: the condition under which the
    severity expression of its check yields 'critical'. *)
Definition critical (vital : CheckedVital) (x : Q) : Prop :=
  match vital with
  | HeartRate => (x < 40 ∨ 120 < x)%Q
  | OxygenLevel => (x < 90)%Q
  | Temperature => (x < 35 ∨ 38.5 < x)%Q
  end.

(** The normal band of each vital. *)
Definition inBand (vital : CheckedVital) (x : Q) : Prop :=
  match vital with
  | HeartRate => (60 <= x ∧ x <= 100)%Q
  | OxygenLevel => (95 <= x)%Q
  | Temperature => (36.1 <= x ∧ x <= 37.2)%Q
  end.

(** The per-vital flag in the callback of [normalReadings]. *)
Definition normalFlag (vital : CheckedVital) : Stored → bool :=
  match vital with
  | HeartRate => hrNormal
  | OxygenLevel => o2Normal
  | Temperature => tempNormal
  end.

(** The argument with which the dashboard asks for the status of a vital. *)
Definition statusArg (vital : CheckedVital) (value : option Q) : VitalArg :=
  match vital with
  | HeartRate => heartRateArg value
  | OxygenLevel => oxygenArg value
  | Temperature => temperatureArg value
  end.




Definition withBloodPressure (bloodPressure : option string) (body : Body.t)
  : Body.t :=
  {| Body.patientId := Body.patientId body;
     Body.heartRate := Body.heartRate body;
     Body.bloodPressure := bloodPressure;
     Body.oxygenLevel := Body.oxygenLevel body;
     Body.temperature := Body.temperature body;
     Body.notes := Body.notes body |}.

(** A stored object is an alert when its payload is one. *)
Definition isAlert (o : Stored) : bool :=
  match payload o with
  | AlertRecord _ => true
  | _ => false
  end.

(** The values of the readings that have a property, their sum and their
    arithmetic mean. *)
Definition presentValues (read : Stored → option Q) (vitals : list Stored)
  : list Q :=
  omap read vitals.

Definition sumOf (xs : list Q) : Q := foldr Qplus 0%Q xs.

Definition meanOf (xs : list Q) : Q :=
  (sumOf xs / inject_Z (Z.of_nat (length xs)))%Q.

(** A property of a reading never holds 0: POST /vitals stores
    [value || null]. *)
Definition neverZero (read : Stored → option Q) (v : Stored) : Prop :=
  ∀ x, read v = Some x → ¬ (x == 0)%Q.

(** No reading of the store holds 0 for a vital. *)
Definition storeNeverZero (kv : gmap string Stored) : Prop :=
  map_Forall (λ _ o, ∀ vital, neverZero (field vital) o) kv.

(** [avg] is the mean of [xs] rounded to the nearest integer (the upper one
    on a tie), and 0 when [xs] is empty. *)
Definition roundedMean (avg : option Q) (xs : list Q) : Prop :=
  match xs with
  | [] => avg = Some 0%Q
  | _ :: _ =>
      ∃ n : Z, avg = Some (inject_Z n)
               ∧ (meanOf xs - (1 # 2) < inject_Z n)%Q
               ∧ (inject_Z n <= meanOf xs + (1 # 2))%Q
  end.

(** The values are positive whole numbers and their sum is below 2^52, as
    the heart rates and oxygen levels that the form of AddReading sends
    (it applies [parseInt]). *)
Definition wholeNumbers (xs : list Q) : Prop :=
  Forall (λ x, ∃ n : Z, (0 < n)%Z ∧ (x == inject_Z n)%Q) xs
  ∧ (sumOf xs < 2 ^ 52)%Q.

(** [x] is a binary64 value. *)
Definition isDouble (x : Q) : Prop := Js.roundToDouble x = Some x.

(** Time zones: UTC, and the zones whose offset from UTC never changes. *)
Definition utcZone : JsDate.TimeZone := JsDate.mkTimeZone (λ _, 0%Z) (λ _, 0%Z).

Definition fixedZone (offset : Z) : JsDate.TimeZone :=
  JsDate.mkTimeZone (λ _, offset) (λ _, offset).

Definition fixedOffset (tz : JsDate.TimeZone) (offset : Z) : Prop :=
  ∀ t, JsDate.offsetAtUTC tz t = offset ∧ JsDate.offsetAtLocal tz t = offset.

(** The period values the switch of the analytics handlers knows. *)
Definition knownPeriods : list string :=
  ["7days"; "30days"; "3months"; "1year"].

(** Stored objects for the examples: a reading of patient p1 and the
    profile of a patient. *)
Definition exampleReading (heartRate : option Q)
    (bloodPressure : option string) (timestamp : Z) : Stored :=
  {| payload := VitalReading {|
       Vital.id := "vitals:p1:" +:+ pretty timestamp;
       Vital.patientId := "p1";
       Vital.heartRate := heartRate;
       Vital.bloodPressure := bloodPressure;
       Vital.oxygenLevel := None;
       Vital.temperature := None;
       Vital.notes := "";
       Vital.timestamp := timestamp;
       Vital.recordedBy := "u1" |};
     acknowledged := None;
     acknowledgedBy := None;
     acknowledgedAt := None |}.

Definition exampleProfile : Stored :=
  {| payload := ProfileRecord {|
       Profile.id := "p1";
       Profile.email := "p1@example.org";
       Profile.name := "Pat";
       Profile.role := "patient";
       Profile.createdAt := 500;
       Profile.updatedAt := 500;
       Profile.age := None;
       Profile.assignedDoctorId := None |};
     acknowledged := None;
     acknowledgedBy := None;
     acknowledgedAt := None |}.

(** ** The rest of the server and its callers *)

(** [Array.prototype.slice(0, end)] and the descending sort. *)
Module JsArray.

(** [l.slice(0, end)]: a NaN end counts as 0, a negative end counts from the
    end of the array, and the result stops at the end of the array. *)
Definition slice0 {A : Type} (finish : option Z) (l : list A) : list A :=
  let len := Z.of_nat (length l) in
  let relativeEnd := default 0%Z finish in
  let final :=
    if (relativeEnd <? 0)%Z then Z.max (len + relativeEnd) 0
    else Z.min relativeEnd len in
  take (Z.to_nat final) l.

(** [Array.prototype.sort] with the comparator [(a, b) => key(b) - key(a)]:
    a stable sort, descending in [key]. *)
Definition sortDescBy {A : Type} (key : A → Z) (l : list A) : list A :=
  Js.sortBy (λ x, - key x)%Z l.

End JsArray.

(** The property [o.patientId] of a stored object. *)
Definition field_patientId (o : Stored) : option string :=
  match payload o with
  | VitalReading v => Some (Vital.patientId v)
  | AlertRecord a => Some (Alert.patientId a)
  | ProfileRecord _ => None
  end.

(** [new Date(p.createdAt).getTime()], for the objects that GET /patients
    sorts, which are profiles. *)
Definition createdAtOf (o : Stored) : Z :=
  match payload o with
  | ProfileRecord p => Profile.createdAt p
  | _ => 0%Z
  end.

(** *** GET /vitals/:patientId

    Readings under the patient's prefix, newest first, cut at [limit].  An
    object without a timestamp, for which the comparator is NaN, cannot be
    under that prefix in a store that the handlers filled (see
    [storeKinds]). *)
Definition getVitals (auth : AuthResult) (patientId : string)
    (limitQuery : option string) (kv : gmap string Stored)
  : Response (list Stored) :=
  match auth with
  | AuthError error status => Error error status
  | AuthUser _ =>
      let limit := Js.parseInt (Js.orString limitQuery "50") in
      let allVitals := kv_getByPrefix ("vitals:" +:+ patientId +:+ ":") kv in
      Ok (JsArray.slice0 limit (JsArray.sortDescBy timeOf allVitals))
  end.

(** *** GET /alerts/:patientId *)
Definition getAlerts (auth : AuthResult) (patientId : string)
    (kv : gmap string Stored) : Response (list Stored) :=
  match auth with
  | AuthError error status => Error error status
  | AuthUser _ =>
      let allAlerts := kv_getByPrefix ("alert:" +:+ patientId +:+ ":") kv in
      Ok (JsArray.sortDescBy timeOf allAlerts)
  end.

(** *** GET /patients *)
Definition getPatients (auth : AuthResult) (kv : gmap string Stored)
  : Response (list Stored) :=
  match auth with
  | AuthError error status => Error error status
  | AuthUser _ =>
      let allProfiles := kv_getByPrefix "profile:" kv in
      Ok (JsArray.sortDescBy createdAtOf (List.filter isPatient allProfiles))
  end.

(** *** The handler registered for GET /alerts/all

    The route is registered after /alerts/:patientId, which matches the
    same path, so that no request reaches this handler (see [dispatch]
    below); [getAllAlerts] is its body. *)

(** An alert with the patient properties that the handler attaches. *)
Module Enriched.
Record t := mk {
  alert : Stored;
  patientName : string;
  patientAge : option Q;
  patientEmail : option string
}.
End Enriched.

(** [p.id] of a profile. *)
Definition profileId (p : Stored) : string :=
  match payload p with
  | ProfileRecord profile => Profile.id profile
  | _ => ""
  end.

(** [new Map(patients.map(p => [p.id, p]))]: a later entry replaces an
    earlier one with the same id. *)
Definition patientMapOf (patientProfiles : list Stored) : gmap string Stored :=
  foldl (λ m p, <[profileId p := p]> m) ∅
    (List.filter isPatient patientProfiles).

(** [patientMap.get(alert.patientId)]. *)
Definition patientOf (patientMap : gmap string Stored) (alert : Stored)
  : option Profile.t :=
  match field_patientId alert with
  | Some patientId =>
      match patientMap !! patientId with
      | Some p =>
          match payload p with
          | ProfileRecord profile => Some profile
          | _ => None
          end
      | None => None
      end
  | None => None
  end.

Definition enrich (patientMap : gmap string Stored) (alert : Stored)
  : Enriched.t :=
  let patient := patientOf patientMap alert in
  {| Enriched.alert := alert;
     Enriched.patientName :=
       Js.orString (Profile.name <$> patient) "Unknown Patient";
     Enriched.patientAge := Js.orNull (patient ≫= Profile.age);
     Enriched.patientEmail := Js.orNullString (Profile.email <$> patient) |}.

Definition getAllAlerts (auth : AuthResult) (kv : gmap string Stored)
  : Response (list Enriched.t) :=
  match auth with
  | AuthError error status => Error error status
  | AuthUser _ =>
      let allAlerts := kv_getByPrefix "alert:" kv in
      let patientProfiles := kv_getByPrefix "profile:" kv in
      let patientMap := patientMapOf patientProfiles in
      let enrichedAlerts := enrich patientMap <$> allAlerts in
      Ok (JsArray.sortDescBy (λ e, timeOf (Enriched.alert e)) enrichedAlerts)
  end.

(** *** Routing

    The routes of the server in the order in which [app.get], [app.post]
    and [app.put] register them.  Hono runs the handlers whose method and
    path match the request in the order of registration, and every handler
    of the server answers without calling [next], so the first matching
    route answers; the two middlewares (logger and cors) pass every such
    request on.  A segment [:name] of a pattern matches any one segment
    that is not empty. *)
Inductive Method := GET | POST | PUT.

Inductive Segment :=
| Lit (s : string)
| Param.

Inductive Route :=
| HealthRoute
| SignupRoute
| GetProfileRoute
| PutProfileRoute
| PostVitalsRoute
| GetVitalsRoute
| GetAlertsRoute
| AcknowledgeRoute
| GetPatientsRoute
| AssignDoctorRoute
| GetAllAlertsRoute
| GetAnalyticsRoute
| GetAggregateAnalyticsRoute.

Definition routes : list (Method * list Segment * Route) :=
  [ (GET, [Lit "health"], HealthRoute);
    (POST, [Lit "signup"], SignupRoute);
    (GET, [Lit "profile"; Param], GetProfileRoute);
    (PUT, [Lit "profile"; Param], PutProfileRoute);
    (POST, [Lit "vitals"], PostVitalsRoute);
    (GET, [Lit "vitals"; Param], GetVitalsRoute);
    (GET, [Lit "alerts"; Param], GetAlertsRoute);
    (PUT, [Lit "alerts"; Param; Lit "acknowledge"], AcknowledgeRoute);
    (GET, [Lit "patients"], GetPatientsRoute);
    (PUT, [Lit "patients"; Param; Lit "assign-doctor"], AssignDoctorRoute);
    (GET, [Lit "alerts"; Lit "all"], GetAllAlertsRoute);
    (GET, [Lit "analytics"; Param], GetAnalyticsRoute);
    (GET, [Lit "analytics"; Lit "aggregate"; Lit "all"],
     GetAggregateAnalyticsRoute) ].

Definition Method_eqb (m m' : Method) : bool :=
  match m, m' with
  | GET, GET | POST, POST | PUT, PUT => true
  | _, _ => false
  end.

(** The values of the parameters when the path matches the pattern. *)
Fixpoint matchPath (pattern : list Segment) (path : list string)
  : option (list string) :=
  match pattern, path with
  | [], [] => Some []
  | Lit s :: pattern', x :: path' =>
      if String.eqb x s then matchPath pattern' path' else None
  | Param :: pattern', x :: path' =>
      if String.eqb x "" then None else cons x <$> matchPath pattern' path'
  | _, _ => None
  end.

Fixpoint firstMatch (rs : list (Method * list Segment * Route))
    (method : Method) (path : list string) : option (Route * list string) :=
  match rs with
  | [] => None
  | (m, pattern, route) :: rs' =>
      if Method_eqb m method then
        match matchPath pattern path with
        | Some params => Some (route, params)
        | None => firstMatch rs' method path
        end
      else firstMatch rs' method path
  end.

(** The route that answers a request, with the values of its parameters;
    [url] is the path of the request, without the query. *)
Definition dispatch (method : Method) (url : string)
  : option (Route * list string) :=
  match Js.split "/" url with
  | first :: prefix :: path =>
      if String.eqb first "" && String.eqb prefix "make-server-3d5bb2df"
      then firstMatch routes method path
      else None
  | _ => None
  end.

(** The answer to GET [url] when the route that answers lists alerts. *)
Inductive AlertsAnswer :=
| PatientAlerts (r : Response (list Stored))
| AllAlerts (r : Response (list Enriched.t)).

Definition getAlertsAt (auth : AuthResult) (url : string)
    (kv : gmap string Stored) : option AlertsAnswer :=
  match dispatch GET url with
  | Some (GetAlertsRoute, [patientId]) =>
      Some (PatientAlerts (getAlerts auth patientId kv))
  | Some (GetAllAlertsRoute, _) => Some (AllAlerts (getAllAlerts auth kv))
  | _ => None
  end.

(** *** The alerts page (components/Alerts.tsx) *)

(** [!a.acknowledged] and [a.acknowledged] as filter callbacks. *)
Definition isAcknowledged (a : Stored) : bool :=
  match acknowledged a with
  | Some b => b
  | None => false
  end.

Definition activeAlerts (alerts : list Stored) : list Stored :=
  List.filter (λ a, negb (isAcknowledged a)) alerts.

Definition resolvedAlerts (alerts : list Stored) : list Stored :=
  List.filter isAcknowledged alerts.

(** *** [getTimeAgo] of the dashboard *)
Definition getTimeAgo (now timestamp : Z) : string :=
  let diff := ((now - timestamp) / 1000)%Z in
  if (diff <? 60)%Z then "Just now"
  else if (diff <? 3600)%Z then pretty (diff / 60)%Z +:+ " minutes ago"
  else if (diff <? 86400)%Z then pretty (diff / 3600)%Z +:+ " hours ago"
  else pretty (diff / 86400)%Z +:+ " days ago".

(** *** GET /profile/:userId *)
Definition getProfile (auth : AuthResult) (userId : string)
    (kv : gmap string Stored) : Response Stored :=
  match auth with
  | AuthError error status => Error error status
  | AuthUser _ =>
      match kv_get ("profile:" +:+ userId) kv with
      | None => Error "Profile not found" 404
      | Some profile => Ok profile
      end
  end.

(** *** The heart-rate chart of the dashboard *)

(** A point of the chart. *)
Module Point.
Record t := mk {
  time : string;
  value : option Q
}.
End Point.

(** [getTimeAgo(v.timestamp)] on a stored object; without a timestamp the
    difference is NaN, every comparison fails and the last template is
    used.  [now] is the clock reading of that call. *)
Definition timeLabel (now : Z) (v : Stored) : string :=
  match field_timestamp v with
  | Some timestamp => getTimeAgo now timestamp
  | None => "NaN days ago"
  end.

(** [heartRateData]; [clock i] is the clock reading of the call of
    [getTimeAgo] for the point of index [i]. *)
Definition heartRateData (clock : nat → Z) (vitals : list Stored)
  : list Point.t :=
  imap
    (λ i v,
       {| Point.time :=
            if (Z.of_nat i =? Z.of_nat (length vitals) - 1)%Z then "Now"
            else timeLabel (clock i) v;
          Point.value := field_heartRate v |})
    (reverse
       (take 6 (List.filter (λ v, Js.truthy (field_heartRate v)) vitals))).

(** *** The form of AddReading *)

(** The constant [bloodPressure] of [handleSubmit]: the two fields joined
    by a slash, or undefined when one of them is empty. *)
Definition handleSubmit_bloodPressure (systolic diastolic : string)
  : option string :=
  if Js.truthyString (Some systolic) && Js.truthyString (Some diastolic)
  then Some (systolic +:+ "/" +:+ diastolic)
  else None.

(** ** Vocabulary of the further statements *)

(** What the handlers keep true of the store: under a key of readings there
    is a reading, under a key of alerts an alert whose severity is critical
    or warning, under a key of profiles a profile. *)
Definition kindMatches (key : string) (o : Stored) : Prop :=
  (String.prefix "vitals:" key = true → ∃ v, payload o = VitalReading v)
  ∧ (String.prefix "alert:" key = true →
     ∃ a, payload o = AlertRecord a
          ∧ (Alert.severity a = "critical" ∨ Alert.severity a = "warning"))
  ∧ (String.prefix "profile:" key = true → ∃ p, payload o = ProfileRecord p).

Definition storeKinds (kv : gmap string Stored) : Prop :=
  map_Forall kindMatches kv.

(** A list is in descending, or ascending, order of [key]. *)
Definition newestFirst {A : Type} (key : A → Z) (l : list A) : Prop :=
  Sorted (λ x y, (key y ≤ key x)%Z) l.

Definition oldestFirst {A : Type} (key : A → Z) (l : list A) : Prop :=
  Sorted (λ x y, (key x ≤ key y)%Z) l.

(** The character [c] does not occur in [s]. *)
Definition lacks (c : Ascii.ascii) (s : string) : Prop :=
  c ∉ String.list_ascii_of_string s.

(** The key and the stored object of the reading of an accepted
    POST /vitals, and the key prefixes of a patient. *)
Definition vitalKey (patientId : string) (now : Z) : string :=
  "vitals:" +:+ patientId +:+ ":" +:+ pretty now.

Definition storedReading (reading : Vital.t) : Stored :=
  mkStored (VitalReading reading) None None None.

Definition vitalsPrefix (patientId : string) : string :=
  "vitals:" +:+ patientId +:+ ":".

Definition alertsPrefix (patientId : string) : string :=
  "alert:" +:+ patientId +:+ ":".

(** A 400-year cycle of the calendar in days. *)
Definition daysPerCycle : Z := 146097.

(** [f] holds of the [n] integers from [z] on. *)
Fixpoint allFrom (n : nat) (f : Z → bool) (z : Z) : bool :=
  match n with
  | O => true
  | S n' => f z && allFrom n' f (z + 1)%Z
  end.

(** What is checked of each day number [z] of one cycle: its civil date
    maps back to it, month and day of the month are in range, and going
    three months, or one year, back with [MakeDay] lands 89 to 92, or 365
    to 366, days earlier. *)
Definition cycleDayOk (z : Z) : bool :=
  let '(y, m, d) := JsDate.civilFromDays z in
  let back3 := (z - JsDate.MakeDay y (m - 1 - 3) d)%Z in
  let back1 := (z - JsDate.MakeDay (y - 1) (m - 1) d)%Z in
  ((JsDate.daysFromCivil y m d =? z)
   && (1 <=? m) && (m <=? 12) && (1 <=? d) && (d <=? 31)
   && (89 <=? back3) && (back3 <=? 92)
   && (365 <=? back1) && (back1 <=? 366))%Z.

(** * Properties *)

(** ** The helpers on concrete values *)

Example parseInt_examples :
  Js.parseInt "120" = Some 120%Z ∧ Js.parseInt " -12ab" = Some (-12)%Z
  ∧ Js.parseInt "0x1F" = Some 31%Z ∧ Js.parseInt "abc" = None
  ∧ Js.parseInt "" = None.
Proof. by vm_compute. Qed.

Example split_examples :
  Js.split "/" "120/80" = ["120"; "80"] ∧ Js.split "/" "120" = ["120"]
  ∧ Js.split "/" "" = [""].
Proof. by vm_compute. Qed.

Example Math_round_examples :
  Js.Math_round (5 # 2) = 3%Q ∧ Js.Math_round (-5 # 2) = (-2)%Q
  ∧ Js.Math_round (7 # 3) = 2%Q.
Proof. by vm_compute. Qed.

(** The sort keeps the order of readings with equal keys. *)
Example sortBy_stable :
  Js.sortBy fst [(3, "a"); (1, "b"); (3, "c"); (2, "d"); (1, "e")]%Z
  = [(1, "b"); (1, "e"); (2, "d"); (3, "a"); (3, "c")]%Z.
Proof. by vm_compute. Qed.

(** 2024-05-31T12:00Z: a week earlier is 2024-05-24, three months earlier
    is "February 31", that is 2024-03-02.  2024-02-29T12:00Z: a year
    earlier is "2023-02-29", that is 2023-03-01. *)
Example cutoffFor_examples :
  cutoffFor utcZone "7days" 1717156800000 1717156800000 = 1716552000000%Z
  ∧ cutoffFor utcZone "3months" 1717156800000 1717156800000 = 1709380800000%Z
  ∧ cutoffFor utcZone "1year" 1709208000000 1709208000000 = 1677672000000%Z
  ∧ cutoffFor utcZone "30days" 1709294400000 1709294400000 = 1706702400000%Z
  ∧ cutoffFor utcZone "always" 1709294400000 1709294400000 = 1709294400000%Z.
Proof. by vm_compute. Qed.

Example getVitalStatus_examples :
  getVitalStatus (bloodPressureArg (Some "110/70")) = "normal"
  ∧ getVitalStatus (bloodPressureArg (Some "200/150")) = "abnormal"
  ∧ getVitalStatus (bloodPressureArg (Some "110")) = "abnormal"
  ∧ getVitalStatus (bloodPressureArg None) = "normal"
  ∧ getVitalStatus (heartRateArg (Some 0%Q)) = "normal"
  ∧ getVitalStatus (temperatureArg (Some 37.5%Q)) = "abnormal".
Proof. by vm_compute. Qed.

(** ** Comparisons and truthiness *)

Lemma ltb_reflect (x y : Q) : reflect (x < y)%Q (Js.ltb x y).
Proof.
  unfold Js.ltb. destruct (Qle_bool y x) eqn:E; constructor.
  - apply Qle_bool_iff in E. lra.
  - assert (Hn : ¬ (y <= x)%Q) by (rewrite <- Qle_bool_iff; congruence).
    by apply Qnot_le_lt.
Qed.

Lemma gtb_reflect (x y : Q) : reflect (y < x)%Q (Js.gtb x y).
Proof. apply (ltb_reflect y x). Qed.

Lemma leb_reflect (x y : Q) : reflect (x <= y)%Q (Js.leb x y).
Proof.
  unfold Js.leb. destruct (Qle_bool x y) eqn:E; constructor.
  - by apply Qle_bool_iff.
  - rewrite <- Qle_bool_iff. congruence.
Qed.

Lemma geb_reflect (x y : Q) : reflect (y <= x)%Q (Js.geb x y).
Proof. apply (leb_reflect y x). Qed.

Lemma truthyNumber_cases (x : Q) :
  ((x == 0)%Q ∧ Js.truthyNumber x = false)
  ∨ (¬ (x == 0)%Q ∧ Js.truthyNumber x = true).
Proof.
  unfold Js.truthyNumber. destruct (Qeq_bool x 0) eqn:E.
  - left. by apply Qeq_bool_iff in E.
  - right. split; [|done]. rewrite <- Qeq_bool_iff. congruence.
Qed.

(** Case analysis on every comparison and truthiness test in sight. *)
Ltac js_cases :=
  repeat match goal with
    | |- context [Js.ltb ?x ?y] => destruct (ltb_reflect x y)
    | |- context [Js.gtb ?x ?y] => destruct (gtb_reflect x y)
    | |- context [Js.leb ?x ?y] => destruct (leb_reflect x y)
    | |- context [Js.geb ?x ?y] => destruct (geb_reflect x y)
    | |- context [Js.truthyNumber ?x] =>
        destruct (truthyNumber_cases x) as [[? ->]|[? ->]]
    end;
  simpl in *.

Ltac js_solve := js_cases; try done; try (exfalso; lra).

(** ** The alert derivation block *)

Section derivation.
Variable numberToString : Q → string.

(** Each check only ever pushes at the end of [alerts]. *)
Lemma checkHeartRate_push v alerts :
  checkHeartRate v alerts = alerts ++ checkHeartRate v [].
Proof.
  unfold checkHeartRate. destruct v as [hr|]; [|by rewrite app_nil_r].
  destruct (_ && _); [done | by rewrite app_nil_r].
Qed.

Lemma checkOxygenLevel_push v alerts :
  checkOxygenLevel numberToString v alerts = alerts ++ checkOxygenLevel numberToString v [].
Proof.
  unfold checkOxygenLevel.
  destruct v as [o2|]; [|by rewrite app_nil_r].
  destruct (_ && _); [done | by rewrite app_nil_r].
Qed.

Lemma checkTemperature_push v alerts :
  checkTemperature v alerts = alerts ++ checkTemperature v [].
Proof.
  unfold checkTemperature. destruct v as [t|]; [|by rewrite app_nil_r].
  destruct (_ && _); [done | by rewrite app_nil_r].
Qed.

Lemma deriveAlerts_split body :
  deriveAlerts numberToString body =
    checkHeartRate (Body.heartRate body) []
      ++ checkOxygenLevel numberToString (Body.oxygenLevel body) []
      ++ checkTemperature (Body.temperature body) [].
Proof.
  unfold deriveAlerts.
  rewrite checkTemperature_push, checkOxygenLevel_push.
  by rewrite <- app_assoc.
Qed.

(** Every alert of a check carries that check's type. *)
Lemma checkHeartRate_type v a :
  a ∈ checkHeartRate v [] → Draft.type a = "Heart Rate".
Proof.
  unfold checkHeartRate. destruct v as [hr|]; [|by intros ?%elem_of_nil].
  destruct (_ && _); [|by intros ?%elem_of_nil].
  by intros ->%list_elem_of_singleton.
Qed.

Lemma checkOxygenLevel_type v a :
  a ∈ checkOxygenLevel numberToString v [] → Draft.type a = "Oxygen Level".
Proof.
  unfold checkOxygenLevel.
  destruct v as [o2|]; [|by intros ?%elem_of_nil].
  destruct (_ && _); [|by intros ?%elem_of_nil].
  by intros ->%list_elem_of_singleton.
Qed.

Lemma checkTemperature_type v a :
  a ∈ checkTemperature v [] → Draft.type a = "Temperature".
Proof.
  unfold checkTemperature. destruct v as [t|]; [|by intros ?%elem_of_nil].
  destruct (_ && _); [|by intros ?%elem_of_nil].
  by intros ->%list_elem_of_singleton.
Qed.

Lemma alertsOfType_all type alerts :
  (∀ a, a ∈ alerts → Draft.type a = type) →
  alertsOfType type alerts = alerts.
Proof.
  induction alerts as [|a alerts IH]; intros H; [done|]. simpl.
  rewrite (H a) by left. rewrite String.eqb_refl. f_equal.
  apply IH. intros b Hb. apply H. by right.
Qed.

Lemma alertsOfType_none type type' alerts :
  (∀ a, a ∈ alerts → Draft.type a = type') →
  type' ≠ type →
  alertsOfType type alerts = [].
Proof.
  intros H Hne. induction alerts as [|a alerts IH]; [done|]. simpl.
  rewrite (H a) by left.
  destruct (String.eqb_spec type' type) as [->|_]; [done|].
  apply IH. intros b Hb. apply H. by right.
Qed.

Lemma alertsOfType_app type l1 l2 :
  alertsOfType type (l1 ++ l2) = alertsOfType type l1 ++ alertsOfType type l2.
Proof. apply List.filter_app. Qed.

(** The alerts of each type are those its own check pushed. *)
Lemma heartRate_alerts body :
  alertsOfType "Heart Rate" (deriveAlerts numberToString body) =
    checkHeartRate (Body.heartRate body) [].
Proof.
  rewrite deriveAlerts_split, !alertsOfType_app.
  rewrite (alertsOfType_all _ _ (checkHeartRate_type _)).
  rewrite (alertsOfType_none _ _ _ (λ a, checkOxygenLevel_type _ a)) by done.
  rewrite (alertsOfType_none _ _ _ (λ a, checkTemperature_type _ a)) by done.
  by rewrite ?app_nil_r.
Qed.

Lemma oxygenLevel_alerts body :
  alertsOfType "Oxygen Level" (deriveAlerts numberToString body) =
    checkOxygenLevel numberToString (Body.oxygenLevel body) [].
Proof.
  rewrite deriveAlerts_split, !alertsOfType_app.
  rewrite (alertsOfType_all _ _ (checkOxygenLevel_type _)).
  rewrite (alertsOfType_none _ _ _ (λ a, checkHeartRate_type _ a)) by done.
  rewrite (alertsOfType_none _ _ _ (λ a, checkTemperature_type _ a)) by done.
  by rewrite ?app_nil_r.
Qed.

Lemma temperature_alerts body :
  alertsOfType "Temperature" (deriveAlerts numberToString body) =
    checkTemperature (Body.temperature body) [].
Proof.
  rewrite deriveAlerts_split, !alertsOfType_app.
  rewrite (alertsOfType_all _ _ (checkTemperature_type _)).
  rewrite (alertsOfType_none _ _ _ (λ a, checkHeartRate_type _ a)) by done.
  rewrite (alertsOfType_none _ _ _ (λ a, checkOxygenLevel_type _ a)) by done.
  by rewrite ?app_nil_r.
Qed.

(** No alert carries another type than these three. *)
Lemma deriveAlerts_types body a :
  a ∈ deriveAlerts numberToString body →
  Draft.type a = "Heart Rate" ∨ Draft.type a = "Oxygen Level"
    ∨ Draft.type a = "Temperature".
Proof.
  rewrite deriveAlerts_split, !elem_of_app.
  intros [H|[H|H]];
    eauto using checkHeartRate_type, checkOxygenLevel_type,
      checkTemperature_type.
Qed.

End derivation.

(** ** Heart rate *)

(** C1, as the code has it: a reading whose heart rate is present and
    within 60..100 gets no Heart Rate alert; a heart rate of 45 gets exactly
    one Heart Rate alert, of severity warning (45 is below 60 but not below
    40, the bound of critical); a heart rate of 105 gets exactly one Heart
    Rate alert, of severity warning. *)
Theorem heartRate_alert_by_value (numberToString : Q → string)
    (body : Body.t) (hr : Q) :
  Body.heartRate body = Some hr →
  let created := alertsOfType "Heart Rate" (deriveAlerts numberToString body) in
  ((60 <= hr ∧ hr <= 100)%Q → created = []) ∧
  ((hr == 45)%Q →
     ∃ a, created = [a] ∧ Draft.severity a = "warning" ∧ Draft.value a = hr) ∧
  ((hr == 105)%Q →
     ∃ a, created = [a] ∧ Draft.severity a = "warning" ∧ Draft.value a = hr).
Proof.
  intros Hhr created. subst created.
  rewrite heartRate_alerts, Hhr. unfold checkHeartRate.
  split; [|split].
  - intros [Hlo Hhi]. by js_solve.
  - intros H45. js_solve; eexists; (split; [reflexivity|]); by js_solve.
  - intros H105. js_solve; eexists; (split; [reflexivity|]); by js_solve.
Qed.

Lemma heartRate_alert_by_value_witness :
  ∃ a, alertsOfType "Heart Rate"
         (deriveAlerts showInteger
            (Body.mk (Some "p1") (Some 45%Q) None None None None)) = [a]
       ∧ Draft.severity a = "warning" ∧ Draft.value a = 45%Q.
Proof.
  exact (proj1 (proj2 (heartRate_alert_by_value showInteger
           (Body.mk (Some "p1") (Some 45%Q) None None None None) 45%Q
           eq_refl)) (Qeq_refl 45)).
Defined.

(** C1 as it was worded fails at 45: the one Heart Rate alert of that
    reading is not critical. *)
Lemma heartRate_45_not_critical :
  ¬ ∃ a, alertsOfType "Heart Rate"
           (deriveAlerts showInteger
              (Body.mk (Some "p1") (Some 45%Q) None None None None)) = [a]
         ∧ Draft.severity a = "critical".
Proof.
  intros (a & Ha & Hs). vm_compute in Ha. injection Ha as <-. discriminate.
Qed.

(** ** The three checks, vital by vital *)

(** What the check of a vital pushes: nothing when the submitted number is
    0 or within band, and otherwise one alert, valued with that number, whose
    severity follows the critical bound. *)
Lemma alerts_of_vital (numberToString : Q → string) (body : Body.t)
    (vital : CheckedVital) :
  let created :=
    alertsOfType (alertType vital) (deriveAlerts numberToString body) in
  match submitted vital body with
  | Some x =>
      (((x == 0)%Q ∨ inBand vital x) ∧ created = [])
      ∨ (¬ (x == 0)%Q ∧ ¬ inBand vital x ∧
         ∃ a, created = [a] ∧ Draft.value a = x
              ∧ (critical vital x → Draft.severity a = "critical")
              ∧ (¬ critical vital x → Draft.severity a = "warning"))
  | None => created = []
  end.
Proof.
  destruct vital; simpl;
    [ rewrite heartRate_alerts; unfold checkHeartRate
    | rewrite oxygenLevel_alerts; unfold checkOxygenLevel
    | rewrite temperature_alerts; unfold checkTemperature ];
    (match goal with |- context [match ?v with _ => _ end] =>
       destruct v as [x|]; [|done] end);
    js_cases;
    first [ left; split; [ first [by left | right; lra] | done ]
          | right; split; [done|]; split; [lra|];
            eexists; split; [done|]; split; [done|];
            split; intros; first [ done | exfalso; intuition lra ] ].
Qed.


(** ** Blood pressure *)

(** C2, as the code has it: ingestion creates no Blood Pressure alert of
    any severity.  Every alert it creates is a Heart Rate, an Oxygen Level
    or a Temperature alert, and the alerts of a reading do not depend on its
    bloodPressure. *)
Theorem bloodPressure_creates_no_alert (numberToString : Q → string)
    (body : Body.t) :
  (∀ a, a ∈ deriveAlerts numberToString body →
        ∃ vital, Draft.type a = alertType vital)
  ∧ (∀ bloodPressure,
       deriveAlerts numberToString (withBloodPressure bloodPressure body)
         = deriveAlerts numberToString body).
Proof.
  split; [|done].
  intros a [H|[H|H]]%deriveAlerts_types;
    [by exists HeartRate | by exists OxygenLevel | by exists Temperature].
Qed.

(** C2 as it was worded fails for a blood pressure of 200/150, which the
    dashboard calls abnormal: no alert is created and the request stores
    the reading alone. *)
Lemma abnormal_bloodPressure_no_alert :
  getVitalStatus (bloodPressureArg (Some "200/150")) = "abnormal"
  ∧ deriveAlerts showInteger
      (Body.mk (Some "p1") None (Some "200/150") None None None) = []
  ∧ size (postVitals showInteger (AuthUser "u1") (λ _, 1000%Z)
            (Body.mk (Some "p1") None (Some "200/150") None None None) ∅).2
    = 1%nat.
Proof. by vm_compute. Qed.

(** ** Severity *)

(** C6, as the code has it: when the value submitted for a vital is not 0
    and satisfies the critical bound of that vital, ingestion creates
    exactly one alert for the vital; its severity is critical, so no warning
    alert comes with it.  A temperature of 39 is such a value: it gets
    exactly one alert, of severity critical. *)
Theorem critical_value_one_critical_alert (numberToString : Q → string)
    (body : Body.t) (vital : CheckedVital) (x : Q) :
  submitted vital body = Some x →
  ¬ (x == 0)%Q →
  critical vital x →
  ∃ a, alertsOfType (alertType vital) (deriveAlerts numberToString body) = [a]
       ∧ Draft.severity a = "critical" ∧ Draft.value a = x.
Proof.
  intros Hx Hnz Hcrit.
  pose proof (alerts_of_vital numberToString body vital) as H.
  simpl in H. rewrite Hx in H.
  destruct H as [[[Hz|Hband] _]|(_ & _ & a & Ha & Hv & Hs & _)].
  - done.
  - exfalso. destruct vital; simpl in *; intuition lra.
  - exists a. auto.
Qed.

Lemma critical_value_one_critical_alert_witness :
  ∃ a, alertsOfType "Temperature"
         (deriveAlerts showInteger
            (Body.mk (Some "p1") None None None (Some 39%Q) None)) = [a]
       ∧ Draft.severity a = "critical" ∧ Draft.value a = 39%Q.
Proof.
  apply (critical_value_one_critical_alert showInteger
           (Body.mk (Some "p1") None None None (Some 39%Q) None)
           Temperature 39%Q eq_refl).
  - intros H. discriminate H.
  - right. reflexivity.
Defined.

(** C6 as it was worded fails at 0: a heart rate of 0 is below the critical
    bound of 40 and no Heart Rate alert is created. *)
Lemma critical_zero_heartRate_no_alert :
  submitted HeartRate (Body.mk (Some "p1") (Some 0%Q) None None None None)
    = Some 0%Q
  ∧ critical HeartRate 0
  ∧ alertsOfType (alertType HeartRate)
      (deriveAlerts showInteger
         (Body.mk (Some "p1") (Some 0%Q) None None None None)) = [].
Proof. split; [done|]. split; [by left|done]. Qed.

(** ** One alert per abnormal vital *)


Lemma deriveAlerts_by_type (numberToString : Q → string) (body : Body.t) :
  deriveAlerts numberToString body =
    alertsOfType (alertType HeartRate) (deriveAlerts numberToString body)
      ++ alertsOfType (alertType OxygenLevel)
           (deriveAlerts numberToString body)
      ++ alertsOfType (alertType Temperature)
           (deriveAlerts numberToString body).
Proof.
  simpl. rewrite heartRate_alerts, oxygenLevel_alerts, temperature_alerts.
  apply deriveAlerts_split.
Qed.




(** ** Zero *)





(** ** Statistics of the per-patient analytics *)

Lemma normalFlag_spec (vital : CheckedVital) (v : Stored) :
  normalFlag vital v = true ↔
  ∀ x, field vital v = Some x → (x == 0)%Q ∨ inBand vital x.
Proof.
  destruct vital; cbn [normalFlag field inBand];
    unfold hrNormal, o2Normal, tempNormal;
    (match goal with |- context [match ?f with _ => _ end] =>
       destruct f as [y|] end; [|by split]);
    js_cases;
    (split; [ intros Hflag x [= <-]; first [done | by left | right; lra]
            | intros Hall;
              first [done | destruct (Hall y eq_refl); [done | exfalso; lra]] ]).
Qed.


(** Ingestion never stores 0 for a vital. *)
Lemma makeVitalReading_neverZero (vital : CheckedVital)
    (vitalId patientId : string) (body : Body.t) (timestamp : Z)
    (userId : string) :
  neverZero (field vital)
    (mkStored
       (VitalReading (makeVitalReading vitalId patientId body timestamp userId))
       None None None).
Proof.
  intros x. destruct vital; cbn; unfold Js.orNull;
    (match goal with |- context [Js.truthy ?f] => destruct f as [y|] end;
     [|done]); cbn [Js.truthy];
    destruct (truthyNumber_cases y) as [[? ->]|[? ->]]; by intros [= <-].
Qed.



(** ** Binary64 *)

Section binary64.
Local Open Scope Q_scope.

Lemma Qfloor_unique (x : Q) (k : Z) :
  inject_Z k <= x → x < inject_Z (k + 1) → Qfloor x = k.
Proof.
  intros Hle Hlt. apply Z.le_antisymm.
  - apply Z.lt_succ_r. rewrite Zlt_Qlt.
    eapply Qle_lt_trans; [apply Qfloor_le | exact Hlt].
  - rewrite <- (Qfloor_Z k). by apply Qfloor_resp_le.
Qed.

Lemma roundHalfEven_comp (x y : Q) :
  x == y → Js.roundHalfEven x = Js.roundHalfEven y.
Proof.
  intros H. unfold Js.roundHalfEven.
  rewrite (Qfloor_comp x y H).
  assert (Hc : (x - inject_Z (Qfloor y) ?= 1 # 2)
               = (y - inject_Z (Qfloor y) ?= 1 # 2)) by by rewrite H.
  by rewrite Hc.
Qed.

Lemma roundHalfEven_floor (x : Q) :
  (Qfloor x <= Js.roundHalfEven x <= Qfloor x + 1)%Z.
Proof.
  unfold Js.roundHalfEven. destruct (_ ?= _); [destruct (Z.even _)|..]; lia.
Qed.

Lemma roundHalfEven_ge (A : Z) (x : Q) :
  inject_Z A <= x → (A <= Js.roundHalfEven x)%Z.
Proof.
  intros H. pose proof (roundHalfEven_floor x) as [Hf _].
  apply Qfloor_resp_le in H. rewrite Qfloor_Z in H. lia.
Qed.

Lemma roundHalfEven_lt (B : Z) (x : Q) :
  x < inject_Z B - (1 # 2) → (Js.roundHalfEven x <= B - 1)%Z.
Proof.
  intros H.
  assert (Hfl : (Qfloor x <= B - 1)%Z).
  { apply Z.lt_succ_r. rewrite Zlt_Qlt.
    eapply Qle_lt_trans; [apply Qfloor_le|].
    replace (Z.succ (B - 1)%Z) with B by lia. lra. }
  destruct (Z.eq_dec (Qfloor x) (B - 1)%Z) as [Heq|Hne].
  - unfold Js.roundHalfEven. rewrite Heq.
    assert (Hlt : (x - inject_Z (B - 1) ?= 1 # 2) = Lt).
    { apply (proj1 (Qlt_alt _ _)). unfold Z.sub. rewrite inject_Z_plus.
      change (inject_Z (- (1))) with (- (1)). lra. }
    rewrite Hlt. lia.
  - pose proof (roundHalfEven_floor x). lia.
Qed.

Lemma roundHalfEven_Z (z : Z) (x : Q) :
  x == inject_Z z → Js.roundHalfEven x = z.
Proof.
  intros H. rewrite (roundHalfEven_comp _ _ H). unfold Js.roundHalfEven.
  rewrite Qfloor_Z.
  assert (Hlt : (inject_Z z - inject_Z z ?= 1 # 2) = Lt)
    by (apply (proj1 (Qlt_alt _ _)); lra).
  by rewrite Hlt.
Qed.

Lemma pow2_pos (e : Z) : 0 < 2 ^ e.
Proof. by apply Qpower_0_lt. Qed.

Lemma pow2_add (a b : Z) : 2 ^ (a + b) == 2 ^ a * 2 ^ b.
Proof. by apply Qpower_plus. Qed.

Lemma pow2_le (a b : Z) : (a <= b)%Z → 2 ^ a <= 2 ^ b.
Proof. intros H. by apply Qpower_le_compat_l. Qed.

Lemma pow2_lt_inv (a b : Z) : 2 ^ a < 2 ^ b → (a < b)%Z.
Proof. intros H. by apply (Qpower_lt_compat_l_inv 2). Qed.

Lemma pow2_Z (n : Z) : (0 <= n)%Z → 2 ^ n == inject_Z (2 ^ n).
Proof. intros H. by rewrite (Zpower_Qpower 2 n H). Qed.

(** A power of two with a negative exponent is the inverse of a whole
    number. *)
Lemma pow2_inv (e : Z) : (e <= 0)%Z → 2 ^ e * inject_Z (2 ^ (- e)) == 1.
Proof.
  intros H. rewrite <- pow2_Z by lia. rewrite <- pow2_add.
  by replace (e + - e)%Z with 0%Z by lia.
Qed.

Lemma ilog2_le (x : Q) : 0 < x → 2 ^ Js.ilog2 x <= x.
Proof.
  intros Hx. unfold Js.ilog2.
  destruct (Qle_bool _ x) eqn:E; [by apply Qle_bool_iff|].
  destruct x as [a b]. cbn [Qnum Qden].
  assert (Ha : (0 < a)%Z).
  { unfold Qlt in Hx. cbn in Hx. lia. }
  destruct (Z.log2_spec a Ha) as [Hla _].
  destruct (Z.log2_spec (Z.pos b) (Pos2Z.is_pos b)) as [_ Hlb].
  set (la := Z.log2 a) in *. set (lb := Z.log2 (Z.pos b)) in *.
  assert (H0a : (0 <= la)%Z) by apply Z.log2_nonneg.
  assert (H0b : (0 <= lb)%Z) by apply Z.log2_nonneg.
  replace (la - lb - 1)%Z with (la + - (lb + 1))%Z by lia.
  rewrite pow2_add, Qpower_opp, (pow2_Z la), (pow2_Z (lb + 1)) by lia.
  rewrite (Qmake_Qdiv a b). unfold Qdiv.
  assert (HB : 0 < inject_Z (2 ^ (lb + 1))).
  { rewrite <- pow2_Z by lia. apply pow2_pos. }
  assert (Hb : 0 < inject_Z (Z.pos b)) by reflexivity.
  apply Qle_shift_div_l; [exact Hb|].
  assert (Heq : inject_Z (2 ^ la) * / inject_Z (2 ^ (lb + 1))
                * inject_Z (Z.pos b)
                == inject_Z (2 ^ la) * inject_Z (Z.pos b)
                   / inject_Z (2 ^ (lb + 1)))
    by (unfold Qdiv; ring).
  rewrite Heq.
  apply Qle_shift_div_r; [exact HB|].
  rewrite <- !inject_Z_mult, <- Zle_Qle.
  replace (Z.succ lb) with (lb + 1)%Z in Hlb by lia.
  assert (Hp : (0 < 2 ^ la)%Z) by (apply Z.pow_pos_nonneg; lia).
  nia.
Qed.

End binary64.

Section binary64_rounding.
Local Open Scope Q_scope.

Lemma Qdiv_by_inverse (a p u : Q) : p * u == 1 → a / p == a * u.
Proof.
  intros H.
  assert (Hp : ¬ p == 0).
  { intros Hp. rewrite Hp, Qmult_0_l in H. discriminate H. }
  rewrite <- (Qmult_1_r (a / p)), <- H. field. exact Hp.
Qed.

Lemma inject_Z_pos (k : Z) : (0 < k)%Z → 0 < inject_Z k.
Proof. intros H. unfold Qlt. cbn. lia. Qed.

Lemma Qred_inject_Z (k : Z) : Qred (inject_Z k) = inject_Z k.
Proof.
  unfold Qred, inject_Z.
  pose proof (Z.ggcd_gcd k 1) as Hg.
  pose proof (Z.ggcd_correct_divisors k 1) as Hd.
  destruct (Z.ggcd k 1) as [g [aa bb]]. cbn in Hg, Hd.
  rewrite Z.gcd_1_r in Hg. subst g. destruct Hd as [-> Hb].
  assert (bb = 1%Z) by lia. subst bb. f_equal. lia.
Qed.

(** Rounding a positive number that does not overflow. *)
Lemma roundToDouble_pos (x : Q) :
  0 < x →
  let quantum := 2 ^ Z.max (Js.ilog2 (Qabs x) - 52) (-1074) in
  let y := inject_Z (Js.roundHalfEven (Qabs x / quantum)) * quantum in
  y < 2 ^ 1024 → Js.roundToDouble x = Some (Qred y).
Proof.
  intros Hx quantum y Hy. unfold Js.roundToDouble.
  fold quantum. fold y.
  destruct (Qeq_bool x 0) eqn:E0.
  { apply Qeq_bool_iff in E0. rewrite E0 in Hx. discriminate Hx. }
  destruct (Qle_bool (2 ^ 1024) y) eqn:Ebig.
  { apply Qle_bool_iff in Ebig. exfalso.
    exact (Qlt_irrefl _ (Qlt_le_trans _ _ _ Hy Ebig)). }
  destruct (Qle_bool 0 x) eqn:Epos; [done|].
  exfalso. apply Qlt_le_weak, Qle_bool_iff in Hx. congruence.
Qed.

(** A whole number below 2^53 is a binary64 value. *)
Lemma roundToDouble_int (q : Q) (k : Z) :
  q == inject_Z k → (0 < k < 2 ^ 53)%Z →
  Js.roundToDouble q = Some (inject_Z k).
Proof.
  intros Hq [Hk0 Hk].
  assert (Hpos : 0 < q) by (rewrite Hq; by apply inject_Z_pos).
  assert (Habs : Qabs q == inject_Z k)
    by (rewrite Qabs_pos; [done | by apply Qlt_le_weak]).
  set (e := Js.ilog2 (Qabs q)).
  assert (He : (e < 53)%Z).
  { apply pow2_lt_inv. eapply Qle_lt_trans.
    - apply ilog2_le. rewrite Habs. by apply inject_Z_pos.
    - rewrite Habs, (pow2_Z 53) by lia. by rewrite <- Zlt_Qlt. }
  set (qe := Z.max (e - 52) (-1074)).
  assert (Hqe : (qe <= 0)%Z) by lia.
  set (u := (2 ^ (- qe))%Z).
  pose proof (pow2_inv qe Hqe) as Hinv. fold u in Hinv.
  assert (HM : Js.roundHalfEven (Qabs q / 2 ^ qe) = (k * u)%Z).
  { apply roundHalfEven_Z.
    rewrite (Qdiv_by_inverse _ _ _ Hinv), Habs. by rewrite inject_Z_mult. }
  assert (Hy : inject_Z (Js.roundHalfEven (Qabs q / 2 ^ qe)) * 2 ^ qe
               == inject_Z k).
  { rewrite HM, inject_Z_mult, <- Qmult_assoc, (Qmult_comm (inject_Z u)).
    rewrite Hinv. apply Qmult_1_r. }
  rewrite roundToDouble_pos; [|done|].
  - fold e. fold qe. rewrite (Qred_complete _ _ Hy). by rewrite Qred_inject_Z.
  - fold e. fold qe. rewrite Hy. eapply Qlt_le_trans.
    + rewrite Zlt_Qlt in Hk. exact Hk.
    + rewrite <- pow2_Z by lia. by apply pow2_le.
Qed.

End binary64_rounding.

Section binary64_mean.
Local Open Scope Q_scope.

(** An inequality between integers, read in [Q]. *)
Local Ltac to_Q H :=
  first [rewrite Zlt_Qlt in H | rewrite Zle_Qle in H];
  unfold Z.sub in H;
  rewrite ?inject_Z_plus, ?inject_Z_mult, ?inject_Z_opp,
    ?inject_Z_plus, ?inject_Z_mult, ?inject_Z_opp,
    ?inject_Z_plus, ?inject_Z_mult in H;
  change (inject_Z 2) with 2 in H; change (inject_Z 1) with 1 in H.

Local Ltac goal_to_Q :=
  unfold Z.sub;
  rewrite ?inject_Z_plus, ?inject_Z_mult, ?inject_Z_opp,
    ?inject_Z_plus, ?inject_Z_mult, ?inject_Z_opp,
    ?inject_Z_plus, ?inject_Z_mult;
  change (inject_Z 2) with 2; change (inject_Z 1) with 1.

(** Dividing a whole number below 2^52 by a count: the quotient in
    binary64 rounds to the same integer as the exact quotient. *)
Lemma roundToDouble_mean (q : Q) (s n : Z) :
  q == inject_Z s / inject_Z n →
  (0 < n)%Z → (n <= s)%Z → (s < 2 ^ 52)%Z →
  ∃ y, Js.roundToDouble q = Some y
       ∧ Qfloor (y + (1 # 2)) = Qfloor (q + (1 # 2)).
Proof.
  intros Hq Hn Hns Hs.
  assert (HN : 0 < inject_Z n) by by apply inject_Z_pos.
  assert (Hqn : q * inject_Z n == inject_Z s).
  { rewrite Hq. field. intros H0. rewrite H0 in HN. discriminate HN. }
  assert (Hq1 : 1 <= q).
  { rewrite Hq. apply Qle_shift_div_l; [done|].
    rewrite Qmult_1_l. by rewrite <- Zle_Qle. }
  assert (Hqs : q <= inject_Z s).
  { rewrite Hq. apply Qle_shift_div_r; [done|].
    rewrite <- inject_Z_mult, <- Zle_Qle. nia. }
  assert (Habs : Qabs q == q) by (apply Qabs_pos; lra).
  set (e := Js.ilog2 (Qabs q)).
  assert (Hpow : 2 ^ e <= q).
  { eapply Qle_trans; [apply ilog2_le; rewrite Habs; lra|].
    rewrite Habs. apply Qle_refl. }
  assert (He : (e < 52)%Z).
  { apply pow2_lt_inv. eapply Qle_lt_trans; [exact Hpow|].
    eapply Qle_lt_trans; [exact Hqs|].
    rewrite (pow2_Z 52) by lia. by rewrite <- Zlt_Qlt. }
  set (qe := Z.max (e - 52) (-1074)).
  assert (Hqe : (qe <= -1)%Z) by lia.
  set (w := (2 ^ (- qe - 1))%Z).
  set (u := (2 ^ (- qe))%Z).
  assert (Hw : (0 < w)%Z) by (apply Z.pow_pos_nonneg; lia).
  assert (Hu : (u = 2 * w)%Z).
  { unfold u, w. replace (- qe)%Z with (1 + (- qe - 1))%Z at 1 by lia.
    rewrite Z.pow_add_r by lia. done. }
  pose proof (pow2_inv qe ltac:(lia)) as Hinv. fold u in Hinv.
  assert (HU : 0 < inject_Z u) by (apply inject_Z_pos; lia).
  pose proof (pow2_pos qe) as Hquantum.
  (* the quantum is small against the count *)
  assert (Hsmall : 2 ^ qe <= q * 2 ^ (-52)).
  { destruct (Z.max_spec (e - 52) (-1074)) as [[_ Hmax]|[_ Hmax]];
      fold qe in Hmax; rewrite Hmax.
    - rewrite <- (Qmult_1_l (2 ^ (-1074))).
      apply Qmult_le_compat_nonneg.
      + split; [lra | exact Hq1].
      + split; [apply Qlt_le_weak, pow2_pos | by apply pow2_le].
    - replace (e - 52)%Z with (e + -52)%Z by lia. rewrite pow2_add.
      apply Qmult_le_compat_r; [exact Hpow | apply Qlt_le_weak, pow2_pos]. }
  assert (Hnu : (n < u)%Z).
  { rewrite Zlt_Qlt. apply (Qmult_lt_r _ _ (2 ^ qe) Hquantum).
    rewrite (Qmult_comm (inject_Z u)), Hinv.
    eapply Qle_lt_trans.
    - rewrite Qmult_comm. apply Qmult_le_compat_r; [exact Hsmall|].
      by apply Qlt_le_weak.
    - rewrite (Qmult_comm q), <- Qmult_assoc, Hqn.
      rewrite Qmult_comm.
      assert (H52 : 2 ^ 52 * 2 ^ (-52) == 1) by (by rewrite <- pow2_add).
      rewrite <- H52. apply Qmult_lt_compat_r; [apply pow2_pos|].
      rewrite (pow2_Z 52) by lia. by rewrite <- Zlt_Qlt. }
  (* the integer that the exact quotient rounds to *)
  set (k := Qfloor (q + (1 # 2))).
  assert (Hk : k = ((2 * s + n) / (2 * n))%Z).
  { unfold k. rewrite Zdiv_Qdiv. apply Qfloor_comp.
    rewrite Hq, inject_Z_plus, !inject_Z_mult. field.
    intros H0. rewrite H0 in HN. discriminate HN. }
  assert (Hdiv : (2 * n * k <= 2 * s + n < 2 * n * k + 2 * n)%Z).
  { pose proof (Z.div_mod (2 * s + n) (2 * n) ltac:(lia)) as Hdm.
    pose proof (Z.mod_pos_bound (2 * s + n) (2 * n) ltac:(lia)) as Hmod.
    rewrite <- Hk in Hdm. lia. }
  (* the significand *)
  set (x := Qabs q / 2 ^ qe).
  assert (Hx : x == inject_Z (s * u) / inject_Z n).
  { unfold x. rewrite (Qdiv_by_inverse _ _ _ Hinv), Habs, Hq, inject_Z_mult.
    field. intros H0. rewrite H0 in HN. discriminate HN. }
  set (M := Js.roundHalfEven x).
  assert (HA : ((2 * k - 1) * w <= M)%Z).
  { apply roundHalfEven_ge. rewrite Hx. apply Qle_shift_div_l; [done|].
    rewrite <- inject_Z_mult, <- Zle_Qle. nia. }
  assert (HB : (M <= (2 * k + 1) * w - 1)%Z).
  { apply roundHalfEven_lt. rewrite Hx. apply Qlt_shift_div_r; [done|].
    assert (HZ : (2 * (s * u) < 2 * ((2 * k + 1) * w * n) - n)%Z) by nia.
    to_Q HZ. goal_to_Q. lra. }
  set (y := inject_Z M * 2 ^ qe).
  assert (Hy : y == inject_Z M / inject_Z u).
  { unfold y. symmetry. apply Qdiv_by_inverse.
    rewrite Qmult_comm. exact Hinv. }
  assert (Hlow : inject_Z k - (1 # 2) <= y).
  { rewrite Hy. apply Qle_shift_div_l; [done|].
    rewrite Hu. to_Q HA. goal_to_Q. lra. }
  assert (Hhigh : y < inject_Z k + (1 # 2)).
  { rewrite Hy. apply Qlt_shift_div_r; [done|].
    rewrite Hu. to_Q HB. goal_to_Q. lra. }
  assert (Hfin : y < 2 ^ 1024).
  { eapply Qlt_le_trans; [|apply (pow2_le 53 1024); lia].
    rewrite (pow2_Z 53) by lia.
    assert (Hkq : inject_Z k <= q + (1 # 2)) by apply Qfloor_le.
    assert (Hs' : inject_Z s < inject_Z (2 ^ 52)) by by rewrite <- Zlt_Qlt.
    change (inject_Z (2 ^ 52)) with 4503599627370496 in Hs'.
    change (inject_Z (2 ^ 53)) with 9007199254740992. lra. }
  exists (Qred y). split.
  - rewrite roundToDouble_pos; [done | lra | done].
  - rewrite (Qfloor_comp (Qred y + (1 # 2)) (y + (1 # 2)))
      by (by rewrite Qred_correct).
    apply Qfloor_unique.
    + lra.
    + rewrite inject_Z_plus. change (inject_Z 1) with 1. lra.
Qed.

End binary64_mean.

(** ** Statistics of the aggregate analytics *)

Section whole_numbers.
Local Open Scope Q_scope.

Lemma sumOf_whole_ge (xs : list Q) :
  Forall (λ x, ∃ n : Z, (0 < n)%Z ∧ x == inject_Z n) xs →
  inject_Z (Z.of_nat (length xs)) <= sumOf xs.
Proof.
  induction 1 as [|x xs (n & Hn & Hx) _ IH]; [apply Qle_refl|].
  cbn [length sumOf foldr]. fold (sumOf xs).
  rewrite Nat2Z.inj_succ, <- Z.add_1_l, inject_Z_plus, Hx.
  apply Qplus_le_compat; [|exact IH]. rewrite <- Zle_Qle. lia.
Qed.

(** The sum of positive whole numbers, taken from left to right in
    binary64, is exact while it stays below 2^52. *)
Lemma sum_whole (xs : list Q) (k : Z) :
  (0 <= k)%Z →
  Forall (λ x, ∃ n : Z, (0 < n)%Z ∧ x == inject_Z n) xs →
  inject_Z k + sumOf xs < 2 ^ 52 →
  ∃ m : Z,
    fold_left (λ sum x, Js.add sum (Some x)) xs (Some (inject_Z k))
      = Some (inject_Z m)
    ∧ inject_Z m == inject_Z k + sumOf xs.
Proof.
  intros Hk Hxs. revert k Hk.
  induction Hxs as [|x xs (n & Hn & Hx) Hxs IH]; intros k Hk Hsum.
  - exists k. split; [done|]. cbn. ring.
  - cbn [sumOf foldr] in Hsum. fold (sumOf xs) in Hsum.
    pose proof (sumOf_whole_ge xs Hxs) as Hge.
    assert (H0 : 0 <= inject_Z (Z.of_nat (length xs)))
      by (change 0 with (inject_Z 0); rewrite <- Zle_Qle; lia).
    assert (Hkn : inject_Z k + x == inject_Z (k + n))
      by (by rewrite inject_Z_plus, Hx).
    assert (Hlt : (k + n < 2 ^ 52)%Z).
    { rewrite Zlt_Qlt, <- pow2_Z by lia. rewrite <- Hkn. lra. }
    cbn [fold_left Js.add].
    rewrite (roundToDouble_int _ (k + n)%Z Hkn) by lia.
    destruct (IH (k + n)%Z ltac:(lia)) as (m & Hm & Heq).
    { rewrite <- Hkn. lra. }
    exists m. split; [exact Hm|].
    rewrite Heq, <- Hkn. cbn [sumOf foldr]. fold (sumOf xs). ring.
Qed.

End whole_numbers.

Section averages.
Variable read : Stored → option Q.

(** On readings that never hold 0, the truthy ones are the present ones. *)
Lemma present_values_filter (vitals : list Stored) :
  Forall (neverZero read) vitals →
  (λ v, Js.toNumber (read v))
    <$> List.filter (λ v, Js.truthy (read v)) vitals
  = presentValues read vitals.
Proof.
  unfold presentValues.
  induction 1 as [|v vitals Hv _ IH]; [done|]. cbn.
  specialize (Hv (Js.toNumber (read v))).
  destruct (read v) as [x|] eqn:E; cbn in *; [|done].
  destruct (truthyNumber_cases x) as [[Hz _]|[_ ->]];
    [by destruct (Hv eq_refl)|].
  cbn. by rewrite E, IH.
Qed.

Lemma fold_left_add (l : list Stored) (acc : option Q) :
  fold_left (λ sum v, Js.add sum (Some (Js.toNumber (read v)))) l acc
  = fold_left (λ sum x, Js.add sum (Some x))
      ((λ v, Js.toNumber (read v)) <$> l) acc.
Proof. revert acc. induction l as [|v l IH]; intros acc; cbn; [done|]. apply IH. Qed.

Lemma Math_round_nearest (x : Q) :
  ∃ n : Z, Js.Math_round x = inject_Z n
           ∧ (x - (1 # 2) < inject_Z n)%Q ∧ (inject_Z n <= x + (1 # 2))%Q.
Proof.
  exists (Qfloor (x + (1 # 2))). split; [done|]. split.
  - pose proof (Qlt_floor (x + (1 # 2))) as H.
    rewrite inject_Z_plus in H. change (inject_Z 1) with 1%Q in H. lra.
  - apply Qfloor_le.
Qed.

(** On positive whole numbers the average that the handler computes in
    binary64 is the exact mean, rounded. *)
Lemma average_rounded_mean (vitals : list Stored) :
  Forall (neverZero read) vitals →
  wholeNumbers (presentValues read vitals) →
  average read vitals
    = match presentValues read vitals with
      | [] => Some 0%Q
      | _ :: _ => Some (Js.Math_round (meanOf (presentValues read vitals)))
      end.
Proof.
  intros Hwf [Hwhole Hsum].
  pose proof (present_values_filter vitals Hwf) as Hpv.
  unfold average. rewrite fold_left_add.
  set (present := List.filter _ vitals) in *.
  assert (Hlen : length present = length (presentValues read vitals)).
  { by rewrite <- Hpv, length_fmap. }
  rewrite Hlen, Hpv.
  set (xs := presentValues read vitals) in *.
  destruct xs as [|x xs'] eqn:E; [done|]. rewrite <- E in *.
  assert (Hn : (0 < Z.of_nat (length xs))%Z) by (rewrite E; cbn; lia).
  replace (0 <? length xs)%nat with true
    by (symmetry; apply Nat.ltb_lt; lia).
  destruct (sum_whole xs 0 ltac:(lia) Hwhole) as (m & Hm & Heq).
  { change (inject_Z 0) with 0%Q. by rewrite Qplus_0_l. }
  change (Some 0%Q) with (Some (inject_Z 0)). rewrite Hm.
  change (inject_Z 0) with 0%Q in Heq. rewrite Qplus_0_l in Heq.
  cbn [Js.divide].
  destruct (Qeq_bool (inject_Z (Z.of_nat (length xs))) 0) eqn:E0.
  { apply Qeq_bool_iff in E0. unfold Qeq in E0. cbn in E0. lia. }
  destruct (roundToDouble_mean (inject_Z m / inject_Z (Z.of_nat (length xs)))
              m (Z.of_nat (length xs))) as (y & Hy & Hfloor).
  - reflexivity.
  - exact Hn.
  - rewrite Zle_Qle, Heq. by apply sumOf_whole_ge.
  - rewrite Zlt_Qlt, Heq, <- pow2_Z by lia. exact Hsum.
  - rewrite Hy. cbn [fmap option_fmap option_map]. unfold Js.Math_round.
    rewrite Hfloor. do 2 f_equal. apply Qfloor_comp.
    unfold meanOf. by rewrite Heq.
Qed.

Lemma average_is_rounded_mean (vitals : list Stored) :
  Forall (neverZero read) vitals →
  wholeNumbers (presentValues read vitals) →
  roundedMean (average read vitals) (presentValues read vitals).
Proof.
  intros Hwf Hwhole. rewrite average_rounded_mean by done.
  unfold roundedMean.
  destruct (presentValues read vitals) as [|x xs]; [done|].
  destruct (Math_round_nearest (meanOf (x :: xs))) as (n & Hn & Hlo & Hhi).
  exists n. by rewrite Hn.
Qed.

End averages.

(** ** The period of the analytics *)

Lemma sortInsert_Permutation {A} (key : A → Z) (x : A) (l : list A) :
  Js.sortInsert key x l ≡ₚ x :: l.
Proof.
  induction l as [|y l IH]; cbn; [done|].
  destruct (key x <=? key y)%Z; [done|].
  rewrite IH. apply Permutation_swap.
Qed.

Lemma sortBy_Permutation {A} (key : A → Z) (l : list A) :
  Js.sortBy key l ≡ₚ l.
Proof.
  induction l as [|x l IH]; cbn; [done|].
  by rewrite sortInsert_Permutation, IH.
Qed.

Lemma elem_of_filter_onOrAfter (cutoffDate : Z) (l : list Stored)
    (o : Stored) :
  o ∈ List.filter (onOrAfter cutoffDate) l ↔
  o ∈ l ∧ ∃ t, field_timestamp o = Some t ∧ (cutoffDate ≤ t)%Z.
Proof.
  rewrite !list_elem_of_In, List.filter_In. unfold onOrAfter.
  destruct (field_timestamp o) as [t|].
  - rewrite Z.leb_le. split; intros [? ?]; split; eauto.
    by destruct H0 as (? & [= <-] & ?).
  - split; [by intros [_ ?]| by intros [_ (? & ? & _)]].
Qed.

Lemma orString_unknown (period : string) :
  period ≠ "" → Js.orString (Some period) "7days" = period.
Proof.
  intros Hne. cbn. by destruct (String.eqb_spec period "").
Qed.

Lemma cutoffFor_unknown (tz : JsDate.TimeZone) (period : string)
    (now cutoffDate : Z) :
  period ∉ knownPeriods → cutoffFor tz period now cutoffDate = cutoffDate.
Proof.
  unfold knownPeriods, cutoffFor. rewrite !not_elem_of_cons.
  intros (H7 & H30 & H3 & H1 & _).
  by repeat match goal with
       | |- context [String.eqb period ?s] =>
           destruct (String.eqb_spec period s)
       end.
Qed.

(** C3, as the code has it: for a period that is not empty and not one of
    7days, 30days, 3months and 1year, both analytics endpoints answer with a
    result and not with an error, and they do filter: the cutoff is left at
    the instant at which the handler created it (the second reading of the
    clock during the request), so that exactly the readings and alerts of
    the scope stamped at or after that instant are returned and every
    reading or alert stamped before it is left out. *)
Theorem unknown_period_cutoff_is_request_time (tz : JsDate.TimeZone)
    (userId : string) (clock : nat → Z) (patientId period : string)
    (kv : gmap string Stored) :
  period ≠ "" →
  period ∉ knownPeriods →
  (∃ r, getAnalytics tz (AuthUser userId) clock patientId (Some period) kv = Ok r
        ∧ AnalyticsResponse.vitals r
          = Js.sortBy timeOf
              (List.filter (onOrAfter (clock 1%nat))
                 (kv_getByPrefix ("vitals:" +:+ patientId +:+ ":") kv))
        ∧ AnalyticsResponse.alerts r
          = Js.sortBy timeOf
              (List.filter (onOrAfter (clock 1%nat))
                 (kv_getByPrefix ("alert:" +:+ patientId +:+ ":") kv))
        ∧ ∀ o t, field_timestamp o = Some t → (t < clock 1%nat)%Z →
                 (o ∉ AnalyticsResponse.vitals r)
                 ∧ (o ∉ AnalyticsResponse.alerts r))
  ∧ (∃ r, getAggregateAnalytics tz (AuthUser userId) clock (Some period) kv = Ok r
          ∧ AggregateResponse.vitals r
            = List.filter (onOrAfter (clock 1%nat))
                (kv_getByPrefix "vitals:" kv)
          ∧ AggregateResponse.alerts r
            = List.filter (onOrAfter (clock 1%nat))
                (kv_getByPrefix "alert:" kv)
          ∧ ∀ o t, field_timestamp o = Some t → (t < clock 1%nat)%Z →
                   (o ∉ AggregateResponse.vitals r)
                   ∧ (o ∉ AggregateResponse.alerts r)).
Proof.
  intros Hne Hunknown.
  unfold getAnalytics, getAggregateAnalytics.
  rewrite orString_unknown, cutoffFor_unknown by done.
  split; eexists; (split; [reflexivity|]); cbn;
    (split; [reflexivity|]); (split; [reflexivity|]);
    intros o t Ho Ht; rewrite ?sortBy_Permutation;
    rewrite !elem_of_filter_onOrAfter, Ho;
    split; intros (_ & t' & [= <-] & Hle); lia.
Qed.

Lemma unknown_period_cutoff_is_request_time_witness :
  ∃ r, getAnalytics utcZone (AuthUser "u1") (λ _, 5000%Z) "p1" (Some "alltime")
         {[ "vitals:p1:1000" := exampleReading (Some 72%Q) None 1000 ]} = Ok r
       ∧ AnalyticsResponse.vitals r
         = Js.sortBy timeOf
             (List.filter (onOrAfter 5000)
                (kv_getByPrefix ("vitals:" +:+ "p1" +:+ ":")
                   {[ "vitals:p1:1000" :=
                        exampleReading (Some 72%Q) None 1000 ]}))
       ∧ AnalyticsResponse.alerts r
         = Js.sortBy timeOf
             (List.filter (onOrAfter 5000)
                (kv_getByPrefix ("alert:" +:+ "p1" +:+ ":")
                   {[ "vitals:p1:1000" :=
                        exampleReading (Some 72%Q) None 1000 ]}))
       ∧ ∀ o t, field_timestamp o = Some t → (t < 5000)%Z →
                (o ∉ AnalyticsResponse.vitals r)
                ∧ (o ∉ AnalyticsResponse.alerts r).
Proof.
  refine (proj1 (unknown_period_cutoff_is_request_time utcZone "u1"
                   (λ _, 5000%Z) "p1" "alltime" _ _ _)).
  - discriminate.
  - unfold knownPeriods. rewrite !not_elem_of_cons.
    repeat split; try discriminate. apply not_elem_of_nil.
Defined.

(** C3 as it was worded fails: with a period that the switch does not know,
    a reading and its alert stored before the request are in the scope and
    are not returned, by either endpoint. *)
Lemma unknown_period_drops_earlier_entries :
  let kv :=
    (postVitals showInteger (AuthUser "u1") (λ _, 1000%Z)
       (Body.mk (Some "p1") (Some 45%Q) None None None None) ∅).2 in
  length (kv_getByPrefix "vitals:p1:" kv) = 1%nat
  ∧ length (kv_getByPrefix "alert:p1:" kv) = 1%nat
  ∧ (∃ r, getAnalytics utcZone (AuthUser "u1") (λ _, 5000%Z) "p1" (Some "alltime") kv
            = Ok r
          ∧ AnalyticsResponse.vitals r = []
          ∧ AnalyticsResponse.alerts r = [])
  ∧ (∃ r, getAggregateAnalytics utcZone (AuthUser "u1") (λ _, 5000%Z)
            (Some "alltime") kv = Ok r
          ∧ AggregateResponse.vitals r = []
          ∧ AggregateResponse.alerts r = []).
Proof.
  cbv zeta. split; [by vm_compute|]. split; [by vm_compute|].
  split; eexists; (split; [by vm_compute|]); by vm_compute.
Qed.

(** ** The averages of the aggregate analytics *)

(** The store keeps [storeNeverZero]: ingestion writes no 0 and
    acknowledgement leaves the payload as it is. *)
Lemma storeAlerts_neverZero (numberToString : Q → string)
    (patientId vitalId : string) (timestamp : Z) (clock : nat → Z) (n : nat)
    (alerts : list Draft.t) (kv : gmap string Stored) :
  storeNeverZero kv →
  storeNeverZero (storeAlerts patientId vitalId timestamp clock n alerts kv).
Proof.
  revert n kv. induction alerts as [|a alerts IH]; intros n kv Hkv; [done|].
  cbn. apply IH. apply map_Forall_insert_2; [|done].
  by intros [] x.
Qed.

Lemma postVitals_neverZero (numberToString : Q → string) (auth : AuthResult)
    (clock : nat → Z) (body : Body.t) (kv : gmap string Stored) :
  storeNeverZero kv →
  storeNeverZero (postVitals numberToString auth clock body kv).2.
Proof.
  intros Hkv. unfold postVitals. destruct auth as [|userId]; [done|].
  destruct (negb _); [done|]. cbn [snd].
  apply (storeAlerts_neverZero numberToString).
  apply map_Forall_insert_2; [|done].
  intros vital. apply makeVitalReading_neverZero.
Qed.

Lemma acknowledgeAlert_neverZero (auth : AuthResult) (clock : nat → Z)
    (alertId : string) (kv : gmap string Stored) :
  storeNeverZero kv →
  storeNeverZero (acknowledgeAlert auth clock alertId kv).2.
Proof.
  intros Hkv. unfold acknowledgeAlert, kv_get. destruct auth as [|userId]; [done|].
  destruct (kv !! alertId) as [o|] eqn:E; [|done]. cbn [snd].
  apply map_Forall_insert_2; [|done].
  intros vital x. specialize (Hkv alertId o E vital x).
  by destruct vital.
Qed.

Lemma elem_of_kv_getByPrefix (prefix : string) (kv : gmap string Stored)
    (o : Stored) :
  o ∈ kv_getByPrefix prefix kv ↔
  ∃ key, kv !! key = Some o ∧ String.prefix prefix key = true.
Proof.
  unfold kv_getByPrefix. rewrite list_elem_of_fmap. split.
  - intros ([key o'] & -> & Hin).
    apply list_elem_of_In, List.filter_In in Hin as [Hin Hp].
    apply list_elem_of_In, elem_of_map_to_list in Hin. by exists key.
  - intros (key & Hkey & Hp). exists (key, o). split; [done|].
    apply list_elem_of_In, List.filter_In. split; [|done].
    by apply list_elem_of_In, elem_of_map_to_list.
Qed.

Lemma filtered_neverZero (kv : gmap string Stored) (prefix : string)
    (cutoffDate : Z) (vital : CheckedVital) :
  storeNeverZero kv →
  Forall (neverZero (field vital))
    (List.filter (onOrAfter cutoffDate) (kv_getByPrefix prefix kv)).
Proof.
  intros Hkv. apply Forall_forall. intros o Ho.
  apply elem_of_filter_onOrAfter in Ho as [Ho _].
  apply elem_of_kv_getByPrefix in Ho as (key & Hkey & _).
  by apply (Hkv key o Hkey).
Qed.

(** C5, as the code has it: the aggregate endpoint (as the per-patient one)
    answers with totalReadings equal to the number of the readings it
    returns.  avgHeartRate and avgOxygenLevel are computed in binary64, and
    when the values of the returned readings that have the property are
    positive whole numbers (with a sum below 2^52) they equal the
    arithmetic mean of these values, rounded to the nearest integer, and 0
    when no returned reading has the property.  When the returned readings
    are three, with heart rates 60, 100 and none, avgHeartRate is 80 and
    totalReadings is 3.  The store is one that ingestion filled: it holds
    no 0 for a vital. *)
Theorem aggregate_totals_and_averages (tz : JsDate.TimeZone)
    (userId : string) (clock : nat → Z) (periodQuery : option string)
    (kv : gmap string Stored) :
  storeNeverZero kv →
  ∃ r, getAggregateAnalytics tz (AuthUser userId) clock periodQuery kv = Ok r
       ∧ AggregateStats.totalReadings (AggregateResponse.stats r)
         = length (AggregateResponse.vitals r)
       ∧ (∀ patientId,
            ∃ r', getAnalytics tz (AuthUser userId) clock patientId
                    periodQuery kv = Ok r'
                  ∧ PatientStats.totalReadings (AnalyticsResponse.stats r')
                    = length (AnalyticsResponse.vitals r'))
       ∧ (wholeNumbers
            (presentValues field_heartRate (AggregateResponse.vitals r)) →
          roundedMean
            (AggregateStats.avgHeartRate (AggregateResponse.stats r))
            (presentValues field_heartRate (AggregateResponse.vitals r)))
       ∧ (wholeNumbers
            (presentValues field_oxygenLevel (AggregateResponse.vitals r)) →
          roundedMean
            (AggregateStats.avgOxygenLevel (AggregateResponse.stats r))
            (presentValues field_oxygenLevel (AggregateResponse.vitals r)))
       ∧ (∀ r1 r2 r3,
            AggregateResponse.vitals r = [r1; r2; r3] →
            field_heartRate r1 = Some 60%Q →
            field_heartRate r2 = Some 100%Q →
            field_heartRate r3 = None →
            AggregateStats.avgHeartRate (AggregateResponse.stats r)
              = Some 80%Q
            ∧ AggregateStats.totalReadings (AggregateResponse.stats r)
              = 3%nat).
Proof.
  intros Hkv. unfold getAggregateAnalytics. eexists. split; [reflexivity|].
  cbn [AggregateResponse.stats AggregateResponse.vitals aggregateStats
         AggregateStats.totalReadings AggregateStats.avgHeartRate
         AggregateStats.avgOxygenLevel].
  set (vitals := List.filter _ (kv_getByPrefix "vitals:" kv)).
  assert (Hhr : Forall (neverZero field_heartRate) vitals)
    by apply (filtered_neverZero kv _ _ HeartRate Hkv).
  assert (Ho2 : Forall (neverZero field_oxygenLevel) vitals)
    by apply (filtered_neverZero kv _ _ OxygenLevel Hkv).
  split; [done|]. split; [by eexists|].
  split; [by apply average_is_rounded_mean|].
  split; [by apply average_is_rounded_mean|].
  intros r1 r2 r3 Hv H1 H2 H3. rewrite Hv in Hhr |- *. split; [|done].
  rewrite average_rounded_mean; [|done|].
  - unfold presentValues. cbn [omap list_omap]. rewrite H1, H2, H3.
    cbn [omap]. by vm_compute.
  - unfold presentValues. cbn [omap list_omap]. rewrite H1, H2, H3.
    cbn [omap]. split; [|by vm_compute].
    repeat constructor; [by exists 60%Z | by exists 100%Z].
Qed.

Lemma aggregate_totals_and_averages_witness :
  ∃ r, getAggregateAnalytics utcZone (AuthUser "u1") (λ _, 5000%Z) None
         (<["vitals:p1:3000" := exampleReading (Some 60%Q) None 3000]>
            (<["vitals:p1:2000" := exampleReading None None 2000]>
               {[ "vitals:p1:1000" :=
                    exampleReading (Some 100%Q) None 1000 ]})) = Ok r
       ∧ AggregateStats.avgHeartRate (AggregateResponse.stats r) = Some 80%Q
       ∧ AggregateStats.totalReadings (AggregateResponse.stats r) = 3%nat.
Proof.
  assert (Hkv : storeNeverZero
            (<["vitals:p1:3000" := exampleReading (Some 60%Q) None 3000]>
               (<["vitals:p1:2000" := exampleReading None None 2000]>
                  {[ "vitals:p1:1000" :=
                       exampleReading (Some 100%Q) None 1000 ]}))).
  { repeat apply map_Forall_insert_2; try apply map_Forall_empty;
      intros [] x Hx Hz; vm_compute in Hx;
      first [ discriminate Hx
            | injection Hx as <-; vm_compute in Hz; discriminate Hz ]. }
  destruct (aggregate_totals_and_averages utcZone "u1" (λ _, 5000%Z) None _
              Hkv)
    as (r & Hr & _ & _ & _ & _ & Hex).
  exists r. split; [exact Hr|].
  vm_compute in Hr. injection Hr as <-.
  apply (Hex _ _ _ eq_refl); reflexivity.
Defined.

(** C5 as it was worded fails for values that are not whole numbers: with
    two readings whose heart rates are 72 and 72.99999999999999 (the
    binary64 value that this literal denotes), the sum in binary64 is 145
    and the endpoint answers 73, while the arithmetic mean of the two
    values is below 72.5 and rounds to 72. *)
Lemma binary64_average_rounds_up :
  let x := (5136918324969471 # 70368744177664)%Q in
  let kv : gmap string Stored :=
    <["vitals:p1:2000" := exampleReading (Some x) None 2000]>
      {[ "vitals:p1:1000" := exampleReading (Some 72%Q) None 1000 ]} in
  Js.roundToDouble 72.99999999999999 = Some x
  ∧ isDouble x
  ∧ isDouble 72
  ∧ storeNeverZero kv
  ∧ ∃ r, getAggregateAnalytics utcZone (AuthUser "u1") (λ _, 5000%Z) None kv
           = Ok r
         ∧ AggregateStats.totalReadings (AggregateResponse.stats r) = 2%nat
         ∧ presentValues field_heartRate (AggregateResponse.vitals r)
           ≡ₚ [72%Q; x]
         ∧ (meanOf (presentValues field_heartRate (AggregateResponse.vitals r))
            < 72 + (1 # 2))%Q
         ∧ AggregateStats.avgHeartRate (AggregateResponse.stats r)
           = Some 73%Q
         ∧ ¬ roundedMean
               (AggregateStats.avgHeartRate (AggregateResponse.stats r))
               (presentValues field_heartRate (AggregateResponse.vitals r)).
Proof.
  cbv zeta. split; [by vm_compute|]. split; [by vm_compute|].
  split; [by vm_compute|]. split.
  { repeat apply map_Forall_insert_2; try apply map_Forall_empty;
      intros [] x Hx Hz; vm_compute in Hx;
      first [ discriminate Hx
            | injection Hx as <-; vm_compute in Hz; discriminate Hz ]. }
  eexists. split; [by vm_compute|].
  cbn [AggregateResponse.stats AggregateResponse.vitals
       AggregateStats.totalReadings AggregateStats.avgHeartRate].
  split; [by vm_compute|].
  split; [|split; [|split]].
  - vm_compute. first [reflexivity | apply perm_swap].
  - by vm_compute.
  - by vm_compute.
  - intros Hrm.
    remember (presentValues field_heartRate _) as xs eqn:E in Hrm.
    assert (Hmean : (meanOf xs < 72 + (1 # 2))%Q) by (subst xs; by vm_compute).
    destruct xs as [|a l]; [by vm_compute in E|].
    destruct Hrm as (n & Hn & _ & Hhi).
    vm_compute in Hn. injection Hn as <-.
    change (inject_Z 73) with 73%Q in Hhi. lra.
Qed.

(** The average in binary64 on values with a fractional part: for the
    binary64 values of 60.3, 68.1 and 68.1 the sum is 196.49999999999997
    and the answer 65, and for those of 43.3, 117.6 and 53.6 it is 71. *)
Example average_binary64_examples :
  let double := λ x, default 0%Q (Js.roundToDouble x) in
  let reading := λ x t, exampleReading (Some (double x)) None t in
  average field_heartRate
    [reading 60.3%Q 1000%Z; reading 68.1%Q 2000%Z; reading 68.1%Q 3000%Z]
  = Some 65%Q
  ∧ average field_heartRate
      [reading 43.3%Q 1000%Z; reading 117.6%Q 2000%Z; reading 53.6%Q 3000%Z]
    = Some 71%Q
  ∧ Js.add (Some (double 0.1%Q)) (Some (double 0.2%Q))
    = Some (double 0.30000000000000004%Q)
  ∧ Js.roundToDouble (2 ^ 1024 - 2 ^ 970) = None
  ∧ Js.roundToDouble (2 ^ (-1075)) = Some 0%Q.
Proof. by vm_compute. Qed.

(** ** Acknowledgement *)

Lemma acknowledgeAlert_missing (userId : string) (clock : nat → Z)
    (alertId : string) (kv : gmap string Stored) :
  kv !! alertId = None →
  acknowledgeAlert (AuthUser userId) clock alertId kv
    = (Error "Alert not found" 404, kv).
Proof. intros H. unfold acknowledgeAlert, kv_get. by rewrite H. Qed.

Lemma acknowledgeAlert_found (userId : string) (clock : nat → Z)
    (alertId : string) (kv : gmap string Stored) (o : Stored) :
  kv !! alertId = Some o →
  acknowledgeAlert (AuthUser userId) clock alertId kv
    = (Ok (acknowledgedCopy o userId (clock 0%nat)),
       <[alertId := acknowledgedCopy o userId (clock 0%nat)]> kv).
Proof. intros H. unfold acknowledgeAlert, kv_get, kv_set. by rewrite H. Qed.

(** C8, as the code has it: for an authenticated caller, acknowledge fails
    with NotFound (404, 'Alert not found') exactly when nothing is stored
    under the key alertId, whatever kind of object that is.  When an object
    is stored there, the answer is that object with acknowledged = true and
    with the caller and the time of the call as acknowledgedBy and
    acknowledgedAt, and the same object replaces the stored one.
    Acknowledging a second time answers again with acknowledged = true and
    overwrites acknowledgedBy and acknowledgedAt with the second caller and
    the second time. *)
Theorem acknowledge_not_found_iff_key_missing (userId : string)
    (clock : nat → Z) (alertId : string) (kv : gmap string Stored) :
  ((acknowledgeAlert (AuthUser userId) clock alertId kv).1
     = Error "Alert not found" 404
   ↔ kv !! alertId = None)
  ∧ (∀ o, kv !! alertId = Some o →
       ∃ updated kv',
         acknowledgeAlert (AuthUser userId) clock alertId kv = (Ok updated, kv')
         ∧ payload updated = payload o
         ∧ acknowledged updated = Some true
         ∧ acknowledgedBy updated = Some userId
         ∧ acknowledgedAt updated = Some (clock 0%nat)
         ∧ kv' = <[alertId := updated]> kv
         ∧ ∀ userId2 clock2,
             ∃ updated2 kv'',
               acknowledgeAlert (AuthUser userId2) clock2 alertId kv'
                 = (Ok updated2, kv'')
               ∧ payload updated2 = payload o
               ∧ acknowledged updated2 = Some true
               ∧ acknowledgedBy updated2 = Some userId2
               ∧ acknowledgedAt updated2 = Some (clock2 0%nat)
               ∧ kv'' !! alertId = Some updated2).
Proof.
  split.
  - destruct (kv !! alertId) as [o|] eqn:E.
    + rewrite (acknowledgeAlert_found _ _ _ _ o) by done. by split.
    + by rewrite acknowledgeAlert_missing.
  - intros o Ho. do 2 eexists.
    split; [by apply acknowledgeAlert_found|]. repeat (split; [done|]).
    intros userId2 clock2. do 2 eexists.
    split; [apply acknowledgeAlert_found, lookup_insert_eq|].
    repeat (split; [done|]). apply lookup_insert_eq.
Qed.

(** C8 as it was worded fails for a key that holds a profile: the key does
    not resolve to a stored alert and acknowledge does not fail. *)
Lemma acknowledge_profile_key_not_rejected :
  let kv : gmap string Stored := {[ "profile:p1" := exampleProfile ]} in
  (∀ o, kv !! "profile:p1" = Some o → isAlert o = false)
  ∧ ∃ updated,
      (acknowledgeAlert (AuthUser "u2") (λ _, 3000%Z) "profile:p1" kv).1
        = Ok updated.
Proof.
  cbv zeta. split.
  - intros o. rewrite lookup_singleton_eq. by intros [= <-].
  - eexists. by vm_compute.
Qed.

(** C10: the guard of acknowledge looks at the key alone.  Whatever object
    is stored under the key passed as alertId, an alert or not (a profile
    under profile:<id> for one), acknowledge answers with that object with
    acknowledged = true, acknowledgedBy and acknowledgedAt added, and
    overwrites the stored object with it; it does not fail. *)
Theorem acknowledge_overwrites_any_entity (userId : string)
    (clock : nat → Z) (key : string) (kv : gmap string Stored) (o : Stored) :
  kv !! key = Some o →
  ∃ updated kv',
    acknowledgeAlert (AuthUser userId) clock key kv = (Ok updated, kv')
    ∧ updated
      = {| payload := payload o;
           acknowledged := Some true;
           acknowledgedBy := Some userId;
           acknowledgedAt := Some (clock 0%nat) |}
    ∧ isAlert updated = isAlert o
    ∧ kv' !! key = Some updated
    ∧ ∀ key', key' ≠ key → kv' !! key' = kv !! key'.
Proof.
  intros Ho. do 2 eexists. split; [by apply acknowledgeAlert_found|].
  split; [done|]. split; [done|]. split; [apply lookup_insert_eq|].
  intros key' Hne. by apply lookup_insert_ne.
Qed.

Lemma acknowledge_overwrites_any_entity_witness :
  ∃ updated kv',
    acknowledgeAlert (AuthUser "u2") (λ _, 3000%Z) "profile:p1"
      {[ "profile:p1" := exampleProfile ]} = (Ok updated, kv')
    ∧ updated
      = {| payload := payload exampleProfile;
           acknowledged := Some true;
           acknowledgedBy := Some "u2";
           acknowledgedAt := Some 3000%Z |}
    ∧ isAlert updated = isAlert exampleProfile
    ∧ kv' !! "profile:p1" = Some updated
    ∧ ∀ key', key' ≠ "profile:p1" →
              kv' !! key'
              = ({[ "profile:p1" := exampleProfile ]} : gmap string Stored)
                  !! key'.
Proof.
  apply (acknowledge_overwrites_any_entity "u2" (λ _, 3000%Z) "profile:p1"
           {[ "profile:p1" := exampleProfile ]} exampleProfile).
  reflexivity.
Defined.


(** * Further properties *)

(** ** The calendar *)

Lemma allFrom_spec (n : nat) (f : Z → bool) (z : Z) :
  allFrom n f z = true → ∀ k, (z ≤ k < z + Z.of_nat n)%Z → f k = true.
Proof.
  revert z. induction n as [|n IH]; intros z H k Hk; [lia|].
  cbn [allFrom] in H. apply andb_true_iff in H as [Hz Hrest].
  destruct (decide (k = z)) as [->|Hne]; [done|].
  apply (IH (z + 1)%Z); [done|lia].
Qed.

Section calendar.
Local Open Scope Z_scope.

(** Moving by whole cycles moves the year by 400 and nothing else. *)
Lemma civilFromDays_shift (z k : Z) :
  JsDate.civilFromDays (z + k * daysPerCycle)
  = let '(y, m, d) := JsDate.civilFromDays z in (y + 400 * k, m, d).
Proof.
  unfold JsDate.civilFromDays, daysPerCycle. cbv zeta.
  replace (z + k * 146097 + 719468) with (z + 719468 + k * 146097) by lia.
  rewrite Z.div_add by lia.
  set (era := (z + 719468) / 146097).
  replace (z + 719468 + k * 146097 - (era + k) * 146097)
    with (z + 719468 - era * 146097) by lia.
  set (doe := z + 719468 - era * 146097).
  set (yoe := (doe - doe / 1460 + doe / 36524 - doe / 146096) / 365).
  set (doy := doe - (365 * yoe + yoe / 4 - yoe / 100)).
  set (mp := (5 * doy + 2) / 153).
  destruct (_ <=? 2); f_equal; f_equal; lia.
Qed.

Lemma daysFromCivil_shift (y m d k : Z) :
  JsDate.daysFromCivil (y + 400 * k) m d
  = JsDate.daysFromCivil y m d + k * daysPerCycle.
Proof.
  unfold JsDate.daysFromCivil, daysPerCycle. cbv zeta.
  set (y' := if m <=? 2 then y - 1 else y).
  replace (if m <=? 2 then y + 400 * k - 1 else y + 400 * k)
    with (y' + k * 400) by (unfold y'; destruct (m <=? 2); lia).
  rewrite Z.div_add by lia.
  set (era := y' / 400).
  replace (y' + k * 400 - (era + k) * 400) with (y' - era * 400) by lia.
  lia.
Qed.

(** The day number is linear in the day of the month. *)
Lemma daysFromCivil_day (y m d : Z) :
  JsDate.daysFromCivil y m d = JsDate.daysFromCivil y m 1 + d - 1.
Proof. unfold JsDate.daysFromCivil. cbv zeta. lia. Qed.

Lemma MakeDay_shift (y month d k : Z) :
  JsDate.MakeDay (y + 400 * k) month d
  = JsDate.MakeDay y month d + k * daysPerCycle.
Proof.
  unfold JsDate.MakeDay. cbv zeta.
  replace (y + 400 * k + month / 12) with (y + month / 12 + 400 * k) by lia.
  rewrite daysFromCivil_shift. lia.
Qed.

Lemma cycleDayOk_shift (z k : Z) :
  cycleDayOk (z + k * daysPerCycle) = cycleDayOk z.
Proof.
  unfold cycleDayOk. rewrite civilFromDays_shift.
  destruct (JsDate.civilFromDays z) as [[y m] d]. cbv zeta.
  replace (y + 400 * k - 1) with (y - 1 + 400 * k) by lia.
  rewrite daysFromCivil_shift, !MakeDay_shift.
  replace (z + k * daysPerCycle
           - (JsDate.MakeDay y (m - 1 - 3) d + k * daysPerCycle))
    with (z - JsDate.MakeDay y (m - 1 - 3) d) by lia.
  replace (z + k * daysPerCycle
           - (JsDate.MakeDay (y - 1) (m - 1) d + k * daysPerCycle))
    with (z - JsDate.MakeDay (y - 1) (m - 1) d) by lia.
  replace (JsDate.daysFromCivil y m d + k * daysPerCycle
           =? z + k * daysPerCycle)
    with (JsDate.daysFromCivil y m d =? z); [done|].
  destruct (Z.eqb_spec (JsDate.daysFromCivil y m d) z);
    destruct (Z.eqb_spec (JsDate.daysFromCivil y m d + k * daysPerCycle)
                (z + k * daysPerCycle)); lia || done.
Qed.

(** The days of the cycle that starts on 0000-03-01, one by one. *)
Lemma cycle_checked :
  allFrom (Z.to_nat daysPerCycle) cycleDayOk (-719468) = true.
Proof. by vm_compute. Qed.

Lemma cycleDayOk_always (z : Z) : cycleDayOk z = true.
Proof.
  pose (k := (z + 719468) / daysPerCycle).
  rewrite <- (cycleDayOk_shift z (- k)).
  apply (allFrom_spec _ _ _ cycle_checked).
  unfold daysPerCycle in *.
  pose proof (Z.mod_pos_bound (z + 719468) 146097 ltac:(lia)) as Hb.
  pose proof (Z.div_mod (z + 719468) 146097 ltac:(lia)) as Hd.
  fold k in Hd. rewrite Z2Nat.id by lia. lia.
Qed.

(** Every day number has a civil date that maps back to it. *)
Lemma civil_facts (z : Z) :
  ∃ y m d,
    JsDate.civilFromDays z = (y, m, d)
    ∧ JsDate.daysFromCivil y m d = z
    ∧ 1 ≤ m ≤ 12 ∧ 1 ≤ d ≤ 31
    ∧ 89 ≤ z - JsDate.MakeDay y (m - 1 - 3) d ≤ 92
    ∧ 365 ≤ z - JsDate.MakeDay (y - 1) (m - 1) d ≤ 366.
Proof.
  pose proof (cycleDayOk_always z) as H. unfold cycleDayOk in H.
  destruct (JsDate.civilFromDays z) as [[y m] d]. cbv zeta in H.
  exists y, m, d. split; [done|].
  repeat (apply andb_true_iff in H as [H ?]).
  apply Z.eqb_eq in H. lia.
Qed.

Lemma MakeDay_same_month (y m dt : Z) :
  1 ≤ m ≤ 12 →
  JsDate.MakeDay y (m - 1) dt = JsDate.daysFromCivil y m dt.
Proof.
  intros Hm. unfold JsDate.MakeDay. cbv zeta.
  rewrite Z.div_small, Z.mod_small by lia.
  rewrite (daysFromCivil_day y m dt).
  replace (y + 0) with y by lia. replace (m - 1 + 1) with m by lia. lia.
Qed.

Lemma time_of_day (t : Z) :
  t = JsDate.Day t * JsDate.msPerDay + JsDate.TimeWithinDay t.
Proof.
  unfold JsDate.Day, JsDate.TimeWithinDay, JsDate.msPerDay.
  pose proof (Z.div_mod t 86400000 ltac:(lia)). lia.
Qed.

(** Replacing the day of the month moves a time value by whole days. *)
Lemma MakeDate_date (t date : Z) :
  JsDate.MakeDate
    (JsDate.MakeDay (JsDate.YearFromTime t) (JsDate.MonthFromTime t) date)
    (JsDate.TimeWithinDay t)
  = t + (date - JsDate.DateFromTime t) * JsDate.msPerDay.
Proof.
  unfold JsDate.YearFromTime, JsDate.MonthFromTime, JsDate.DateFromTime,
    JsDate.MakeDate.
  destruct (civil_facts (JsDate.Day t)) as (y & m & d & -> & Hz & Hm & _).
  cbn [fst snd]. rewrite MakeDay_same_month by done.
  rewrite (daysFromCivil_day y m date).
  rewrite (daysFromCivil_day y m d) in Hz.
  pose proof (time_of_day t). lia.
Qed.

Lemma MakeDate_month_back_3 (t : Z) :
  ∃ n, 89 ≤ n ≤ 92
       ∧ JsDate.MakeDate
           (JsDate.MakeDay (JsDate.YearFromTime t)
              (JsDate.MonthFromTime t - 3) (JsDate.DateFromTime t))
           (JsDate.TimeWithinDay t)
         = t - n * JsDate.msPerDay.
Proof.
  unfold JsDate.YearFromTime, JsDate.MonthFromTime, JsDate.DateFromTime,
    JsDate.MakeDate.
  destruct (civil_facts (JsDate.Day t)) as (y & m & d & -> & _ & _ & _ & H & _).
  cbn [fst snd].
  exists (JsDate.Day t - JsDate.MakeDay y (m - 1 - 3) d). split; [done|].
  pose proof (time_of_day t). lia.
Qed.

Lemma MakeDate_year_back_1 (t : Z) :
  ∃ n, 365 ≤ n ≤ 366
       ∧ JsDate.MakeDate
           (JsDate.MakeDay (JsDate.YearFromTime t - 1)
              (JsDate.MonthFromTime t) (JsDate.DateFromTime t))
           (JsDate.TimeWithinDay t)
         = t - n * JsDate.msPerDay.
Proof.
  unfold JsDate.YearFromTime, JsDate.MonthFromTime, JsDate.DateFromTime,
    JsDate.MakeDate.
  destruct (civil_facts (JsDate.Day t)) as (y & m & d & -> & _ & _ & _ & _ & H).
  cbn [fst snd].
  exists (JsDate.Day t - JsDate.MakeDay (y - 1) (m - 1) d). split; [done|].
  pose proof (time_of_day t). lia.
Qed.

(** [d.setDate(n)] moves the local time of [d] by whole days, by [n] minus
    its day of the month, and reads the result back as local time. *)
Lemma setDate_moves_days (tz : JsDate.TimeZone) (t date : Z) :
  JsDate.setDate tz t date
  = JsDate.UTC tz
      (JsDate.LocalTime tz t
       + (date - JsDate.getDate tz t) * JsDate.msPerDay).
Proof.
  unfold JsDate.setDate, JsDate.getDate. cbv zeta. by rewrite MakeDate_date.
Qed.

(** In a zone whose offset never changes the setters move the instant
    itself. *)
Lemma setDate_fixed (tz : JsDate.TimeZone) (offset t date : Z) :
  fixedOffset tz offset →
  JsDate.setDate tz t date
  = t + (date - JsDate.getDate tz t) * JsDate.msPerDay.
Proof.
  intros Hfixed. rewrite setDate_moves_days.
  unfold JsDate.UTC, JsDate.LocalTime.
  destruct (Hfixed t) as [-> _].
  destruct (Hfixed (t + offset
                    + (date - JsDate.getDate tz t) * JsDate.msPerDay))
    as [_ ->]. lia.
Qed.

Lemma setMonth_back_3 (tz : JsDate.TimeZone) (offset t : Z) :
  fixedOffset tz offset →
  ∃ n, 89 ≤ n ≤ 92
       ∧ JsDate.setMonth tz t (JsDate.getMonth tz t - 3)
         = t - n * JsDate.msPerDay.
Proof.
  intros Hfixed. unfold JsDate.setMonth, JsDate.getMonth. cbv zeta.
  destruct (MakeDate_month_back_3 (JsDate.LocalTime tz t)) as (n & Hn & ->).
  exists n. split; [done|]. unfold JsDate.UTC, JsDate.LocalTime.
  destruct (Hfixed t) as [-> _].
  destruct (Hfixed (t + offset - n * JsDate.msPerDay)) as [_ ->]. lia.
Qed.

Lemma setFullYear_back_1 (tz : JsDate.TimeZone) (offset t : Z) :
  fixedOffset tz offset →
  ∃ n, 365 ≤ n ≤ 366
       ∧ JsDate.setFullYear tz t (JsDate.getFullYear tz t - 1)
         = t - n * JsDate.msPerDay.
Proof.
  intros Hfixed. unfold JsDate.setFullYear, JsDate.getFullYear. cbv zeta.
  destruct (MakeDate_year_back_1 (JsDate.LocalTime tz t)) as (n & Hn & ->).
  exists n. split; [done|]. unfold JsDate.UTC, JsDate.LocalTime.
  destruct (Hfixed t) as [-> _].
  destruct (Hfixed (t + offset - n * JsDate.msPerDay)) as [_ ->]. lia.
Qed.

Lemma fixedZone_fixedOffset (offset : Z) :
  fixedOffset (fixedZone offset) offset.
Proof. by intros t. Qed.

End calendar.

(** ** The windows of the analytics *)

(** X1: the cutoff of 7days and of 30days is the local time of the cutoff
    instant moved by whole days, by the day of the month of [now] less 7 or
    30 against its own, and read back as a local time.  In a time zone
    whose offset from UTC never changes, and when the two instants fall on
    the same local day (which is so unless midnight passes between the two
    [new Date()]), the cutoff is exactly 7 or 30 days earlier; with 3months
    it is then 89 to 92 days earlier, and with 1year 365 or 366 days
    earlier. *)
Theorem period_windows (tz : JsDate.TimeZone) (now cutoffDate : Z) :
  cutoffFor tz "7days" now cutoffDate
    = JsDate.UTC tz
        (JsDate.LocalTime tz cutoffDate
         + (JsDate.getDate tz now - JsDate.getDate tz cutoffDate - 7)
           * JsDate.msPerDay)%Z
  ∧ cutoffFor tz "30days" now cutoffDate
    = JsDate.UTC tz
        (JsDate.LocalTime tz cutoffDate
         + (JsDate.getDate tz now - JsDate.getDate tz cutoffDate - 30)
           * JsDate.msPerDay)%Z
  ∧ ∀ offset,
      fixedOffset tz offset →
      JsDate.Day (JsDate.LocalTime tz now)
        = JsDate.Day (JsDate.LocalTime tz cutoffDate) →
      cutoffFor tz "7days" now cutoffDate
        = (cutoffDate - 7 * JsDate.msPerDay)%Z
      ∧ cutoffFor tz "30days" now cutoffDate
        = (cutoffDate - 30 * JsDate.msPerDay)%Z
      ∧ (∃ n, (89 ≤ n ≤ 92)%Z
              ∧ cutoffFor tz "3months" now cutoffDate
                = (cutoffDate - n * JsDate.msPerDay)%Z)
      ∧ (∃ n, (365 ≤ n ≤ 366)%Z
              ∧ cutoffFor tz "1year" now cutoffDate
                = (cutoffDate - n * JsDate.msPerDay)%Z).
Proof.
  unfold cutoffFor. cbn [String.eqb Ascii.eqb Bool.eqb].
  split; [rewrite setDate_moves_days; f_equal; lia|].
  split; [rewrite setDate_moves_days; f_equal; lia|].
  intros offset Hfixed Hday.
  assert (Hd : JsDate.getDate tz now = JsDate.getDate tz cutoffDate)
    by (unfold JsDate.getDate, JsDate.DateFromTime; by rewrite Hday).
  assert (Hm : JsDate.getMonth tz now = JsDate.getMonth tz cutoffDate)
    by (unfold JsDate.getMonth, JsDate.MonthFromTime; by rewrite Hday).
  assert (Hy : JsDate.getFullYear tz now = JsDate.getFullYear tz cutoffDate)
    by (unfold JsDate.getFullYear, JsDate.YearFromTime; by rewrite Hday).
  rewrite !(setDate_fixed tz offset) by done.
  rewrite Hd, Hm, Hy. split; [lia|]. split; [lia|].
  split; [by apply (setMonth_back_3 tz offset)
         | by apply (setFullYear_back_1 tz offset)].
Qed.

Lemma period_windows_witness :
  let tz := fixedZone 19800000 in
  cutoffFor tz "7days" 1717156800000 1717156800000
    = (1717156800000 - 7 * JsDate.msPerDay)%Z
  ∧ cutoffFor tz "30days" 1717156800000 1717156800000
    = (1717156800000 - 30 * JsDate.msPerDay)%Z
  ∧ (∃ n, (89 ≤ n ≤ 92)%Z
          ∧ cutoffFor tz "3months" 1717156800000 1717156800000
            = (1717156800000 - n * JsDate.msPerDay)%Z)
  ∧ (∃ n, (365 ≤ n ≤ 366)%Z
          ∧ cutoffFor tz "1year" 1717156800000 1717156800000
            = (1717156800000 - n * JsDate.msPerDay)%Z).
Proof.
  exact (proj2 (proj2 (period_windows (fixedZone 19800000) 1717156800000
                         1717156800000))
           19800000%Z (fixedZone_fixedOffset 19800000) eq_refl).
Defined.

(** Where the offset changes the window is not a whole number of days: in
    a zone that is one hour ahead of UTC until 2024-10-27 01:00 UTC and on
    UTC after, the cutoff of 7days for 2024-10-30 12:00 UTC is 7 days and
    one hour earlier. *)
Example cutoffFor_clock_change :
  let change := 1729990800000%Z in
  let tz :=
    JsDate.mkTimeZone
      (λ t, if (t <? change)%Z then 3600000%Z else 0%Z)
      (λ t, if (t <? change + 3600000)%Z then 3600000%Z else 0%Z) in
  cutoffFor tz "7days" 1730289600000 1730289600000
  = (1730289600000 - 7 * JsDate.msPerDay - 3600000)%Z.
Proof. by vm_compute. Qed.

(** ** Strings *)

Lemma string_app_cons (x : Ascii.ascii) (a b : string) :
  String x a +:+ b = String x (a +:+ b).
Proof. reflexivity. Qed.

Lemma string_app_nil_r (s : string) : s +:+ "" = s.
Proof.
  induction s as [|x s IH]; [done|]. by rewrite string_app_cons, IH.
Qed.

Lemma string_app_assoc (a b c : string) : (a +:+ b) +:+ c = a +:+ (b +:+ c).
Proof.
  induction a as [|x a IH]; [done|]. by rewrite !string_app_cons, IH.
Qed.

Lemma rev_app_app (a b c : string) :
  String.rev_app a (b +:+ c) = String.rev_app a b +:+ c.
Proof.
  revert b. induction a as [|x a IH]; intros b; [done|].
  cbn [String.rev_app]. by rewrite <- IH.
Qed.

Lemma string_rev_cons (x : Ascii.ascii) (s : string) :
  String.rev (String x s) = String.rev s +:+ String x "".
Proof.
  unfold String.rev. cbn [String.rev_app]. by rewrite <- rev_app_app.
Qed.

Lemma list_ascii_app (a b : string) :
  String.list_ascii_of_string (a +:+ b)
  = String.list_ascii_of_string a ++ String.list_ascii_of_string b.
Proof. induction a as [|x a IH]; simpl; [done | by f_equal]. Qed.

Lemma lacks_cons (c x : Ascii.ascii) (s : string) :
  lacks c (String x s) ↔ x ≠ c ∧ lacks c s.
Proof.
  unfold lacks. cbn [String.list_ascii_of_string]. rewrite not_elem_of_cons.
  split; intros [? ?]; split; congruence.
Qed.

(** Splitting at a separator that occurs first after [a]. *)
Lemma splitAux_first (sep : Ascii.ascii) (a b cur : string) :
  lacks sep a →
  Js.splitAux sep cur (a +:+ String sep b)
  = (String.rev cur +:+ a) :: Js.splitAux sep "" b.
Proof.
  revert cur. induction a as [|x a IH]; intros cur Ha.
  - change ("" +:+ String sep b) with (String sep b).
    cbn [Js.splitAux]. by rewrite Ascii.eqb_refl, string_app_nil_r.
  - apply lacks_cons in Ha as [Hx Ha].
    rewrite string_app_cons. cbn [Js.splitAux].
    destruct (Ascii.eqb_spec x sep) as [->|_]; [done|].
    rewrite IH by done. by rewrite string_rev_cons, string_app_assoc.
Qed.

Lemma splitAux_none (sep : Ascii.ascii) (a cur : string) :
  lacks sep a → Js.splitAux sep cur a = [String.rev cur +:+ a].
Proof.
  revert cur. induction a as [|x a IH]; intros cur Ha.
  - cbn [Js.splitAux]. by rewrite string_app_nil_r.
  - apply lacks_cons in Ha as [Hx Ha]. cbn [Js.splitAux].
    destruct (Ascii.eqb_spec x sep) as [->|_]; [done|].
    rewrite IH by done. by rewrite string_rev_cons, string_app_assoc.
Qed.

Lemma string_prefix_cons (x y : Ascii.ascii) (a b : string) :
  String.prefix (String x a) (String y b)
  = if decide (x = y) then String.prefix a b else false.
Proof. reflexivity. Qed.

Lemma string_app_inj (a b c : string) : a +:+ b = a +:+ c → b = c.
Proof.
  induction a as [|x a IH]; [done|]. rewrite !string_app_cons.
  intros [= H]. by apply IH.
Qed.

Lemma string_prefix_app (a b : string) : String.prefix a (a +:+ b) = true.
Proof.
  induction a as [|x a IH]; [by destruct b|].
  rewrite string_app_cons, string_prefix_cons. by rewrite decide_True.
Qed.

Lemma string_prefix_app_same (a b c : string) :
  String.prefix (a +:+ b) (a +:+ c) = String.prefix b c.
Proof.
  induction a as [|x a IH]; [done|].
  rewrite !string_app_cons, string_prefix_cons. by rewrite decide_True.
Qed.

(** Two keys of the same kind whose patient parts have no colon start the
    same way only when the patients are the same. *)
Lemma prefix_patient_inj (p q rest : string) :
  lacks ":" p → lacks ":" q →
  String.prefix (p +:+ ":") (q +:+ ":" +:+ rest) = true → p = q.
Proof.
  revert q. induction p as [|x p IH]; intros [|y q] Hp Hq; [done|..].
  - apply lacks_cons in Hq as [Hy _].
    change ("" +:+ ":") with (String ":" ""). rewrite string_app_cons, string_prefix_cons.
    by rewrite decide_False.
  - apply lacks_cons in Hp as [Hx _].
    change ("" +:+ ":" +:+ rest) with (String ":" rest).
    rewrite string_app_cons, string_prefix_cons. by rewrite decide_False.
  - apply lacks_cons in Hp as [_ Hp]. apply lacks_cons in Hq as [_ Hq].
    rewrite !string_app_cons, string_prefix_cons.
    destruct (decide (x = y)) as [->|]; [|done].
    intros H. f_equal. by apply IH.
Qed.

(** ** Authentication *)

(** X2: [verifyUser] reads the token as the second word of the header and
    does not look at the first: whatever the scheme word, Bearer or not,
    the outcome is that of the authentication service on the token.  A
    header of one word sends no token to the service. *)
Theorem verifyUser_ignores_scheme (getUser : option string → option string)
    (scheme token : string) :
  lacks " " scheme →
  lacks " " token →
  verifyUser getUser (Some (scheme +:+ " " +:+ token))
    = match getUser (Some token) with
      | Some userId => AuthUser userId
      | None => AuthError "Unauthorized" 401
      end
  ∧ (scheme ≠ "" →
     verifyUser getUser (Some scheme)
       = match getUser None with
         | Some userId => AuthUser userId
         | None => AuthError "Unauthorized" 401
         end).
Proof.
  intros Hs Ht. split.
  - unfold verifyUser, Js.split.
    change (scheme +:+ " " +:+ token) with (scheme +:+ String " " token).
    rewrite splitAux_first, splitAux_none by done. cbn [lookup list_lookup].
    destruct scheme; by cbn.
  - intros Hne. unfold verifyUser, Js.split.
    rewrite splitAux_none by done. destruct scheme; by cbn.
Qed.

Lemma verifyUser_ignores_scheme_witness :
  verifyUser (λ t, if decide (t = Some "tok1") then Some "u1" else None)
    (Some ("Basic" +:+ " " +:+ "tok1"))
  = AuthUser "u1".
Proof.
  assert (Hs : lacks " " "Basic").
  { unfold lacks. cbn. rewrite !not_elem_of_cons.
    repeat split; try discriminate. apply not_elem_of_nil. }
  assert (Ht : lacks " " "tok1").
  { unfold lacks. cbn. rewrite !not_elem_of_cons.
    repeat split; try discriminate. apply not_elem_of_nil. }
  exact (proj1 (verifyUser_ignores_scheme
                  (λ t, if decide (t = Some "tok1") then Some "u1" else None)
                  "Basic" "tok1" Hs Ht)).
Defined.

(** ** What POST /vitals writes *)

Lemma vitalKey_prefix (patientId : string) (now : Z) :
  String.prefix (vitalsPrefix patientId) (vitalKey patientId now) = true.
Proof.
  unfold vitalsPrefix, vitalKey. rewrite !string_prefix_app_same.
  apply (string_prefix_app ":").
Qed.

Lemma alertKey_prefix (patientId : string) (now : Z) (alert : Draft.t) :
  String.prefix (alertsPrefix patientId) (alertKey patientId now alert) = true.
Proof.
  unfold alertsPrefix, alertKey. rewrite !string_prefix_app_same.
  apply (string_prefix_app ":").
Qed.

(** Keys of alerts of different types differ, whatever the clock says. *)
Lemma alertKey_inj_type (patientId : string) (t t' : Z) (a a' : Draft.t) :
  (∃ vital, Draft.type a = alertType vital) →
  (∃ vital, Draft.type a' = alertType vital) →
  alertKey patientId t a = alertKey patientId t' a' →
  Draft.type a = Draft.type a'.
Proof.
  intros [v Hv] [v' Hv']. unfold alertKey. rewrite Hv, Hv'.
  intros H. do 3 apply string_app_inj in H.
  change (?p +:+ "-" +:+ ?ty) with (p +:+ ("-" +:+ ty)) in H.
  apply (f_equal String.list_ascii_of_string) in H.
  rewrite !list_ascii_app in H. apply (f_equal (@List.rev _)) in H.
  rewrite !List.rev_app_distr in H.
  destruct v, v'; try done; cbn in H; simplify_eq.
Qed.

Lemma storeAlerts_lookup_ne (patientId vitalId : string) (timestamp : Z)
    (clock : nat → Z) (alerts : list Draft.t) (n : nat)
    (kv : gmap string Stored) (key : string) :
  (∀ j b, alerts !! j = Some b →
          alertKey patientId (clock (n + j)%nat) b ≠ key) →
  storeAlerts patientId vitalId timestamp clock n alerts kv !! key = kv !! key.
Proof.
  revert n kv. induction alerts as [|a alerts IH]; intros n kv Hne; [done|].
  cbn [storeAlerts]. rewrite IH.
  - unfold kv_set. apply lookup_insert_ne.
    specialize (Hne 0%nat a eq_refl). by rewrite Nat.add_0_r in Hne.
  - intros j b Hb. specialize (Hne (S j) b Hb).
    by rewrite Nat.add_succ_r in Hne.
Qed.

Lemma storeAlerts_lookup_other (patientId vitalId : string) (timestamp : Z)
    (clock : nat → Z) (alerts : list Draft.t) (n : nat)
    (kv : gmap string Stored) (key : string) :
  String.prefix (alertsPrefix patientId) key = false →
  storeAlerts patientId vitalId timestamp clock n alerts kv !! key = kv !! key.
Proof.
  intros Hkey. apply storeAlerts_lookup_ne. intros j b _ <-.
  by rewrite alertKey_prefix in Hkey.
Qed.

Lemma storeAlerts_lookup (patientId vitalId : string) (timestamp : Z)
    (clock : nat → Z) (alerts : list Draft.t) (n : nat)
    (kv : gmap string Stored) (i : nat) (a : Draft.t) :
  NoDup (Draft.type <$> alerts) →
  (∀ b, b ∈ alerts → ∃ vital, Draft.type b = alertType vital) →
  alerts !! i = Some a →
  storeAlerts patientId vitalId timestamp clock n alerts kv
    !! alertKey patientId (clock (n + i)%nat) a
  = Some (makeAlert (alertKey patientId (clock (n + i)%nat) a) patientId
            vitalId a timestamp).
Proof.
  revert n kv i. induction alerts as [|b alerts IH]; intros n kv i Hnd Hknown Hi;
    [done|].
  cbn [fmap list_fmap] in Hnd. apply NoDup_cons in Hnd as [Hb Hnd].
  cbn [storeAlerts]. destruct i as [|i]; cbn in Hi.
  - injection Hi as ->. rewrite Nat.add_0_r.
    rewrite storeAlerts_lookup_ne; [apply lookup_insert_eq|].
    intros j c Hc Hkey. apply Hb.
    apply alertKey_inj_type in Hkey.
    + rewrite <- Hkey. apply list_elem_of_fmap. exists c. split; [done|].
      by apply list_elem_of_lookup_2 in Hc.
    + apply Hknown. right. by apply list_elem_of_lookup_2 in Hc.
    + apply Hknown. by left.
  - rewrite <- Nat.add_succ_comm. apply IH; [done| |done].
    intros c Hc. apply Hknown. by right.
Qed.

Lemma deriveAlerts_NoDup (numberToString : Q → string) (body : Body.t) :
  NoDup (Draft.type <$> deriveAlerts numberToString body).
Proof.
  rewrite deriveAlerts_split.
  unfold checkHeartRate, checkOxygenLevel, checkTemperature.
  destruct (Body.heartRate body) as [hr|], (Body.oxygenLevel body) as [o2|],
    (Body.temperature body) as [temp|];
    repeat match goal with |- context [if ?c then _ else _] => destruct c end;
    cbn;
    repeat (apply NoDup_cons_2;
            [ rewrite ?not_elem_of_cons;
              repeat split; (discriminate || apply not_elem_of_nil) |]);
    apply NoDup_nil_2.
Qed.

Lemma deriveAlerts_known (numberToString : Q → string) (body : Body.t)
    (a : Draft.t) :
  a ∈ deriveAlerts numberToString body →
  ∃ vital, Draft.type a = alertType vital.
Proof.
  intros [H|[H|H]]%deriveAlerts_types;
    [by exists HeartRate | by exists OxygenLevel | by exists Temperature].
Qed.

Lemma deriveAlerts_severity (numberToString : Q → string) (body : Body.t)
    (a : Draft.t) :
  a ∈ deriveAlerts numberToString body →
  Draft.severity a = "critical" ∨ Draft.severity a = "warning".
Proof.
  rewrite deriveAlerts_split, !elem_of_app.
  unfold checkHeartRate, checkOxygenLevel, checkTemperature.
  destruct (Body.heartRate body) as [hr|], (Body.oxygenLevel body) as [o2|],
    (Body.temperature body) as [temp|];
    repeat match goal with |- context [if ?c then _ else _] => destruct c end;
    intros [H|[H|H]];
    try (by apply elem_of_nil in H);
    apply list_elem_of_singleton in H as ->; cbn; auto.
Qed.

(** The reading and the store of an accepted request. *)
Lemma postVitals_store (numberToString : Q → string) (userId : string)
    (clock : nat → Z) (body : Body.t) (kv : gmap string Stored)
    (patientId : string) :
  Body.patientId body = Some patientId →
  patientId ≠ "" →
  let vitalId := vitalKey patientId (clock 1%nat) in
  let reading :=
    makeVitalReading vitalId patientId body (clock 0%nat) userId in
  postVitals numberToString (AuthUser userId) clock body kv
  = (Ok {| VitalsResponse.vitalReading := reading;
           VitalsResponse.alerts :=
             match deriveAlerts numberToString body with
             | [] => None
             | alerts => Some alerts
             end |},
     storeAlerts patientId vitalId (clock 0%nat) clock 2
       (deriveAlerts numberToString body)
       (<[vitalId := storedReading reading]> kv)).
Proof.
  intros Hp Hne. unfold postVitals. rewrite Hp. cbn [Js.truthyString].
  destruct (String.eqb_spec patientId "") as [|_]; [done|]. cbn [negb default].
  destruct (deriveAlerts numberToString body); reflexivity.
Qed.

(** X3: an accepted POST /vitals persists what it answers: the reading is
    stored under its own id, stamped with the time and the caller of the
    request, and every alert of the answer is stored under a key of its
    own, as an unacknowledged alert that carries the id and the timestamp
    of the reading. *)
Theorem postVitals_persists (numberToString : Q → string) (userId : string)
    (clock : nat → Z) (body : Body.t) (kv : gmap string Stored)
    (patientId : string) :
  Body.patientId body = Some patientId →
  patientId ≠ "" →
  ∃ reading kv',
    postVitals numberToString (AuthUser userId) clock body kv
      = (Ok {| VitalsResponse.vitalReading := reading;
               VitalsResponse.alerts :=
                 match deriveAlerts numberToString body with
                 | [] => None
                 | alerts => Some alerts
                 end |}, kv')
    ∧ Vital.timestamp reading = clock 0%nat
    ∧ Vital.recordedBy reading = userId
    ∧ Vital.patientId reading = patientId
    ∧ kv' !! Vital.id reading = Some (storedReading reading)
    ∧ ∀ i a, deriveAlerts numberToString body !! i = Some a →
        ∃ key stored,
          kv' !! key = Some stored
          ∧ String.prefix (alertsPrefix patientId) key = true
          ∧ payload stored
            = AlertRecord {|
                Alert.id := key;
                Alert.patientId := patientId;
                Alert.vitalId := Vital.id reading;
                Alert.type := Draft.type a;
                Alert.severity := Draft.severity a;
                Alert.value := Draft.value a;
                Alert.message := Draft.message a;
                Alert.timestamp := Vital.timestamp reading |}
          ∧ acknowledged stored = Some false.
Proof.
  intros Hp Hne. do 2 eexists.
  split; [by apply postVitals_store|]. cbn [makeVitalReading Vital.timestamp
    Vital.recordedBy Vital.patientId Vital.id].
  split; [done|]. split; [done|]. split; [done|]. split.
  - rewrite storeAlerts_lookup_other; [apply lookup_insert_eq|].
    unfold alertsPrefix, vitalKey. reflexivity.
  - intros i a Hi. do 2 eexists. split.
    + apply storeAlerts_lookup;
        [apply deriveAlerts_NoDup | apply deriveAlerts_known | exact Hi].
    + split; [apply alertKey_prefix|]. done.
Qed.

Lemma postVitals_persists_witness :
  ∃ reading kv',
    postVitals showInteger (AuthUser "u1") (λ _, 1000%Z)
      (Body.mk (Some "p1") (Some 45%Q) None (Some 89%Q) None None) ∅
    = (Ok {| VitalsResponse.vitalReading := reading;
             VitalsResponse.alerts :=
               match deriveAlerts showInteger
                       (Body.mk (Some "p1") (Some 45%Q) None (Some 89%Q) None
                          None) with
               | [] => None
               | alerts => Some alerts
               end |}, kv')
    ∧ kv' !! Vital.id reading = Some (storedReading reading)
    ∧ size kv' = 3%nat.
Proof.
  destruct (postVitals_persists showInteger "u1" (λ _, 1000%Z)
              (Body.mk (Some "p1") (Some 45%Q) None (Some 89%Q) None None) ∅
              "p1" eq_refl ltac:(discriminate))
    as (reading & kv' & Hpost & _ & _ & _ & Hread & _).
  exists reading, kv'. split; [exact Hpost|]. split; [exact Hread|].
  vm_compute in Hpost. injection Hpost as _ <-. reflexivity.
Defined.

(** A key outside the two prefixes of the patient of the request keeps its
    object. *)
Lemma postVitals_lookup_outside (numberToString : Q → string)
    (auth : AuthResult) (clock : nat → Z) (body : Body.t)
    (kv : gmap string Stored) (key : string) :
  (∀ patientId, Body.patientId body = Some patientId →
     String.prefix (vitalsPrefix patientId) key = false
     ∧ String.prefix (alertsPrefix patientId) key = false) →
  (postVitals numberToString auth clock body kv).2 !! key = kv !! key.
Proof.
  intros Hout. destruct auth as [error status|userId]; [done|].
  destruct (Body.patientId body) as [patientId|] eqn:Hp;
    [|unfold postVitals; by rewrite Hp].
  destruct (decide (patientId = "")) as [->|Hne];
    [unfold postVitals; by rewrite Hp|].
  rewrite (postVitals_store numberToString userId clock body kv patientId)
    by done.
  destruct (Hout patientId eq_refl) as [Hv Ha]. cbn [snd].
  rewrite storeAlerts_lookup_other by done.
  apply lookup_insert_ne. intros <-. by rewrite vitalKey_prefix in Hv.
Qed.

(** X4: POST /vitals writes under keys of the patient of the request and
    nowhere else: a key whose object changed starts with the patient's
    prefix of readings or of alerts, and the request was accepted.  A
    rejected request leaves the store as it was. *)
Theorem postVitals_writes_only_patient_keys (numberToString : Q → string)
    (auth : AuthResult) (clock : nat → Z) (body : Body.t)
    (kv : gmap string Stored) :
  (∀ error status,
     (postVitals numberToString auth clock body kv).1 = Error error status →
     (postVitals numberToString auth clock body kv).2 = kv)
  ∧ ∀ key,
      (postVitals numberToString auth clock body kv).2 !! key = kv !! key
      ∨ ∃ patientId r,
          Body.patientId body = Some patientId
          ∧ (postVitals numberToString auth clock body kv).1 = Ok r
          ∧ (String.prefix (vitalsPrefix patientId) key = true
             ∨ String.prefix (alertsPrefix patientId) key = true).
Proof.
  destruct auth as [error status|userId]; [by split; [|left]|].
  destruct (Body.patientId body) as [patientId|] eqn:Hp;
    [|unfold postVitals; rewrite Hp; by split; [|left]].
  destruct (decide (patientId = "")) as [->|Hne];
    [unfold postVitals; rewrite Hp; by split; [|left]|].
  rewrite (postVitals_store numberToString userId clock body kv patientId)
    by done.
  split; [done|]. intros key. cbn [fst snd].
  destruct (String.prefix (alertsPrefix patientId) key) eqn:Ha;
    [right; do 2 eexists; split; [done|]; split; [done|]; by right|].
  rewrite storeAlerts_lookup_other by done.
  destruct (decide (vitalKey patientId (clock 1%nat) = key)) as [<-|Hkey].
  - right. do 2 eexists. split; [done|]. split; [done|].
    left. apply vitalKey_prefix.
  - left. by apply lookup_insert_ne.
Qed.

(** ** The kinds of the stored objects *)

Lemma storeAlerts_storeKinds (patientId vitalId : string) (timestamp : Z)
    (clock : nat → Z) (alerts : list Draft.t) (n : nat)
    (kv : gmap string Stored) :
  (∀ a, a ∈ alerts →
        Draft.severity a = "critical" ∨ Draft.severity a = "warning") →
  storeKinds kv →
  storeKinds (storeAlerts patientId vitalId timestamp clock n alerts kv).
Proof.
  revert n kv. induction alerts as [|a alerts IH]; intros n kv Hsev Hkv;
    [done|].
  cbn [storeAlerts]. apply IH; [intros b Hb; apply Hsev; by right|].
  apply map_Forall_insert_2; [|done].
  split; [done|]. split; [|done].
  intros _. eexists. split; [reflexivity|]. apply Hsev. by left.
Qed.

Lemma postVitals_storeKinds (numberToString : Q → string)
    (auth : AuthResult) (clock : nat → Z) (body : Body.t)
    (kv : gmap string Stored) :
  storeKinds kv →
  storeKinds (postVitals numberToString auth clock body kv).2.
Proof.
  intros Hkv. unfold postVitals. destruct auth as [|userId]; [done|].
  destruct (negb _); [done|]. cbn [snd].
  apply storeAlerts_storeKinds; [apply deriveAlerts_severity|].
  apply map_Forall_insert_2; [|done].
  split; [by eexists|]. by split.
Qed.

Lemma acknowledgeAlert_storeKinds (auth : AuthResult) (clock : nat → Z)
    (alertId : string) (kv : gmap string Stored) :
  storeKinds kv →
  storeKinds (acknowledgeAlert auth clock alertId kv).2.
Proof.
  intros Hkv. unfold acknowledgeAlert, kv_get.
  destruct auth as [|userId]; [done|].
  destruct (kv !! alertId) as [o|] eqn:E; [|done]. cbn [snd].
  apply map_Forall_insert_2; [|done]. exact (Hkv alertId o E).
Qed.

(** X5: the handlers that write keep the kinds of the store: after
    POST /vitals and after an acknowledgement, every object under a key of
    readings is still a reading, every object under a key of alerts an
    alert of severity critical or warning, and every object under a key of
    profiles a profile. *)
Theorem writers_keep_storeKinds (numberToString : Q → string)
    (auth : AuthResult) (clock : nat → Z) (body : Body.t) (alertId : string)
    (kv : gmap string Stored) :
  storeKinds kv →
  storeKinds (postVitals numberToString auth clock body kv).2
  ∧ storeKinds (acknowledgeAlert auth clock alertId kv).2.
Proof.
  intros Hkv.
  split; [by apply postVitals_storeKinds | by apply acknowledgeAlert_storeKinds].
Qed.

Lemma writers_keep_storeKinds_witness :
  storeKinds
    (postVitals showInteger (AuthUser "u1") (λ _, 1000%Z)
       (Body.mk (Some "p1") (Some 45%Q) None None None None) ∅).2
  ∧ storeKinds
      (acknowledgeAlert (AuthUser "u1") (λ _, 1000%Z) "alert:p1:1" ∅).2.
Proof.
  apply (writers_keep_storeKinds showInteger (AuthUser "u1") (λ _, 1000%Z)
           (Body.mk (Some "p1") (Some 45%Q) None None None None)
           "alert:p1:1" ∅).
  apply map_Forall_empty.
Defined.

(** ** Sorting and slicing *)

Section sorting.
Context {A : Type} (key : A → Z).

Lemma sortInsert_HdRel (y x : A) (l : list A) :
  (key y ≤ key x)%Z →
  HdRel (λ a b, (key a ≤ key b)%Z) y l →
  HdRel (λ a b, (key a ≤ key b)%Z) y (Js.sortInsert key x l).
Proof.
  intros Hyx Hl. destruct l as [|z l]; cbn; [by constructor|].
  destruct (key x <=? key z)%Z; constructor; [done|].
  by apply HdRel_inv in Hl.
Qed.

Lemma sortInsert_Sorted (x : A) (l : list A) :
  Sorted (λ a b, (key a ≤ key b)%Z) l →
  Sorted (λ a b, (key a ≤ key b)%Z) (Js.sortInsert key x l).
Proof.
  induction 1 as [|y l Hl IH Hhd]; cbn; [by repeat constructor|].
  destruct (Z.leb_spec (key x) (key y)).
  - constructor; [by constructor | by constructor].
  - constructor; [done|]. apply sortInsert_HdRel; [lia | done].
Qed.

Lemma sortBy_Sorted (l : list A) :
  Sorted (λ a b, (key a ≤ key b)%Z) (Js.sortBy key l).
Proof.
  induction l as [|x l IH]; cbn; [constructor|]. by apply sortInsert_Sorted.
Qed.

End sorting.

Lemma Sorted_weaken {A} (R R' : A → A → Prop) (l : list A) :
  (∀ x y, R x y → R' x y) → Sorted R l → Sorted R' l.
Proof.
  intros HR. induction 1 as [|x l Hl IH Hhd]; constructor; [done|].
  destruct Hhd; constructor; auto.
Qed.

Lemma Sorted_take {A} (R : A → A → Prop) (n : nat) (l : list A) :
  Sorted R l → Sorted R (take n l).
Proof.
  intros Hl. revert n. induction Hl as [|x l Hl IH Hhd]; intros [|n]; cbn;
    try constructor; [apply IH|].
  destruct Hhd, n; cbn; by constructor.
Qed.

Lemma sortBy_oldestFirst {A} (key : A → Z) (l : list A) :
  oldestFirst key (Js.sortBy key l).
Proof. apply sortBy_Sorted. Qed.

Lemma sortDescBy_newestFirst {A} (key : A → Z) (l : list A) :
  newestFirst key (JsArray.sortDescBy key l).
Proof.
  unfold newestFirst, JsArray.sortDescBy.
  eapply Sorted_weaken; [|apply (sortBy_Sorted (λ x, - key x)%Z)].
  intros x y. cbn. lia.
Qed.

Lemma sortDescBy_Permutation {A} (key : A → Z) (l : list A) :
  JsArray.sortDescBy key l ≡ₚ l.
Proof. apply sortBy_Permutation. Qed.

Lemma slice0_take {A} (finish : option Z) (l : list A) :
  ∃ n, JsArray.slice0 finish l = take n l
       ∧ (finish = None → n = 0%nat)
       ∧ (∀ z, finish = Some z → (0 ≤ z)%Z →
               length (take n l) = (Z.to_nat z) `min` length l)
       ∧ (∀ z, finish = Some z → (z < 0)%Z →
               length (take n l) = (length l - Z.to_nat (- z))%nat).
Proof.
  unfold JsArray.slice0. eexists. split; [reflexivity|].
  split; [intros ->; cbn [default from_option id]; destruct (Z.ltb_spec 0 0); lia|]. split.
  - intros z -> Hz. cbn [default from_option id]. destruct (Z.ltb_spec z 0); [lia|].
    rewrite length_take. lia.
  - intros z -> Hz. cbn [default from_option id]. destruct (Z.ltb_spec z 0); [|lia].
    rewrite length_take. lia.
Qed.

(** What a prefix scan returns is what the store holds. *)
Lemma kv_getByPrefix_kinds (prefix : string) (kv : gmap string Stored)
    (o : Stored) :
  storeKinds kv →
  o ∈ kv_getByPrefix prefix kv →
  ∃ key, kv !! key = Some o ∧ String.prefix prefix key = true
         ∧ kindMatches key o.
Proof.
  intros Hkv (key & Hkey & Hp)%elem_of_kv_getByPrefix.
  exists key. split; [done|]. split; [done|]. exact (Hkv key o Hkey).
Qed.

Lemma prefix_of_prefix (a b key : string) :
  String.prefix (a +:+ b) key = true → String.prefix a key = true.
Proof.
  revert key. induction a as [|x a IH]; intros [|y key]; try done.
  rewrite string_app_cons, !string_prefix_cons.
  destruct (decide (x = y)); [apply IH | done].
Qed.

(** ** The listings *)

(** X6: GET /vitals/:patientId answers with the readings stored under the
    patient's prefix, newest first, cut after the first [limit]: what it
    returns followed by what it leaves out is all of them, in descending
    order of time.  Without a limit it returns at most 50; a limit that is
    no number returns nothing; a negative limit leaves out that many of the
    oldest.  In a store that the handlers filled every returned object is a
    reading. *)
Theorem getVitals_newest_first_limited (userId patientId : string)
    (limitQuery : option string) (kv : gmap string Stored) :
  ∃ vitals rest,
    getVitals (AuthUser userId) patientId limitQuery kv = Ok vitals
    ∧ vitals ++ rest ≡ₚ kv_getByPrefix (vitalsPrefix patientId) kv
    ∧ newestFirst timeOf (vitals ++ rest)
    ∧ (limitQuery = None →
       length vitals = 50%nat `min` length (vitals ++ rest))
    ∧ (∀ limit, limitQuery = Some limit → limit ≠ "" →
         match Js.parseInt limit with
         | None => vitals = []
         | Some n =>
             if (n <? 0)%Z then
               length vitals
               = (length (vitals ++ rest) - Z.to_nat (- n))%nat
             else length vitals = Z.to_nat n `min` length (vitals ++ rest)
         end)
    ∧ (storeKinds kv →
       ∀ v, v ∈ vitals →
            ∃ reading, payload v = VitalReading reading
                       ∧ timeOf v = Vital.timestamp reading).
Proof.
  unfold getVitals, vitalsPrefix.
  set (stored := kv_getByPrefix _ kv).
  set (sorted := JsArray.sortDescBy timeOf stored).
  set (limit := Js.parseInt _).
  destruct (slice0_take limit sorted) as (n & Hslice & Hnan & Hpos & Hneg).
  exists (take n sorted), (drop n sorted). rewrite Hslice, take_drop.
  split; [done|]. split; [apply sortDescBy_Permutation|].
  split; [apply sortDescBy_newestFirst|]. split; [|split].
  - intros ->. apply (Hpos 50%Z); [done|lia].
  - intros lim -> Hne. subst limit. cbn [Js.orString Js.truthyString].
    destruct (String.eqb_spec lim "") as [|_]; [done|]. cbn [negb] in *.
    cbn [Js.orString Js.truthyString] in Hnan, Hpos, Hneg.
    destruct (String.eqb_spec lim "") as [|_]; [done|]. cbn [negb] in *.
    destruct (Js.parseInt lim) as [z|].
    + destruct (Z.ltb_spec z 0); [by apply Hneg | by apply Hpos].
    + by rewrite (Hnan eq_refl).
  - intros Hkv v Hv.
    assert (Hin : v ∈ stored).
    { rewrite <- (sortDescBy_Permutation timeOf stored).
      fold sorted. rewrite <- (take_drop n sorted). apply elem_of_app. by left. }
    apply (kv_getByPrefix_kinds _ _ _ Hkv) in Hin as (key & _ & Hp & Hkind).
    apply prefix_of_prefix in Hp. destruct Hkind as [Hvital _].
    destruct (Hvital Hp) as [reading Hr]. exists reading. split; [done|].
    unfold timeOf, field_timestamp. by rewrite Hr.
Qed.


(** X7: GET /alerts/:patientId answers with all that is stored under the
    patient's prefix of alerts, none left out and none twice, newest first;
    in a store that the handlers filled each returned object is an alert of
    severity critical or warning. *)
Theorem getAlerts_all_newest_first (userId patientId : string)
    (kv : gmap string Stored) :
  ∃ alerts,
    getAlerts (AuthUser userId) patientId kv = Ok alerts
    ∧ alerts ≡ₚ kv_getByPrefix (alertsPrefix patientId) kv
    ∧ newestFirst timeOf alerts
    ∧ (storeKinds kv →
       ∀ a, a ∈ alerts →
            ∃ alert, payload a = AlertRecord alert
                     ∧ timeOf a = Alert.timestamp alert
                     ∧ (Alert.severity alert = "critical"
                        ∨ Alert.severity alert = "warning")).
Proof.
  unfold getAlerts, alertsPrefix. eexists. split; [reflexivity|].
  split; [apply sortDescBy_Permutation|].
  split; [apply sortDescBy_newestFirst|].
  intros Hkv a Ha. rewrite sortDescBy_Permutation in Ha.
  apply (kv_getByPrefix_kinds _ _ _ Hkv) in Ha as (key & _ & Hp & Hkind).
  apply prefix_of_prefix in Hp. destruct Hkind as (_ & Halert & _).
  destruct (Halert Hp) as (alert & Hpayload & Hsev).
  exists alert. split; [done|]. split; [|done].
  unfold timeOf, field_timestamp. by rewrite Hpayload.
Qed.

(** X8: both lists of the per-patient analytics are in ascending order of
    time, and they hold exactly the readings and the alerts stored under the
    patient's prefixes that are stamped at or after the cutoff of the
    period. *)
Theorem getAnalytics_oldest_first (tz : JsDate.TimeZone) (userId : string)
    (clock : nat → Z) (patientId : string) (periodQuery : option string)
    (kv : gmap string Stored) :
  ∃ r cutoffDate,
    getAnalytics tz (AuthUser userId) clock patientId periodQuery kv = Ok r
    ∧ cutoffDate
      = cutoffFor tz (Js.orString periodQuery "7days") (clock 0%nat)
          (clock 1%nat)
    ∧ oldestFirst timeOf (AnalyticsResponse.vitals r)
    ∧ oldestFirst timeOf (AnalyticsResponse.alerts r)
    ∧ (∀ o, o ∈ AnalyticsResponse.vitals r ↔
            o ∈ kv_getByPrefix (vitalsPrefix patientId) kv
            ∧ ∃ t, field_timestamp o = Some t ∧ (cutoffDate ≤ t)%Z)
    ∧ (∀ o, o ∈ AnalyticsResponse.alerts r ↔
            o ∈ kv_getByPrefix (alertsPrefix patientId) kv
            ∧ ∃ t, field_timestamp o = Some t ∧ (cutoffDate ≤ t)%Z).
Proof.
  unfold getAnalytics, vitalsPrefix, alertsPrefix. do 2 eexists.
  split; [reflexivity|]. split; [reflexivity|].
  cbn [AnalyticsResponse.vitals AnalyticsResponse.alerts].
  split; [apply sortBy_oldestFirst|]. split; [apply sortBy_oldestFirst|].
  split; intros o; by rewrite sortBy_Permutation, elem_of_filter_onOrAfter.
Qed.

Lemma elem_of_List_filter {A} (f : A → bool) (l : list A) (x : A) :
  x ∈ List.filter f l ↔ x ∈ l ∧ f x = true.
Proof. by rewrite !list_elem_of_In, List.filter_In. Qed.

(** X9: GET /patients answers with the profiles of role patient, all of
    them and nothing else, the one created last first: a profile of a
    doctor or of a family member is never in the answer. *)
Theorem getPatients_only_patients (userId : string)
    (kv : gmap string Stored) :
  ∃ patients,
    getPatients (AuthUser userId) kv = Ok patients
    ∧ newestFirst createdAtOf patients
    ∧ (∀ o, o ∈ patients ↔
            o ∈ kv_getByPrefix "profile:" kv
            ∧ ∃ profile, payload o = ProfileRecord profile
                         ∧ Profile.role profile = "patient").
Proof.
  unfold getPatients. eexists. split; [reflexivity|].
  split; [apply sortDescBy_newestFirst|].
  intros o. rewrite sortDescBy_Permutation, elem_of_List_filter.
  unfold isPatient, field_role.
  split; intros [Hin H]; (split; [done|]).
  - destruct (payload o) as [| |profile]; try done.
    exists profile. split; [done|]. by apply String.eqb_eq.
  - destruct H as (profile & -> & ->). done.
Qed.

(** ** The alerts of all patients *)

Lemma patientMap_lookup (l : list Stored) (m0 : gmap string Stored)
    (patientId : string) :
  match foldl (λ m p, <[profileId p := p]> m) m0 l !! patientId with
  | Some p => (p ∈ l ∧ profileId p = patientId) ∨ m0 !! patientId = Some p
  | None => m0 !! patientId = None ∧ ∀ p, p ∈ l → profileId p ≠ patientId
  end.
Proof.
  revert m0. induction l as [|q l IH]; intros m0; cbn [foldl].
  - destruct (m0 !! patientId); [by right|]. split; [done|].
    by intros p ?%elem_of_nil.
  - specialize (IH (<[profileId q := q]> m0)).
    destruct (foldl _ _ l !! patientId) as [p|].
    + destruct IH as [[Hin Hid]|Hm0]; [left; split; [by right|done]|].
      apply lookup_insert_Some in Hm0 as [[Hq <-]|[_ Hm0]];
        [left; split; [by left|done] | by right].
    + destruct IH as [Hm0 Hl]. apply lookup_insert_None in Hm0 as [Hm0 Hq].
      split; [done|]. intros p [->|Hp]%elem_of_cons; [done | by apply Hl].
Qed.

Lemma enrich_alerts (patientMap : gmap string Stored) (l : list Stored) :
  Enriched.alert <$> (enrich patientMap <$> l) = l.
Proof. induction l as [|a l IH]; cbn; [done | by rewrite IH]. Qed.

(** The body of the handler registered for /alerts/all, which no request
    reaches: it would answer with every
    stored alert, none left out, newest first, each with the name, age and
    email of a stored profile of role patient whose id is the alert's
    patientId, and as that of 'Unknown Patient' with age and email null
    when there is no such profile. *)
Lemma getAllAlerts_enriches (userId : string) (kv : gmap string Stored) :
  ∃ enriched,
    getAllAlerts (AuthUser userId) kv = Ok enriched
    ∧ Enriched.alert <$> enriched ≡ₚ kv_getByPrefix "alert:" kv
    ∧ newestFirst (λ e, timeOf (Enriched.alert e)) enriched
    ∧ ∀ e, e ∈ enriched →
        ((∀ p, p ∈ kv_getByPrefix "profile:" kv → isPatient p = true →
               Some (profileId p) ≠ field_patientId (Enriched.alert e)) →
         Enriched.patientName e = "Unknown Patient"
         ∧ Enriched.patientAge e = None
         ∧ Enriched.patientEmail e = None)
        ∧ ((∃ p, p ∈ kv_getByPrefix "profile:" kv ∧ isPatient p = true
                 ∧ Some (profileId p) = field_patientId (Enriched.alert e)) →
           ∃ p profile,
             p ∈ kv_getByPrefix "profile:" kv
             ∧ payload p = ProfileRecord profile
             ∧ Profile.role profile = "patient"
             ∧ Some (Profile.id profile)
               = field_patientId (Enriched.alert e)
             ∧ Enriched.patientName e
               = Js.orString (Some (Profile.name profile)) "Unknown Patient"
             ∧ Enriched.patientAge e = Js.orNull (Profile.age profile)
             ∧ Enriched.patientEmail e
               = Js.orNullString (Some (Profile.email profile))).
Proof.
  unfold getAllAlerts. eexists. split; [reflexivity|]. split; [|split].
  - by rewrite sortDescBy_Permutation, enrich_alerts.
  - apply sortDescBy_newestFirst.
  - intros e He. rewrite sortDescBy_Permutation in He.
    apply list_elem_of_fmap in He as (alert & -> & _).
    set (profiles := kv_getByPrefix "profile:" kv).
    unfold enrich, patientOf, patientMapOf.
    cbn [Enriched.alert Enriched.patientName Enriched.patientAge
           Enriched.patientEmail].
    destruct (field_patientId alert) as [patientId|];
      [|split; [done | by intros (p & _ & _ & ?)]].
    pose proof (patientMap_lookup (List.filter isPatient profiles) ∅ patientId)
      as Hm.
    destruct (foldl _ ∅ _ !! patientId) as [p|].
    + destruct Hm as [[Hin Hid]|Hm]; [|by rewrite lookup_empty in Hm].
      apply elem_of_List_filter in Hin as [Hin Hpat].
      split.
      * intros Hno. by destruct (Hno p Hin Hpat); rewrite Hid.
      * unfold isPatient, field_role, profileId in *.
        destruct (payload p) as [| |profile] eqn:E; try done.
        intros _. exists p, profile. split; [done|]. split; [done|].
        split; [by apply String.eqb_eq|]. split; [by rewrite Hid|]. done.
    + destruct Hm as [_ Hnone]. split; [done|].
      intros (p & Hin & Hpat & [= Hid]). exfalso.
      apply (Hnone p); [|done]. by apply elem_of_List_filter.
Qed.

(** ** The route of /alerts/all *)

Lemma firstMatch_not_all (method : Method) (path params : list string) :
  firstMatch routes method path ≠ Some (GetAllAlertsRoute, params).
Proof.
  destruct method; cbn [firstMatch routes Method_eqb];
    destruct path as [|a [|b [|c [|d rest]]]]; cbn [matchPath fmap option_fmap
      option_map];
    repeat match goal with
      | |- context [String.eqb ?x ?y] => destruct (String.eqb_spec x y)
      end;
    cbn [fmap option_fmap option_map]; congruence.
Qed.

Lemma kv_getByPrefix_none (prefix : string) (kv : gmap string Stored) :
  (∀ key, String.prefix prefix key = true → kv !! key = None) →
  kv_getByPrefix prefix kv = [].
Proof.
  intros Hnone. destruct (kv_getByPrefix prefix kv) as [|o l] eqn:E; [done|].
  assert (Hin : o ∈ kv_getByPrefix prefix kv) by (rewrite E; by left).
  apply elem_of_kv_getByPrefix in Hin as (key & Hkey & Hp).
  by rewrite (Hnone key Hp) in Hkey.
Qed.

(** X10: a GET on /alerts/all never reaches the handler registered for it.
    The route /alerts/:patientId is registered before it and matches the
    path, so that the request is answered by the handler of the alerts of
    one patient, with 'all' as the patient id: the answer is the list of
    the objects stored under alert:all:, without patient data, and it is
    empty when the store has no such key.  No request at all is answered
    by the handler registered for /alerts/all. *)
Theorem alerts_all_is_shadowed (auth : AuthResult) (kv : gmap string Stored) :
  dispatch GET "/make-server-3d5bb2df/alerts/all"
    = Some (GetAlertsRoute, ["all"])
  ∧ getAlertsAt auth "/make-server-3d5bb2df/alerts/all" kv
    = Some (PatientAlerts (getAlerts auth "all" kv))
  ∧ (∀ method url params,
       dispatch method url ≠ Some (GetAllAlertsRoute, params))
  ∧ (∀ url r, getAlertsAt auth url kv ≠ Some (AllAlerts r))
  ∧ ∀ userId,
      ∃ alerts,
        getAlerts (AuthUser userId) "all" kv = Ok alerts
        ∧ alerts ≡ₚ kv_getByPrefix (alertsPrefix "all") kv
        ∧ ((∀ key, String.prefix (alertsPrefix "all") key = true →
                   kv !! key = None) →
           alerts = []).
Proof.
  assert (Hnot : ∀ method url params,
            dispatch method url ≠ Some (GetAllAlertsRoute, params)).
  { intros method url params. unfold dispatch.
    destruct (Js.split "/" url) as [|first [|prefix path]]; [done..|].
    destruct (_ && _); [apply firstMatch_not_all | done]. }
  split; [reflexivity|]. split; [reflexivity|]. split; [exact Hnot|]. split.
  - intros url r. unfold getAlertsAt.
    destruct (dispatch GET url) as [[route params]|] eqn:E; [|done].
    destruct route; try done.
    + by destruct params as [|patientId [|]].
    + by destruct (Hnot GET url params).
  - intros userId. unfold getAlerts. fold (alertsPrefix "all").
    eexists. split; [reflexivity|].
    split; [apply sortDescBy_Permutation|].
    intros Hnone. by rewrite kv_getByPrefix_none.
Qed.


(** ** Prefix scans and changes of the store *)

Lemma List_filter_NoDup {A} (f : A → bool) (l : list A) :
  NoDup l → NoDup (List.filter f l).
Proof.
  induction 1 as [|x l Hx Hl IH]; cbn; [constructor|].
  destruct (f x); [|done]. constructor; [|done].
  rewrite elem_of_List_filter. tauto.
Qed.

(** A prefix scan lists the entries of the store restricted to the keys
    with the prefix. *)
Lemma kv_getByPrefix_restrict (prefix : string) (kv : gmap string Stored) :
  kv_getByPrefix prefix kv
  ≡ₚ (map_to_list
        (filter (λ entry, String.prefix prefix entry.1 = true) kv)).*2.
Proof.
  unfold kv_getByPrefix. apply fmap_Permutation.
  apply NoDup_Permutation.
  - apply List_filter_NoDup, NoDup_map_to_list.
  - apply NoDup_map_to_list.
  - intros [key o]. rewrite elem_of_List_filter, !elem_of_map_to_list.
    rewrite map_lookup_filter_Some. cbn. tauto.
Qed.

Lemma kv_getByPrefix_agree (prefix : string) (kv kv' : gmap string Stored) :
  (∀ key, String.prefix prefix key = true → kv' !! key = kv !! key) →
  kv_getByPrefix prefix kv' ≡ₚ kv_getByPrefix prefix kv.
Proof.
  intros Hsame. rewrite !kv_getByPrefix_restrict.
  replace (filter (λ entry, String.prefix prefix entry.1 = true) kv')
    with (filter (λ entry, String.prefix prefix entry.1 = true) kv); [done|].
  apply map_filter_strong_ext. intros key o. cbn.
  split; intros [Hp Hkey]; (split; [done|]); by rewrite Hsame in * || rewrite <- Hsame.
Qed.

(** Replacing the object under a key with the prefix replaces it in the
    scan and leaves the rest of the scan as it is. *)
Lemma kv_getByPrefix_replace (prefix key : string) (o o' : Stored)
    (kv : gmap string Stored) :
  kv !! key = Some o →
  String.prefix prefix key = true →
  ∃ rest,
    kv_getByPrefix prefix kv ≡ₚ o :: rest
    ∧ kv_getByPrefix prefix (<[key := o']> kv) ≡ₚ o' :: rest.
Proof.
  intros Hkey Hp.
  exists (map_to_list
            (delete key
               (filter (λ entry, String.prefix prefix entry.1 = true) kv))).*2.
  rewrite !kv_getByPrefix_restrict. split.
  - rewrite <- (map_to_list_delete _ key o); [done|].
    by apply map_lookup_filter_Some.
  - rewrite map_filter_insert_True by done.
    rewrite <- insert_delete_eq.
    rewrite map_to_list_insert by apply lookup_delete_eq. done.
Qed.

(** Inserting under a key with the prefix puts the object in the scan. *)
Lemma kv_getByPrefix_insert (prefix key : string) (o : Stored)
    (kv : gmap string Stored) :
  String.prefix prefix key = true →
  o ∈ kv_getByPrefix prefix (<[key := o]> kv).
Proof.
  intros Hp. apply elem_of_kv_getByPrefix. exists key.
  split; [apply lookup_insert_eq | done].
Qed.

Lemma prefix_comparable (a b key : string) :
  String.prefix a key = true → String.prefix b key = true →
  String.prefix a b = true ∨ String.prefix b a = true.
Proof.
  revert b key. induction a as [|x a IH]; intros [|y b] [|z key]; try (by auto).
  rewrite !string_prefix_cons.
  destruct (decide (x = z)) as [->|]; [|done].
  destruct (decide (y = z)) as [->|]; [|done].
  rewrite decide_True by done. apply IH.
Qed.

(** Keys of two patients without colons in their ids never share a
    prefix. *)
Lemma patient_prefixes_disjoint (tag p q key : string) :
  lacks ":" p → lacks ":" q → p ≠ q →
  String.prefix (tag +:+ p +:+ ":") key = true →
  String.prefix (tag +:+ q +:+ ":") key = false.
Proof.
  intros Hp Hq Hne Hpk.
  destruct (String.prefix (tag +:+ q +:+ ":") key) eqn:Hqk; [|done].
  destruct (prefix_comparable _ _ _ Hpk Hqk) as [H|H];
    rewrite string_prefix_app_same in H;
    change (?r +:+ ":") with (r +:+ ":" +:+ "") in H at 2;
    apply prefix_patient_inj in H; congruence.
Qed.

(** ** Patients do not see each other's requests *)

Lemma List_filter_Permutation {A} (f : A → bool) (l l' : list A) :
  l ≡ₚ l' → List.filter f l ≡ₚ List.filter f l'.
Proof.
  induction 1 as [|x l l' _ IH|x y l|l l' l'' _ IH _ IH']; cbn.
  - done.
  - destruct (f x); by rewrite IH.
  - destruct (f x), (f y); try done. apply perm_swap.
  - by etrans.
Qed.

Lemma patientStats_Permutation (vitals vitals' alerts alerts' : list Stored) :
  vitals ≡ₚ vitals' → alerts ≡ₚ alerts' →
  patientStats vitals alerts = patientStats vitals' alerts'.
Proof.
  intros Hv Ha. unfold patientStats.
  f_equal; apply Permutation_length; try apply List_filter_Permutation; done.
Qed.

(** A key under a prefix of readings is under no prefix of alerts, and the
    other way round. *)
Lemma vitals_not_alerts (p q key : string) :
  String.prefix (vitalsPrefix p) key = true →
  String.prefix (alertsPrefix q) key = false.
Proof.
  unfold vitalsPrefix, alertsPrefix. destruct key as [|c key]; [done|].
  rewrite !string_app_cons, !string_prefix_cons.
  destruct (decide ("v"%char = c)) as [<-|]; [|done]. intros _.
  by rewrite decide_False.
Qed.

Lemma alerts_not_vitals (p q key : string) :
  String.prefix (alertsPrefix p) key = true →
  String.prefix (vitalsPrefix q) key = false.
Proof.
  unfold vitalsPrefix, alertsPrefix. destruct key as [|c key]; [done|].
  rewrite !string_app_cons, !string_prefix_cons.
  destruct (decide ("a"%char = c)) as [<-|]; [|done]. intros _.
  by rewrite decide_False.
Qed.

(** X11: a POST /vitals for one patient leaves what another patient gets
    as it was, when neither id holds a colon: the readings and the alerts
    under the other patient's prefixes are the same up to their order, and
    so are the lists and the statistics of the other patient's
    analytics. *)
Theorem postVitals_isolates_patients (numberToString : Q → string)
    (auth : AuthResult) (clock : nat → Z) (body : Body.t)
    (kv : gmap string Stored) (patientId userId : string)
    (tz : JsDate.TimeZone) (clock' : nat → Z)
    (periodQuery : option string) :
  lacks ":" patientId →
  (∀ other, Body.patientId body = Some other →
            lacks ":" other ∧ other ≠ patientId) →
  let kv' := (postVitals numberToString auth clock body kv).2 in
  kv_getByPrefix (vitalsPrefix patientId) kv'
    ≡ₚ kv_getByPrefix (vitalsPrefix patientId) kv
  ∧ kv_getByPrefix (alertsPrefix patientId) kv'
    ≡ₚ kv_getByPrefix (alertsPrefix patientId) kv
  ∧ ∃ before after,
      getAnalytics tz (AuthUser userId) clock' patientId periodQuery kv
        = Ok before
      ∧ getAnalytics tz (AuthUser userId) clock' patientId periodQuery kv'
        = Ok after
      ∧ AnalyticsResponse.vitals after ≡ₚ AnalyticsResponse.vitals before
      ∧ AnalyticsResponse.alerts after ≡ₚ AnalyticsResponse.alerts before
      ∧ AnalyticsResponse.stats after = AnalyticsResponse.stats before.
Proof.
  intros Hp Hother kv'.
  assert (Hv : kv_getByPrefix (vitalsPrefix patientId) kv'
               ≡ₚ kv_getByPrefix (vitalsPrefix patientId) kv).
  { apply kv_getByPrefix_agree. intros key Hkey.
    apply postVitals_lookup_outside. intros other Ho.
    destruct (Hother other Ho) as [Hl Hne]. split.
    - by apply (patient_prefixes_disjoint "vitals:" patientId other).
    - by apply (vitals_not_alerts patientId). }
  assert (Ha : kv_getByPrefix (alertsPrefix patientId) kv'
               ≡ₚ kv_getByPrefix (alertsPrefix patientId) kv).
  { apply kv_getByPrefix_agree. intros key Hkey.
    apply postVitals_lookup_outside. intros other Ho.
    destruct (Hother other Ho) as [Hl Hne]. split.
    - by apply (alerts_not_vitals patientId).
    - by apply (patient_prefixes_disjoint "alert:" patientId other). }
  split; [done|]. split; [done|].
  unfold getAnalytics. do 2 eexists.
  split; [reflexivity|]. split; [reflexivity|].
  cbn [AnalyticsResponse.vitals AnalyticsResponse.alerts
       AnalyticsResponse.stats].
  fold (vitalsPrefix patientId). fold (alertsPrefix patientId).
  assert (Hv' : ∀ cutoff,
    Js.sortBy timeOf (List.filter (onOrAfter cutoff)
                        (kv_getByPrefix (vitalsPrefix patientId) kv'))
    ≡ₚ Js.sortBy timeOf (List.filter (onOrAfter cutoff)
                           (kv_getByPrefix (vitalsPrefix patientId) kv))).
  { intros cutoff. rewrite !sortBy_Permutation.
    by apply List_filter_Permutation. }
  assert (Ha' : ∀ cutoff,
    Js.sortBy timeOf (List.filter (onOrAfter cutoff)
                        (kv_getByPrefix (alertsPrefix patientId) kv'))
    ≡ₚ Js.sortBy timeOf (List.filter (onOrAfter cutoff)
                           (kv_getByPrefix (alertsPrefix patientId) kv))).
  { intros cutoff. rewrite !sortBy_Permutation.
    by apply List_filter_Permutation. }
  split; [apply Hv'|]. split; [apply Ha'|].
  by apply patientStats_Permutation.
Qed.

Lemma postVitals_isolates_patients_witness :
  let kv' :=
    (postVitals showInteger (AuthUser "u2") (λ _, 1000%Z)
       (Body.mk (Some "p2") (Some 45%Q) None None None None) ∅).2 in
  kv_getByPrefix (vitalsPrefix "p1") kv' ≡ₚ kv_getByPrefix (vitalsPrefix "p1") ∅
  ∧ kv_getByPrefix (alertsPrefix "p1") kv'
    ≡ₚ kv_getByPrefix (alertsPrefix "p1") ∅
  ∧ ∃ before after,
      getAnalytics utcZone (AuthUser "u1") (λ _, 2000%Z) "p1" None ∅
        = Ok before
      ∧ getAnalytics utcZone (AuthUser "u1") (λ _, 2000%Z) "p1" None kv'
        = Ok after
      ∧ AnalyticsResponse.vitals after ≡ₚ AnalyticsResponse.vitals before
      ∧ AnalyticsResponse.alerts after ≡ₚ AnalyticsResponse.alerts before
      ∧ AnalyticsResponse.stats after = AnalyticsResponse.stats before.
Proof.
  assert (H1 : lacks ":" "p1").
  { unfold lacks. cbn. rewrite !not_elem_of_cons.
    repeat split; try discriminate. apply not_elem_of_nil. }
  assert (H2 : lacks ":" "p2").
  { unfold lacks. cbn. rewrite !not_elem_of_cons.
    repeat split; try discriminate. apply not_elem_of_nil. }
  apply (postVitals_isolates_patients showInteger (AuthUser "u2")
           (λ _, 1000%Z)
           (Body.mk (Some "p2") (Some 45%Q) None None None None) ∅
           "p1" "u1" utcZone (λ _, 2000%Z) None H1).
  intros other Ho. injection Ho as <-. split; [exact H2 | discriminate].
Defined.

(** ** From a request to the analytics *)

Lemma cutoffFor_days (tz : JsDate.TimeZone) (offset : Z)
    (periodQuery : option string) (days now cutoffDate : Z) :
  fixedOffset tz offset →
  (periodQuery, days)
    ∈ [(None, 7%Z); (Some "7days", 7%Z); (Some "30days", 30%Z)] →
  JsDate.Day (JsDate.LocalTime tz now)
    = JsDate.Day (JsDate.LocalTime tz cutoffDate) →
  cutoffFor tz (Js.orString periodQuery "7days") now cutoffDate
  = (cutoffDate - days * JsDate.msPerDay)%Z.
Proof.
  intros Hfixed Hin Hday.
  assert (Hd : JsDate.getDate tz now = JsDate.getDate tz cutoffDate)
    by (unfold JsDate.getDate, JsDate.DateFromTime; by rewrite Hday).
  rewrite !elem_of_cons in Hin.
  destruct Hin as [H|[H|[H|H]]]; [..|by apply elem_of_nil in H];
    injection H as -> ->; unfold cutoffFor;
    cbn [Js.orString Js.truthyString String.eqb Ascii.eqb Bool.eqb negb];
    rewrite (setDate_fixed tz offset), Hd by done; lia.
Qed.

(** X12: what an accepted POST /vitals stores comes back from the
    patient's analytics of 7 or 30 days: when the server's time zone has an
    offset from UTC that never changes and both clock readings of the
    analytics request fall on one local day, the reading is in the answer
    exactly if its timestamp is no more than that many days before the
    second clock reading, and then so is every alert that the request
    created. *)
Theorem ingested_reading_in_analytics (numberToString : Q → string)
    (userId : string) (clock : nat → Z) (body : Body.t)
    (kv : gmap string Stored) (patientId reader : string)
    (tz : JsDate.TimeZone) (offset : Z) (clock' : nat → Z)
    (periodQuery : option string) (days : Z) :
  Body.patientId body = Some patientId →
  patientId ≠ "" →
  (periodQuery, days)
    ∈ [(None, 7%Z); (Some "7days", 7%Z); (Some "30days", 30%Z)] →
  fixedOffset tz offset →
  JsDate.Day (JsDate.LocalTime tz (clock' 0%nat))
    = JsDate.Day (JsDate.LocalTime tz (clock' 1%nat)) →
  let vitalId := vitalKey patientId (clock 1%nat) in
  let reading :=
    makeVitalReading vitalId patientId body (clock 0%nat) userId in
  let kv' := (postVitals numberToString (AuthUser userId) clock body kv).2 in
  ∃ r,
    getAnalytics tz (AuthUser reader) clock' patientId periodQuery kv' = Ok r
    ∧ (storedReading reading ∈ AnalyticsResponse.vitals r
       ↔ (clock' 1%nat - days * JsDate.msPerDay ≤ clock 0%nat)%Z)
    ∧ ∀ i a,
        deriveAlerts numberToString body !! i = Some a →
        (clock' 1%nat - days * JsDate.msPerDay ≤ clock 0%nat)%Z →
        makeAlert (alertKey patientId (clock (2 + i)%nat) a) patientId
          vitalId a (clock 0%nat)
          ∈ AnalyticsResponse.alerts r.
Proof.
  intros Hp Hne Hin Hfixed Hday vitalId reading kv'.
  unfold getAnalytics. eexists. split; [reflexivity|].
  cbn [AnalyticsResponse.vitals AnalyticsResponse.alerts].
  rewrite (cutoffFor_days tz offset periodQuery days) by done.
  fold (vitalsPrefix patientId). fold (alertsPrefix patientId).
  assert (Hkv' : kv' = storeAlerts patientId vitalId (clock 0%nat) clock 2
                         (deriveAlerts numberToString body)
                         (<[vitalId := storedReading reading]> kv)).
  { unfold kv'.
    by rewrite (postVitals_store numberToString userId clock body kv
                  patientId). }
  split; [split|].
  - rewrite sortBy_Permutation, elem_of_filter_onOrAfter.
    intros [_ (t & Ht & Hle)]. cbn in Ht. by injection Ht as <-.
  - intros Hle. rewrite sortBy_Permutation, elem_of_filter_onOrAfter.
    split; [|by exists (clock 0%nat)].
    apply elem_of_kv_getByPrefix. exists vitalId.
    split; [|apply vitalKey_prefix].
    rewrite Hkv', storeAlerts_lookup_other; [apply lookup_insert_eq|].
    apply (vitals_not_alerts patientId), vitalKey_prefix.
  - intros i a Hi Hle. rewrite sortBy_Permutation, elem_of_filter_onOrAfter.
    split; [|by exists (clock 0%nat)].
    apply elem_of_kv_getByPrefix.
    exists (alertKey patientId (clock (2 + i)%nat) a).
    split; [|apply alertKey_prefix].
    rewrite Hkv'.
    apply storeAlerts_lookup;
      [apply deriveAlerts_NoDup | apply deriveAlerts_known | exact Hi].
Qed.

Lemma ingested_reading_in_analytics_witness :
  let vitalId := vitalKey "p1" 1717156800000 in
  let body := Body.mk (Some "p1") (Some 45%Q) None None None None in
  let reading := makeVitalReading vitalId "p1" body 1717156800000 "u1" in
  let kv' :=
    (postVitals showInteger (AuthUser "u1") (λ _, 1717156800000%Z) body ∅).2 in
  ∃ r,
    getAnalytics (fixedZone 19800000) (AuthUser "u2")
      (λ _, 1717156800000%Z) "p1" None kv' = Ok r
    ∧ (storedReading reading ∈ AnalyticsResponse.vitals r
       ↔ (1717156800000 - 7 * JsDate.msPerDay ≤ 1717156800000)%Z)
    ∧ ∀ i a,
        deriveAlerts showInteger body !! i = Some a →
        (1717156800000 - 7 * JsDate.msPerDay ≤ 1717156800000)%Z →
        makeAlert (alertKey "p1" 1717156800000 a) "p1" vitalId a
          1717156800000
          ∈ AnalyticsResponse.alerts r.
Proof.
  apply (ingested_reading_in_analytics showInteger "u1"
           (λ _, 1717156800000%Z)
           (Body.mk (Some "p1") (Some 45%Q) None None None None) ∅
           "p1" "u2" (fixedZone 19800000) 19800000%Z
           (λ _, 1717156800000%Z) None 7%Z).
  - reflexivity.
  - discriminate.
  - constructor.
  - apply fixedZone_fixedOffset.
  - reflexivity.
Defined.

(** ** Acknowledging and the alerts page *)

Lemma isAcknowledged_copy (alert : Stored) (userId : string) (now : Z) :
  isAcknowledged (acknowledgedCopy alert userId now) = true.
Proof. reflexivity. Qed.

(** X13: acknowledging an alert stored under a key of the patient replaces
    it in what GET /alerts/:patientId returns and touches nothing else
    there: the answer keeps its other elements, the acknowledged alert
    keeps its place in time, and on the alerts page it is among the
    resolved alerts while the active alerts are those of the rest. *)
Theorem acknowledge_moves_alert_to_resolved (userId reader : string)
    (clock : nat → Z) (alertId patientId : string) (alert : Stored)
    (kv : gmap string Stored) :
  kv !! alertId = Some alert →
  String.prefix (alertsPrefix patientId) alertId = true →
  let updated := acknowledgedCopy alert userId (clock 0%nat) in
  let kv' := (acknowledgeAlert (AuthUser userId) clock alertId kv).2 in
  ∃ before after rest,
    getAlerts (AuthUser reader) patientId kv = Ok before
    ∧ getAlerts (AuthUser reader) patientId kv' = Ok after
    ∧ before ≡ₚ alert :: rest
    ∧ after ≡ₚ updated :: rest
    ∧ timeOf updated = timeOf alert
    ∧ resolvedAlerts after ≡ₚ updated :: resolvedAlerts rest
    ∧ activeAlerts after ≡ₚ activeAlerts rest.
Proof.
  intros Hkey Hp updated kv'.
  destruct (kv_getByPrefix_replace (alertsPrefix patientId) alertId alert
              updated kv Hkey Hp) as (rest & Hbefore & Hafter).
  assert (Hkv' : kv' = <[alertId := updated]> kv).
  { unfold kv'. by rewrite (acknowledgeAlert_found userId clock alertId kv
                              alert). }
  unfold getAlerts. fold (alertsPrefix patientId).
  exists (JsArray.sortDescBy timeOf (kv_getByPrefix (alertsPrefix patientId) kv)),
    (JsArray.sortDescBy timeOf (kv_getByPrefix (alertsPrefix patientId) kv')),
    rest.
  split; [done|]. split; [done|].
  assert (Hafter' :
    JsArray.sortDescBy timeOf (kv_getByPrefix (alertsPrefix patientId) kv')
    ≡ₚ updated :: rest).
  { by rewrite sortDescBy_Permutation, Hkv'. }
  split; [by rewrite sortDescBy_Permutation|]. split; [done|].
  split; [done|]. split.
  - unfold resolvedAlerts.
    rewrite (List_filter_Permutation _ _ _ Hafter'). cbn [List.filter].
    by change (isAcknowledged updated) with true.
  - unfold activeAlerts.
    rewrite (List_filter_Permutation _ _ _ Hafter'). cbn [List.filter].
    by change (isAcknowledged updated) with true.
Qed.

Lemma acknowledge_moves_alert_to_resolved_witness :
  let alert :=
    makeAlert "alert:p1:1000-Heart Rate" "p1" "vitals:p1:1000"
      (Draft.mk "Heart Rate" "critical" 30%Q "Heart rate below normal range")
      1000 in
  let kv : gmap string Stored := {[ "alert:p1:1000-Heart Rate" := alert ]} in
  let updated := acknowledgedCopy alert "d1" 2000 in
  let kv' :=
    (acknowledgeAlert (AuthUser "d1") (λ _, 2000%Z)
       "alert:p1:1000-Heart Rate" kv).2 in
  ∃ before after rest,
    getAlerts (AuthUser "p1") "p1" kv = Ok before
    ∧ getAlerts (AuthUser "p1") "p1" kv' = Ok after
    ∧ before ≡ₚ alert :: rest
    ∧ after ≡ₚ updated :: rest
    ∧ timeOf updated = timeOf alert
    ∧ resolvedAlerts after ≡ₚ updated :: resolvedAlerts rest
    ∧ activeAlerts after ≡ₚ activeAlerts rest.
Proof.
  apply (acknowledge_moves_alert_to_resolved "d1" "p1" (λ _, 2000%Z)
           "alert:p1:1000-Heart Rate" "p1").
  - apply lookup_singleton_eq.
  - reflexivity.
Defined.

(** X14: the two tabs of the alerts page split the alerts: an alert is
    active unless its [acknowledged] property is true, so also when it has
    none, it is resolved exactly when the property is true, and the two
    lists together have as many elements as there are alerts. *)
Theorem alerts_page_partition (alerts : list Stored) :
  (∀ a, a ∈ activeAlerts alerts ↔ a ∈ alerts ∧ acknowledged a ≠ Some true)
  ∧ (∀ a, a ∈ resolvedAlerts alerts ↔ a ∈ alerts ∧ acknowledged a = Some true)
  ∧ (length (activeAlerts alerts) + length (resolvedAlerts alerts)
     = length alerts)%nat.
Proof.
  unfold activeAlerts, resolvedAlerts. split; [|split].
  - intros a. rewrite elem_of_List_filter. unfold isAcknowledged.
    destruct (acknowledged a) as [[]|]; cbn;
      split; intros [Ha Hb]; (split; [exact Ha|]); congruence.
  - intros a. rewrite elem_of_List_filter. unfold isAcknowledged.
    destruct (acknowledged a) as [[]|]; cbn;
      split; intros [Ha Hb]; (split; [exact Ha|]); congruence.
  - induction alerts as [|a alerts IH]; [done|]. cbn.
    destruct (isAcknowledged a); cbn; lia.
Qed.

(** ** Severity counts *)

Lemma severity_counts (alerts : list Stored) :
  (∀ a, a ∈ alerts →
        ∃ alert, payload a = AlertRecord alert
                 ∧ (Alert.severity alert = "critical"
                    ∨ Alert.severity alert = "warning")) →
  (length (List.filter (hasSeverity "critical") alerts)
   + length (List.filter (hasSeverity "warning") alerts)
   = length alerts)%nat.
Proof.
  induction alerts as [|a alerts IH]; intros H; [done|]. cbn.
  destruct (H a) as (alert & Hpayload & Hsev); [by left|].
  assert (IH' := IH (λ b Hb, H b (list_elem_of_further _ _ _ Hb))).
  assert (Hc : ∀ severity,
    hasSeverity severity a = String.eqb (Alert.severity alert) severity).
  { intros severity. unfold hasSeverity, field_severity. by rewrite Hpayload. }
  rewrite !Hc. destruct Hsev as [-> | ->]; cbn; lia.
Qed.

Lemma alerts_under_prefix (prefix : string) (kv : gmap string Stored)
    (a : Stored) :
  storeKinds kv →
  String.prefix "alert:" prefix = true →
  a ∈ kv_getByPrefix prefix kv →
  ∃ alert, payload a = AlertRecord alert
           ∧ (Alert.severity alert = "critical"
              ∨ Alert.severity alert = "warning").
Proof.
  intros Hkv Hprefix Ha.
  destruct (kv_getByPrefix_kinds prefix kv a Hkv Ha)
    as (key & _ & Hkey & _ & Halert & _).
  apply Halert. clear -Hprefix Hkey.
  revert prefix key Hprefix Hkey. generalize "alert:" as tag.
  induction tag as [|c tag IH]; intros [|p prefix] [|k key]; try done.
  rewrite !string_prefix_cons.
  destruct (decide (c = p)) as [->|]; [|done].
  destruct (decide (p = k)) as [->|]; [|done]. apply IH.
Qed.

(** X15: in a store that the handlers filled, every alert counts as
    critical or as warning, never as both and never as neither: in the
    statistics of a patient's analytics and of the aggregate analytics,
    criticalAlerts and warningAlerts add up to totalAlerts. *)
Theorem alert_counts_add_up (tz : JsDate.TimeZone) (userId : string)
    (clock : nat → Z) (patientId : string) (periodQuery : option string)
    (kv : gmap string Stored) :
  storeKinds kv →
  ∃ r all,
    getAnalytics tz (AuthUser userId) clock patientId periodQuery kv = Ok r
    ∧ getAggregateAnalytics tz (AuthUser userId) clock periodQuery kv
      = Ok all
    ∧ (PatientStats.criticalAlerts (AnalyticsResponse.stats r)
       + PatientStats.warningAlerts (AnalyticsResponse.stats r)
       = PatientStats.totalAlerts (AnalyticsResponse.stats r))%nat
    ∧ (AggregateStats.criticalAlerts (AggregateResponse.stats all)
       + AggregateStats.warningAlerts (AggregateResponse.stats all)
       = AggregateStats.totalAlerts (AggregateResponse.stats all))%nat.
Proof.
  intros Hkv. unfold getAnalytics, getAggregateAnalytics. do 2 eexists.
  split; [reflexivity|]. split; [reflexivity|].
  cbn [AnalyticsResponse.stats AggregateResponse.stats patientStats
       aggregateStats PatientStats.criticalAlerts PatientStats.warningAlerts
       PatientStats.totalAlerts AggregateStats.criticalAlerts
       AggregateStats.warningAlerts AggregateStats.totalAlerts].
  split; apply severity_counts; intros a Ha.
  - rewrite sortBy_Permutation in Ha.
    apply elem_of_filter_onOrAfter in Ha as [Ha _].
    apply (alerts_under_prefix (alertsPrefix patientId) kv);
      [done | apply (string_prefix_app "alert:") | done].
  - apply elem_of_filter_onOrAfter in Ha as [Ha _].
    by apply (alerts_under_prefix "alert:" kv).
Qed.

Lemma alert_counts_add_up_witness :
  let kv :=
    (postVitals showInteger (AuthUser "u1") (λ _, 1717156800000%Z)
       (Body.mk (Some "p1") (Some 45%Q) None (Some 89%Q) None None) ∅).2 in
  ∃ r all,
    getAnalytics utcZone (AuthUser "p1") (λ _, 1717156800000%Z) "p1" None kv
      = Ok r
    ∧ getAggregateAnalytics utcZone (AuthUser "p1") (λ _, 1717156800000%Z)
        None kv
      = Ok all
    ∧ (PatientStats.criticalAlerts (AnalyticsResponse.stats r)
       + PatientStats.warningAlerts (AnalyticsResponse.stats r)
       = PatientStats.totalAlerts (AnalyticsResponse.stats r))%nat
    ∧ (AggregateStats.criticalAlerts (AggregateResponse.stats all)
       + AggregateStats.warningAlerts (AggregateResponse.stats all)
       = AggregateStats.totalAlerts (AggregateResponse.stats all))%nat.
Proof.
  apply (alert_counts_add_up utcZone "p1" (λ _, 1717156800000%Z) "p1" None).
  apply postVitals_storeKinds, map_Forall_empty.
Defined.

(** ** Alerts and normal readings agree *)

Lemma field_stored (vital : CheckedVital) (vitalId patientId : string)
    (body : Body.t) (timestamp : Z) (userId : string) :
  field vital
    (storedReading (makeVitalReading vitalId patientId body timestamp userId))
  = Js.orNull (submitted vital body).
Proof. by destruct vital. Qed.

Lemma normalFlag_stored (numberToString : Q → string) (vital : CheckedVital)
    (vitalId patientId : string) (body : Body.t) (timestamp : Z)
    (userId : string) :
  normalFlag vital
    (storedReading (makeVitalReading vitalId patientId body timestamp userId))
    = true
  ↔ alertsOfType (alertType vital) (deriveAlerts numberToString body) = [].
Proof.
  rewrite normalFlag_spec.
  setoid_rewrite field_stored.
  pose proof (alerts_of_vital numberToString body vital) as H. cbn zeta in H.
  unfold Js.orNull, Js.truthy.
  destruct (submitted vital body) as [x|]; [|done].
  destruct (truthyNumber_cases x) as [[Hz ->]|[Hnz ->]].
  - destruct H as [[_ ?]|(? & _)]; done.
  - destruct H as [[Hok Hnone]|(_ & Hnb & a & Hone & _)].
    + split; [done|]. by intros _ y [= <-].
    + split; [|by rewrite Hone].
      intros Hn. destruct (Hn x eq_refl); done.
Qed.

(** X16: the analytics and the alerts agree on the readings that
    POST /vitals stores: the stored reading passes the callback of
    normalReadings exactly when the request created no alert, and then the
    dashboard calls each of the three checked vitals normal. *)
Theorem normal_reading_iff_no_alert (numberToString : Q → string)
    (vitalId patientId : string) (body : Body.t) (timestamp : Z)
    (userId : string) :
  let reading := makeVitalReading vitalId patientId body timestamp userId in
  (isNormalReading (storedReading reading) = true
   ↔ deriveAlerts numberToString body = [])
  ∧ (deriveAlerts numberToString body = [] ↔
     ∀ vital,
       getVitalStatus (statusArg vital (recorded vital reading)) = "normal").
Proof.
  intros reading.
  assert (Hnone : deriveAlerts numberToString body = [] ↔
    ∀ vital,
      alertsOfType (alertType vital) (deriveAlerts numberToString body) = []).
  { split; [by intros ->|]. intros H.
    rewrite deriveAlerts_by_type. by rewrite !H. }
  split.
  - rewrite Hnone. unfold isNormalReading. rewrite !andb_true_iff. split.
    + intros [[Hhr Ho2] Htemp] vital.
      apply (normalFlag_stored numberToString vital vitalId patientId body
               timestamp userId).
      by destruct vital.
    + intros H.
      repeat split;
        [ apply (normalFlag_stored numberToString HeartRate)
        | apply (normalFlag_stored numberToString OxygenLevel)
        | apply (normalFlag_stored numberToString Temperature) ];
        apply H.
  - rewrite Hnone. apply forall_proper. intros vital.
    rewrite <- (normalFlag_stored numberToString vital vitalId patientId body
                  timestamp userId).
    fold reading.
    assert (Hr : recorded vital reading = Js.orNull (submitted vital body))
      by (by destruct vital).
    rewrite Hr. unfold Js.orNull, Js.truthy.
    destruct vital; cbn;
      unfold hrNormal, o2Normal, tempNormal, field_heartRate,
        field_oxygenLevel, field_temperature; cbn;
      unfold Js.orNull, Js.truthy;
      match goal with
      | |- context [match ?v with Some _ => _ | None => _ end] =>
          destruct v as [x|]; [|done]
      end;
      destruct (Js.truthyNumber x) eqn:E; cbn; rewrite ?E; cbn;
      try done;
      match goal with
      | |- context [if ?b then _ else _] => by destruct b
      end.
Qed.

(** ** Relative times on the dashboard *)

(** X17: [getTimeAgo] counts whole units of the time elapsed: less than a
    minute, which includes every timestamp in the future, is 'Just now';
    after that the number shown is the elapsed time in whole minutes, from
    1 to 59, then in whole hours, from 1 to 23, then in whole days. *)
Theorem getTimeAgo_whole_units (now timestamp : Z) :
  ((now - timestamp < 60000)%Z → getTimeAgo now timestamp = "Just now")
  ∧ ((60000 ≤ now - timestamp < 3600000)%Z →
     ∃ n, (1 ≤ n ≤ 59)%Z
          ∧ (n * 60000 ≤ now - timestamp < (n + 1) * 60000)%Z
          ∧ getTimeAgo now timestamp = pretty n +:+ " minutes ago")
  ∧ ((3600000 ≤ now - timestamp < 86400000)%Z →
     ∃ n, (1 ≤ n ≤ 23)%Z
          ∧ (n * 3600000 ≤ now - timestamp < (n + 1) * 3600000)%Z
          ∧ getTimeAgo now timestamp = pretty n +:+ " hours ago")
  ∧ ((86400000 ≤ now - timestamp)%Z →
     ∃ n, (1 ≤ n)%Z
          ∧ (n * 86400000 ≤ now - timestamp < (n + 1) * 86400000)%Z
          ∧ getTimeAgo now timestamp = pretty n +:+ " days ago").
Proof.
  unfold getTimeAgo. cbn zeta.
  set (elapsed := (now - timestamp)%Z).
  set (diff := (elapsed / 1000)%Z).
  assert (Hdiff : (diff * 1000 ≤ elapsed < (diff + 1) * 1000)%Z).
  { unfold diff. pose proof (Z.div_mod elapsed 1000).
    pose proof (Z.mod_pos_bound elapsed 1000). lia. }
  assert (Hunit : ∀ u, (0 < u)%Z →
    (diff / u * u ≤ diff < (diff / u + 1) * u)%Z).
  { intros u Hu. pose proof (Z.div_mod diff u).
    pose proof (Z.mod_pos_bound diff u). lia. }
  split; [|split; [|split]]; intros H.
  - destruct (Z.ltb_spec diff 60); [done | lia].
  - destruct (Z.ltb_spec diff 60); [lia|].
    destruct (Z.ltb_spec diff 3600); [|lia].
    exists (diff / 60)%Z. pose proof (Hunit 60%Z). split; [lia|].
    split; [lia | done].
  - destruct (Z.ltb_spec diff 60); [lia|].
    destruct (Z.ltb_spec diff 3600); [lia|].
    destruct (Z.ltb_spec diff 86400); [|lia].
    exists (diff / 3600)%Z. pose proof (Hunit 3600%Z). split; [lia|].
    split; [lia | done].
  - destruct (Z.ltb_spec diff 60); [lia|].
    destruct (Z.ltb_spec diff 3600); [lia|].
    destruct (Z.ltb_spec diff 86400); [lia|].
    exists (diff / 86400)%Z. pose proof (Hunit 86400%Z). split; [lia|].
    split; [lia | done].
Qed.

(** ** Profiles and readings *)

Lemma profile_key_outside (key patientId : string) :
  String.prefix "profile:" key = true →
  String.prefix (vitalsPrefix patientId) key = false
  ∧ String.prefix (alertsPrefix patientId) key = false.
Proof.
  unfold vitalsPrefix, alertsPrefix. destruct key as [|c key]; [done|].
  rewrite !string_app_cons, !string_prefix_cons.
  destruct (decide ("p"%char = c)) as [<-|]; [|done]. intros _.
  by rewrite !decide_False.
Qed.

(** X18: POST /vitals never touches a profile: whatever the request and
    its outcome, GET /profile/:userId answers as before for every user,
    and GET /patients lists the same patients. *)
Theorem postVitals_keeps_profiles (numberToString : Q → string)
    (auth : AuthResult) (clock : nat → Z) (body : Body.t)
    (kv : gmap string Stored) (reader : string) :
  let kv' := (postVitals numberToString auth clock body kv).2 in
  (∀ auth' userId, getProfile auth' userId kv' = getProfile auth' userId kv)
  ∧ ∃ before after,
      getPatients (AuthUser reader) kv = Ok before
      ∧ getPatients (AuthUser reader) kv' = Ok after
      ∧ after ≡ₚ before.
Proof.
  intros kv'.
  assert (Hsame : ∀ key, String.prefix "profile:" key = true →
                         kv' !! key = kv !! key).
  { intros key Hkey. apply postVitals_lookup_outside. intros patientId _.
    by apply profile_key_outside. }
  split.
  - intros auth' userId. unfold getProfile, kv_get.
    rewrite Hsame; [done|]. apply string_prefix_app.
  - unfold getPatients. do 2 eexists.
    split; [reflexivity|]. split; [reflexivity|].
    rewrite !sortDescBy_Permutation. apply List_filter_Permutation.
    by apply kv_getByPrefix_agree.
Qed.

(** ** The heart-rate chart *)

Lemma string_length_app (a b : string) :
  String.length (a +:+ b) = (String.length a + String.length b)%nat.
Proof.
  induction a as [|x a IH]; [done|]. rewrite string_app_cons. cbn.
  by rewrite IH.
Qed.

Lemma timeLabel_not_Now (now : Z) (v : Stored) : timeLabel now v ≠ "Now".
Proof.
  intros H. apply (f_equal String.length) in H.
  unfold timeLabel, getTimeAgo in H.
  destruct (field_timestamp v) as [timestamp|]; [|done]. cbn zeta in H.
  repeat match type of H with
    | context [if ?b then _ else _] => destruct b
    end;
    rewrite ?string_length_app in H; cbn in H; lia.
Qed.

Lemma List_filter_length_le {A} (f : A → bool) (l : list A) :
  (length (List.filter f l) ≤ length l)%nat.
Proof.
  induction l as [|x l IH]; [done|]. cbn. destruct (f x); cbn; lia.
Qed.

Lemma List_filter_length_all {A} (f : A → bool) (l : list A) :
  length (List.filter f l) = length l → ∀ x, x ∈ l → f x = true.
Proof.
  induction l as [|y l IH]; intros Hlen x Hx; [by apply elem_of_nil in Hx|].
  pose proof (List_filter_length_le f l) as Hle. cbn in Hlen.
  destruct (f y) eqn:E; cbn in Hlen; [|lia].
  apply elem_of_cons in Hx as [->|Hx]; [done|]. apply IH; [lia | done].
Qed.

Lemma List_filter_all {A} (f : A → bool) (l : list A) :
  (∀ x, x ∈ l → f x = true) → List.filter f l = l.
Proof.
  induction l as [|y l IH]; intros H; [done|]. cbn.
  rewrite (H y) by left. f_equal. apply IH. intros x Hx. apply H. by right.
Qed.

(** X19: the chart shows at most six points, and a point is labelled 'Now'
    exactly when its index is the number of loaded readings less one.  So
    a 'Now' label needs at most six loaded readings, each with a heart
    rate; then it is on the last point, which is the first reading of the
    list. *)
Theorem heartRateData_now_label (clock : nat → Z) (vitals : list Stored) :
  let data := heartRateData clock vitals in
  (length data ≤ 6)%nat
  ∧ (length data ≤ length vitals)%nat
  ∧ (∀ i p, data !! i = Some p →
            (Point.time p = "Now" ↔ S i = length vitals))
  ∧ ((∃ p, p ∈ data ∧ Point.time p = "Now") →
     (length vitals ≤ 6)%nat
     ∧ ∀ v, v ∈ vitals → Js.truthy (field_heartRate v) = true)
  ∧ ((length vitals ≤ 6)%nat →
     (∀ v, v ∈ vitals → Js.truthy (field_heartRate v) = true) →
     ∀ v, head vitals = Some v →
          last data
          = Some {| Point.time := "Now"; Point.value := field_heartRate v |}).
Proof.
  intros data.
  set (shown := List.filter (λ v, Js.truthy (field_heartRate v)) vitals).
  assert (Hshown : (length shown ≤ length vitals)%nat)
    by apply List_filter_length_le.
  assert (Hlen : length data = length (take 6 shown)).
  { unfold data, heartRateData. by rewrite length_imap, length_reverse. }
  assert (Htake : length (take 6 shown) = (6 `min` length shown)%nat)
    by apply length_take.
  assert (Hlabel : ∀ i p, data !! i = Some p →
                          (Point.time p = "Now" ↔ S i = length vitals)).
  { intros i p Hi. unfold data, heartRateData in Hi.
    rewrite list_lookup_imap in Hi.
    apply fmap_Some in Hi as (v & _ & ->). cbn [Point.time].
    destruct (Z.eqb_spec (Z.of_nat i) (Z.of_nat (length vitals) - 1)).
    - split; [lia | done].
    - split; [|lia]. intros H. by apply timeLabel_not_Now in H. }
  split; [lia|]. split; [lia|]. split; [exact Hlabel|]. split.
  - intros (p & Hp & Hnow). apply list_elem_of_lookup in Hp as [i Hi].
    apply (Hlabel i p Hi) in Hnow.
    apply lookup_lt_Some in Hi.
    split; [lia|]. apply List_filter_length_all. fold shown. lia.
  - intros Hsix Hall v Hv.
    assert (Hs : shown = vitals) by by apply List_filter_all.
    unfold data, heartRateData. fold shown. rewrite Hs.
    rewrite take_ge by lia.
    destruct vitals as [|w rest]; [done|]. injection Hv as ->.
    rewrite reverse_cons, imap_app. cbn [imap].
    rewrite last_snoc, length_reverse, Nat.add_0_r. cbn [length].
    destruct (Z.eqb_spec (Z.of_nat (length rest)) (Z.of_nat (S (length rest)) - 1));
      [done | lia].
Qed.

Lemma heartRateData_now_label_witness :
  let vitals :=
    [ exampleReading (Some 72%Q) None 1717156800000;
      exampleReading (Some 80%Q) None 1717156740000 ] in
  last (heartRateData (λ _, 1717156800000%Z) vitals)
  = Some {| Point.time := "Now"; Point.value := Some 72%Q |}.
Proof.
  intros vitals.
  assert (Hsix : (length vitals ≤ 6)%nat) by (cbn; lia).
  assert (Hall : ∀ v, v ∈ vitals → Js.truthy (field_heartRate v) = true).
  { intros v Hv. apply elem_of_cons in Hv as [->|Hv]; [reflexivity|].
    apply elem_of_cons in Hv as [->|Hv]; [reflexivity|].
    by apply elem_of_nil in Hv. }
  exact (proj2 (proj2 (proj2 (proj2
           (heartRateData_now_label (λ _, 1717156800000%Z) vitals))))
           Hsix Hall (exampleReading (Some 72%Q) None 1717156800000)
           eq_refl).
Defined.

(** ** Blood pressure from the form to the dashboard *)

Lemma split_two (sep : Ascii.ascii) (a b : string) :
  lacks sep a → lacks sep b →
  Js.split sep (a +:+ String sep b) = [a; b].
Proof.
  intros Ha Hb. unfold Js.split.
  by rewrite splitAux_first, splitAux_none.
Qed.

(** X20: the blood pressure that the form of AddReading sends is stored
    as it is and read back by the dashboard as the two numbers typed:
    with both fields filled in, and no slash inside them, the status of
    the stored value is normal exactly when [parseInt] of the first field
    is from 90 to 120 and that of the second from 60 to 80; with a field
    left empty nothing is stored and the status is normal. *)
Theorem bloodPressure_form_to_status (systolic diastolic : string)
    (vitalId patientId : string) (body : Body.t) (timestamp : Z)
    (userId : string) :
  lacks "/" systolic →
  lacks "/" diastolic →
  let bloodPressure := handleSubmit_bloodPressure systolic diastolic in
  let reading :=
    makeVitalReading vitalId patientId (withBloodPressure bloodPressure body)
      timestamp userId in
  (systolic = "" ∨ diastolic = "" →
   Vital.bloodPressure reading = None
   ∧ getVitalStatus (bloodPressureArg (Vital.bloodPressure reading))
     = "normal")
  ∧ (systolic ≠ "" → diastolic ≠ "" →
     Vital.bloodPressure reading = Some (systolic +:+ "/" +:+ diastolic)
     ∧ getVitalStatus (bloodPressureArg (Vital.bloodPressure reading))
       = if within 90 120 (Js.parseInt systolic)
            && within 60 80 (Js.parseInt diastolic)
         then "normal" else "abnormal").
Proof.
  intros Hs Hd bloodPressure reading.
  unfold reading, bloodPressure, handleSubmit_bloodPressure.
  cbn [makeVitalReading withBloodPressure Vital.bloodPressure
       Body.bloodPressure Js.truthyString].
  split.
  - intros [-> | ->]; [done|].
    destruct (String.eqb_spec systolic ""); done.
  - intros Hns Hnd.
    destruct (String.eqb_spec systolic "") as [|_]; [done|].
    destruct (String.eqb_spec diastolic "") as [|_]; [done|].
    cbn [negb andb Js.orNullString Js.truthyString].
    assert (Hne : String.eqb (systolic +:+ "/" +:+ diastolic) "" = false).
    { destruct systolic; [done|]. by rewrite string_app_cons. }
    assert (Hstored :
      Js.orNullString (Some (systolic +:+ "/" +:+ diastolic))
      = Some (systolic +:+ "/" +:+ diastolic)).
    { unfold Js.orNullString, Js.truthyString. by rewrite Hne. }
    rewrite Hstored. split; [done|].
    unfold getVitalStatus, Js.truthyString. rewrite Hne. cbn [negb].
    change (systolic +:+ "/" +:+ diastolic)
      with (systolic +:+ String "/" diastolic).
    by rewrite split_two.
Qed.

Lemma bloodPressure_form_to_status_witness :
  let reading :=
    makeVitalReading "vitals:p1:1000" "p1"
      (withBloodPressure (handleSubmit_bloodPressure "120" "80")
         (Body.mk (Some "p1") None None None None None))
      1000 "u1" in
  Vital.bloodPressure reading = Some ("120" +:+ "/" +:+ "80")
  ∧ getVitalStatus (bloodPressureArg (Vital.bloodPressure reading))
    = if within 90 120 (Js.parseInt "120") && within 60 80 (Js.parseInt "80")
      then "normal" else "abnormal".
Proof.
  assert (Hs : lacks "/" "120").
  { unfold lacks. cbn. rewrite !not_elem_of_cons.
    repeat split; try discriminate. apply not_elem_of_nil. }
  assert (Hd : lacks "/" "80").
  { unfold lacks. cbn. rewrite !not_elem_of_cons.
    repeat split; try discriminate. apply not_elem_of_nil. }
  apply (proj2 (bloodPressure_form_to_status "120" "80" "vitals:p1:1000"
                  "p1" (Body.mk (Some "p1") None None None None None)
                  1000 "u1" Hs Hd)); discriminate.
Defined.
